(** * Structural verification toolchain of the Angular bootstrap template

    A shallow embedding of the four rule checkers under [tools/scripts]:
    - [verify-app-routes.mjs]               (module [AppRoutes]),
    - [verify-feature-routes.mjs]           (module [FeatureRoutes]),
    - [verify-structure.mjs]                (module [Structure]),
    - [verify-no-cross-feature-imports.mjs] (module [CrossFeature]),
    together with the parts of their environment they observe: the
    TypeScript syntax tree ([node]), [node:path] on a POSIX host ([Path])
    and a read-only file system ([Fs]). *)

From Stdlib Require Import String Ascii List Arith Bool Lia DecimalString DecimalNat.
Import ListNotations.
Local Open Scope string_scope.
Local Open Scope list_scope.

Set Implicit Arguments.
Set Warnings "-register-all".

(** String concatenation, kept apart from list concatenation. *)
Infix "+++" := String.append (right associativity, at level 60).

(* ================================================================= *)
(** ** JavaScript strings *)

(** Source texts are modelled as byte strings.  Every needle the scripts
    search for is plain ASCII, so prefix, suffix and substring tests
    agree with their UTF-16 counterparts. *)
Module Js.

(** The double quote and the line feed, which have no literal form. *)
Definition dq : string := String (ascii_of_nat 34) EmptyString.
Definition nl : string := String (ascii_of_nat 10) EmptyString.

(** [s.startsWith(p)] *)
Definition startsWith (s p : string) : bool := String.prefix p s.

(** [s.endsWith(p)] *)
Definition endsWith (s p : string) : bool :=
  let ls := String.length s in
  let lp := String.length p in
  if Nat.leb lp ls then String.eqb (String.substring (ls - lp) lp s) p else false.

(** [s.includes(p)] *)
Fixpoint includes (s p : string) : bool :=
  String.prefix p s ||
  match s with
  | EmptyString => false
  | String _ s' => includes s' p
  end.

(** [s.split(sep)] for a one-character separator. *)
Fixpoint splitFrom (sep : ascii) (cur s : string) : list string :=
  match s with
  | EmptyString => [cur]
  | String c s' =>
      if Ascii.eqb c sep then cur :: splitFrom sep EmptyString s'
      else splitFrom sep (cur +++ String c EmptyString) s'
  end.
Definition split (sep : ascii) (s : string) : list string :=
  splitFrom sep EmptyString s.

(** [parts.join(sep)] *)
Definition join (sep : string) (parts : list string) : string :=
  String.concat sep parts.

(** [`${n}`] for a non-negative integer. *)
Definition ofNat (n : nat) : string := NilEmpty.string_of_uint (Nat.to_uint n).

(** [o === s] where [o] may be [null]. *)
Definition isString (o : option string) (s : string) : bool :=
  match o with
  | Some t => String.eqb t s
  | None => false
  end.

(** [parts.lastIndexOf(x)], [None] standing for [-1]. *)
Fixpoint lastIndexOfFrom (i : nat) (x : string) (parts : list string) (acc : option nat)
  : option nat :=
  match parts with
  | [] => acc
  | p :: rest =>
      lastIndexOfFrom (S i) x rest (if String.eqb p x then Some i else acc)
  end.
Definition lastIndexOf (parts : list string) (x : string) : option nat :=
  lastIndexOfFrom 0 x parts None.

End Js.

(* ================================================================= *)
(** ** The syntax tree handed out by the TypeScript parser *)

(** Modifier kinds that can precede a variable statement. *)
Inductive SyntaxKind : Type :=
| ExportKeyword
| DeclareKeyword
| DefaultKeyword.

Definition isExportKeyword (k : SyntaxKind) : bool :=
  match k with
  | ExportKeyword => true
  | _ => false
  end.

(** The node kinds the checkers tell apart; every other kind is an
    [OtherNode] that is only ever traversed.  [VariableStatement] holds
    the declarations of its declaration list directly. *)
Inductive node : Type :=
| Identifier (text : string)
| StringLiteral (text : string)
| ImportKeyword
| CallExpression (expression : node) (typeArguments : list node) (arguments : list node)
| ArrayLiteralExpression (elements : list node)
| ObjectLiteralExpression (properties : list node)
| PropertyAssignment (name : node) (initializer : node)
| VariableDeclaration (name : node) (type : option node) (initializer : option node)
| VariableStatement (modifiers : list SyntaxKind) (declarations : list node)
| ImportDeclaration (importClause : option node) (moduleSpecifier : node)
| SourceFile (statements : list node)
| OtherNode (children : list node).

Definition optNode (o : option node) : list node :=
  match o with
  | Some n => [n]
  | None => []
  end.

(** [ts.forEachChild(n, cb)] calls [cb] on these nodes, in this order. *)
Definition forEachChild (n : node) : list node :=
  match n with
  | Identifier _ | StringLiteral _ | ImportKeyword => []
  | CallExpression e ta args => e :: ta ++ args
  | ArrayLiteralExpression els => els
  | ObjectLiteralExpression props => props
  | PropertyAssignment nm init => [nm; init]
  | VariableDeclaration nm ty init => nm :: optNode ty ++ optNode init
  | VariableStatement _ decls => decls
  | ImportDeclaration clause spec => optNode clause ++ [spec]
  | SourceFile stmts => stmts
  | OtherNode ch => ch
  end.

(** The recursive visitors of the scripts all have the shape
    [function visit(node) { ...; ts.forEachChild(node, visit); }] around a
    variable captured from the enclosing function.  [walk f] is that
    shape: [f] is the part before the descent, acting on the captured
    variable, and tells whether the visitor goes on to the children
    ([false] for an early [return]). *)
Fixpoint walk (S : Type) (f : node -> S -> S * bool) (n : node) (s : S) {struct n} : S :=
  let walks :=
    fix walks (l : list node) (s : S) {struct l} : S :=
      match l with
      | [] => s
      | c :: r => walks r (walk f c s)
      end in
  let walko (o : option node) (s : S) : S :=
    match o with
    | Some c => walk f c s
    | None => s
    end in
  let (s1, descend) := f n s in
  if descend then
    match n with
    | Identifier _ | StringLiteral _ | ImportKeyword => s1
    | CallExpression e ta args => walks args (walks ta (walk f e s1))
    | ArrayLiteralExpression els => walks els s1
    | ObjectLiteralExpression props => walks props s1
    | PropertyAssignment nm init => walk f init (walk f nm s1)
    | VariableDeclaration nm ty init => walko init (walko ty (walk f nm s1))
    | VariableStatement _ decls => walks decls s1
    | ImportDeclaration clause spec => walk f spec (walko clause s1)
    | SourceFile stmts => walks stmts s1
    | OtherNode ch => walks ch s1
    end
  else s1.

(** [d] is a node of the subtree rooted at [n]. *)
Inductive within (d : node) : node -> Prop :=
| within_here : within d d
| within_child : forall n c, In c (forEachChild n) -> within d c -> within d n.

(** The import call [import('<text>')] in the form the scripts look for:
    a call whose callee is the [import] keyword; [Some text] when its
    first argument is a string literal. *)
Definition importArgument (n : node) : option string :=
  match n with
  | CallExpression ImportKeyword _ (StringLiteral t :: _) => Some t
  | _ => None
  end.

Definition isObjectLiteralExpression (n : node) : bool :=
  match n with
  | ObjectLiteralExpression _ => true
  | _ => false
  end.

(** [obj.properties] and [arr.elements] *)
Definition propertiesOf (obj : node) : list node :=
  match obj with
  | ObjectLiteralExpression props => props
  | _ => []
  end.

Definition elementsOf (arr : node) : list node :=
  match arr with
  | ArrayLiteralExpression els => els
  | _ => []
  end.

(** Helpers that the route checkers each define, with the same body. *)
Definition getPropName (propNameNode : node) : option string :=
  match propNameNode with
  | Identifier t => Some t
  | StringLiteral t => Some t
  | _ => None
  end.

Definition getPropInitializer (obj : node) (propName : string) : option node :=
  (fix go (ps : list node) : option node :=
     match ps with
     | [] => None
     | PropertyAssignment nm init :: rest =>
         if Js.isString (getPropName nm) propName then Some init else go rest
     | _ :: rest => go rest
     end) (propertiesOf obj).

Definition getStringValue (n : node) : option string :=
  match n with
  | StringLiteral t => Some t
  | _ => None
  end.

Definition objectHasProp (obj : node) (propName : string) : bool :=
  existsb (fun p =>
             match p with
             | PropertyAssignment nm _ => Js.isString (getPropName nm) propName
             | _ => false
             end) (propertiesOf obj).

(** [node.modifiers?.some((m) => m.kind === ts.SyntaxKind.ExportKeyword)] *)
Definition isExported (modifiers : list SyntaxKind) : bool :=
  existsb isExportKeyword modifiers.

(* ================================================================= *)
(** ** [node:path] on a POSIX host *)

Module Path.

Definition sep : ascii := "/"%char.
Definition sepString : string := "/".

Definition isAbsolute (p : string) : bool := Js.startsWith p sepString.

(** One segment of [normalizeString]: empty and [.] segments vanish, a
    [..] removes the segment before it, or is kept where nothing is left
    to remove and the path may climb above its start. *)
Definition normalizeStep (allowAboveRoot : bool) (res : list string) (seg : string)
  : list string :=
  if String.eqb seg "" || String.eqb seg "." then res
  else if String.eqb seg ".." then
    match res with
    | last :: before =>
        if String.eqb last ".." then (if allowAboveRoot then seg :: res else res)
        else before
    | [] => if allowAboveRoot then [seg] else []
    end
  else seg :: res.

(** The segments are accumulated last-first. *)
Definition normalizeSegments (allowAboveRoot : bool) (p : string) : list string :=
  rev (fold_left (normalizeStep allowAboveRoot) (Js.split sep p) []).

Definition normalizeString (allowAboveRoot : bool) (p : string) : string :=
  Js.join sepString (normalizeSegments allowAboveRoot p).

(** [path.normalize(p)] *)
Definition normalize (p : string) : string :=
  if String.eqb p "" then "."
  else
    let abs := isAbsolute p in
    let trailing := Js.endsWith p sepString in
    let r := normalizeString (negb abs) p in
    if String.eqb r "" then
      (if abs then "/" else if trailing then "./" else ".")
    else (if abs then "/" else "") +++ r +++ (if trailing then "/" else "").

(** [path.join(...args)] *)
Definition join (args : list string) : string :=
  match filter (fun a => negb (String.eqb a "")) args with
  | [] => "."
  | parts => normalize (Js.join sepString parts)
  end.

(** [path.resolve(...args)]: the arguments are taken right to left until
    an absolute one is met, the working directory coming last. *)
Fixpoint resolveFrom (cwd : string) (rargs : list string) (resolved : string)
  : string * bool :=
  match rargs with
  | [] => (cwd +++ "/" +++ resolved, isAbsolute cwd)
  | p :: rest =>
      if String.eqb p "" then resolveFrom cwd rest resolved
      else if isAbsolute p then (p +++ "/" +++ resolved, true)
      else resolveFrom cwd rest (p +++ "/" +++ resolved)
  end.

Definition resolve (cwd : string) (args : list string) : string :=
  let (joined, abs) := resolveFrom cwd (rev args) "" in
  let r := normalizeString (negb abs) joined in
  if abs then "/" +++ r
  else if String.eqb r "" then "." else r.

(** [path.dirname(p)]: trailing separators are dropped, then the last
    segment and the separator before it; index 0 is never dropped. *)
Fixpoint dropWhile (f : ascii -> bool) (l : list ascii) : list ascii :=
  match l with
  | [] => []
  | c :: r => if f c then dropWhile f r else l
  end.

Definition dirname (p : string) : string :=
  match list_ascii_of_string p with
  | [] => "."
  | first :: others =>
      let hasRoot := Ascii.eqb first sep in
      let isSep := fun c => Ascii.eqb c sep in
      match dropWhile (fun c => negb (isSep c)) (dropWhile isSep (rev others)) with
      | [] => if hasRoot then "/" else "."
      | _ :: [] => if hasRoot then "//" else String first EmptyString
      | _ :: before => string_of_list_ascii (first :: rev before)
      end
  end.

(** [path.relative(from, to)], on the segments of the resolved paths. *)
Fixpoint stripCommon (f t : list string) : list string * list string :=
  match f, t with
  | x :: f', y :: t' => if String.eqb x y then stripCommon f' t' else (f, t)
  | _, _ => (f, t)
  end.

Definition relative (cwd from to : string) : string :=
  let f := resolve cwd [from] in
  let t := resolve cwd [to] in
  if String.eqb f t then ""
  else
    let (f', t') := stripCommon (normalizeSegments false f) (normalizeSegments false t) in
    Js.join sepString (map (fun _ => "..") f' ++ t').

End Path.

(* ================================================================= *)
(** ** The file system, as the scripts read it *)

Module Fs.

(** A file is represented by what [ts.createSourceFile] makes of its
    text; the parser is outside the toolchain.  [Special] is an entry
    that is neither a regular file nor a directory. *)
Inductive entry : Type :=
| File (parsed : node)
| Directory (entries : list (string * entry))
| Special.

Fixpoint assoc (name : string) (entries : list (string * entry)) : option entry :=
  match entries with
  | [] => None
  | (n, e) :: rest => if String.eqb n name then Some e else assoc name rest
  end.

Fixpoint lookupSegments (e : entry) (segs : list string) : option entry :=
  match segs with
  | [] => Some e
  | s :: rest =>
      match e with
      | Directory entries =>
          match assoc s entries with
          | Some child => lookupSegments child rest
          | None => None
          end
      | _ => None
      end
  end.

(** The entry an absolute path leads to, from the root directory. *)
Definition lookup (root : entry) (p : string) : option entry :=
  lookupSegments root (Path.normalizeSegments false p).

(** [fs.existsSync(p)] *)
Definition existsSync (root : entry) (p : string) : bool :=
  match lookup root p with
  | Some _ => true
  | None => false
  end.

(** [fs.Dirent] *)
Record Dirent : Type := mkDirent {
  name : string;
  isDirectory : bool;
  isFile : bool
}.

Definition direntOf (ne : string * entry) : Dirent :=
  match snd ne with
  | File _ => mkDirent (fst ne) false true
  | Directory _ => mkDirent (fst ne) true false
  | Special => mkDirent (fst ne) false false
  end.

(** [fs.readdirSync(dir, { withFileTypes: true })], in listing order;
    [None] when it throws (no such directory, or not a directory). *)
Definition readdirSync (root : entry) (dir : string) : option (list Dirent) :=
  match lookup root dir with
  | Some (Directory entries) => Some (map direntOf entries)
  | _ => None
  end.

(** [parseSource(filePath)]: read the text and parse it; [None] when
    [fs.readFileSync] throws. *)
Definition parseSource (root : entry) (filePath : string) : option node :=
  match lookup root filePath with
  | Some (File parsed) => Some parsed
  | _ => None
  end.

End Fs.

(** What a script leaves behind: the lines written by [console.log] and
    [console.error], and the exit status. *)
Record Outcome : Type := mkOutcome {
  exitCode : nat;
  stdout : list string;
  stderr : list string
}.

(** [getWorkspaceContext()], restricted to the fields the checkers use. *)
Record WorkspaceContext : Type := mkContext {
  workspaceRoot : string;
  appRoot : string;
  featuresDir : string;
  appRoutesFile : string
}.

(** The host a script runs on: its file system and working directory. *)
Record Host : Type := mkHost {
  root : Fs.entry;
  cwd : string
}.

(** Sequencing of steps that may throw; a thrown exception is never
    caught by the scripts, so it ends the run. *)
Definition bindThrow (A B : Type) (x : option A) (k : A -> option B) : option B :=
  match x with
  | Some a => k a
  | None => None
  end.
Notation "'try!' x <- e ; k" := (bindThrow e (fun x => k))
  (at level 10, x name, e at level 100, k at level 200).

(* ================================================================= *)
(** ** App-Route Composition Checker ([verify-app-routes.mjs]) *)

Module AppRoutes.

(** [die(msg)] *)
Definition die (msg : string) : Outcome := mkOutcome 1 [] [msg].

(** The first declaration of an exported statement that binds the
    identifier [routes] to an array literal. *)
Fixpoint routesDeclaration (declarations : list node) : option node :=
  match declarations with
  | [] => None
  | VariableDeclaration (Identifier nm) _ (Some (ArrayLiteralExpression els)) :: rest =>
      if String.eqb nm "routes" then Some (ArrayLiteralExpression els)
      else routesDeclaration rest
  | _ :: rest => routesDeclaration rest
  end.

Definition findExportedRoutesArray (sf : node) : option node :=
  walk (fun nd routesArray =>
          match routesArray with
          | Some _ => (routesArray, false)
          | None =>
              match nd with
              | VariableStatement mods decls =>
                  if negb (isExported mods) then (None, false)
                  else
                    match routesDeclaration decls with
                    | Some arr => (Some arr, false)
                    | None => (None, true)
                    end
              | _ => (None, true)
              end
          end) sf None.

Definition featuresImport (text : string) : bool :=
  Js.startsWith text "./features/" && Js.endsWith text ".routes".

Definition loadChildrenLooksLikeFeaturesImport (init : node) : bool :=
  walk (fun nd (ok : bool) =>
          if ok then (ok, false)
          else
            match importArgument nd with
            | Some text => (if featuresImport text then true else ok, true)
            | None => (ok, true)
            end) init false.

Definition loadComponentLooksLikeNotFound (init : node) : bool :=
  walk (fun nd (ok : bool) =>
          if ok then (ok, false)
          else
            match importArgument nd with
            | Some text =>
                (if String.eqb text "./shared/pages/not-found.page" then true else ok, true)
            | None => (ok, true)
            end) init false.

(** The violation messages. *)
Definition onlyRouteObjects : string := "APP_ROUTES must contain only route objects.".
Definition noComponent : string :=
  "app.routes.ts must not use " +++ Js.dq +++ "component:" +++ Js.dq
  +++ "; use loadChildren/loadComponent only.".
Definition literalPath : string :=
  "Every app route must have a literal string " +++ Js.dq +++ "path" +++ Js.dq +++ ".".
Definition emptyPathRedirect : string :=
  "Empty path route must be a redirect with redirectTo + pathMatch.".
Definition wildcardNotFound : string :=
  "Wildcard route must loadComponent from './shared/pages/not-found.page'.".
Definition mustUseLoadChildren (pathValue : string) : string :=
  "Route " +++ Js.dq +++ pathValue +++ Js.dq +++ " must use loadChildren for feature routes.".
Definition mustImportFeatureRoutes (pathValue : string) : string :=
  "Route " +++ Js.dq +++ pathValue +++ Js.dq
  +++ " loadChildren must import './features/<feature>/<feature>.routes'.".
Definition wildcardCountMessage (wildcardCount : nat) : string :=
  "APP_ROUTES must contain exactly one wildcard '**' route (found "
  +++ Js.ofNat wildcardCount +++ ").".

(** The literal string value of the element's [path] property. *)
Definition pathValueOf (el : node) : option string :=
  match getPropInitializer el "path" with
  | Some pathInit => getStringValue pathInit
  | None => None
  end.

(** One turn of [for (const el of arr.elements)], on the pair of
    [errors] and [wildcardCount]. *)
Definition routeStep (st : list string * nat) (el : node) : list string * nat :=
  let (errors, wildcardCount) := st in
  if negb (isObjectLiteralExpression el) then (errors ++ [onlyRouteObjects], wildcardCount)
  else
    let errors :=
      if objectHasProp el "component" then errors ++ [noComponent] else errors in
    match pathValueOf el with
    | None => (errors ++ [literalPath], wildcardCount)
    | Some pathValue =>
        if String.eqb pathValue "" then
          (if negb (objectHasProp el "redirectTo") || negb (objectHasProp el "pathMatch")
           then errors ++ [emptyPathRedirect] else errors,
           wildcardCount)
        else if String.eqb pathValue "**" then
          let wildcardCount := S wildcardCount in
          match getPropInitializer el "loadComponent" with
          | Some lc =>
              (if negb (loadComponentLooksLikeNotFound lc)
               then errors ++ [wildcardNotFound] else errors,
               wildcardCount)
          | None => (errors ++ [wildcardNotFound], wildcardCount)
          end
        else
          match getPropInitializer el "loadChildren" with
          | None => (errors ++ [mustUseLoadChildren pathValue], wildcardCount)
          | Some loadChildren =>
              (if negb (loadChildrenLooksLikeFeaturesImport loadChildren)
               then errors ++ [mustImportFeatureRoutes pathValue] else errors,
               wildcardCount)
          end
    end.

(** The state after the walk over all elements. *)
Definition walkRoutes (arr : node) : list string * nat :=
  fold_left routeStep (elementsOf arr) ([], 0).

(** [errors] as it stands when the report is made. *)
Definition violations (arr : node) : list string :=
  let (errors, wildcardCount) := walkRoutes arr in
  if negb (Nat.eqb wildcardCount 1) then errors ++ [wildcardCountMessage wildcardCount]
  else errors.

Definition report (h : Host) (ctx : WorkspaceContext) (errors : list string) : Outcome :=
  if negb (Nat.eqb (length errors) 0) then
    mkOutcome 1 []
      (("App routes verification failed (" +++ Js.ofNat (length errors) +++ " issue(s)):"
        +++ Js.nl)
       :: map (fun e => "- " +++ e) errors)
  else
    mkOutcome 0
      ["OK: app.routes.ts verified ("
       +++ Path.relative (cwd h) (workspaceRoot ctx) (appRoutesFile ctx) +++ ")."]
      [].

(** [main()]; [None] when an exception escapes. *)
Definition main (h : Host) (ctx : WorkspaceContext) : option Outcome :=
  if negb (Fs.existsSync (root h) (appRoutesFile ctx)) then
    Some (die ("Missing app.routes.ts at: " +++ appRoutesFile ctx))
  else
    try! sf <- Fs.parseSource (root h) (appRoutesFile ctx);
    match findExportedRoutesArray sf with
    | None =>
        Some (die "app.routes.ts must export const routes = [ ... ] (Angular CLI convention)")
    | Some arr => Some (report h ctx (violations arr))
    end.

(** The violations a single element adds, and whether it is counted as
    a wildcard. *)
Definition entryViolations (el : node) : list string := fst (routeStep ([], 0) el).
Definition isWildcardEntry (el : node) : bool :=
  isObjectLiteralExpression el && Js.isString (pathValueOf el) "**".

(** The number of entries whose literal path is ['**']. *)
Definition wildcardEntries (arr : node) : nat :=
  length (filter isWildcardEntry (elementsOf arr)).

End AppRoutes.

(* ================================================================= *)
(** ** Feature-Route Provider Checker ([verify-feature-routes.mjs]) *)

Module FeatureRoutes.

Definition listFeatureNames (h : Host) (featuresDir : string) : option (list string) :=
  if negb (Fs.existsSync (root h) featuresDir) then Some []
  else
    try! entries <- Fs.readdirSync (root h) featuresDir;
    Some (map Fs.name (filter Fs.isDirectory entries)).

(** The declarations of an exported statement that bind an identifier
    to an array literal, as [{ name, arrayNode }]. *)
Definition arrayDeclarations (declarations : list node) : list (string * node) :=
  flat_map (fun decl =>
              match decl with
              | VariableDeclaration (Identifier nm) _ (Some (ArrayLiteralExpression els)) =>
                  [(nm, ArrayLiteralExpression els)]
              | _ => []
              end) declarations.

Definition findExportedRoutesArrays (sf : node) : list (string * node) :=
  walk (fun nd exportedArrays =>
          match nd with
          | VariableStatement mods decls =>
              if negb (isExported mods) then (exportedArrays, false)
              else (exportedArrays ++ arrayDeclarations decls, true)
          | _ => (exportedArrays, true)
          end) sf [].

Definition loadComponentImportsPage (init : node) : bool :=
  walk (fun nd (ok : bool) =>
          if ok then (ok, false)
          else
            match importArgument nd with
            | Some text => (if Js.endsWith text ".page" then true else ok, true)
            | None => (ok, true)
            end) init false.

Section Messages.
Variables (filePath exName : string).

Definition exportPrefix : string :=
  filePath +++ " export " +++ Js.dq +++ exName +++ Js.dq.

Definition mustExport : string :=
  filePath +++ " must export at least one Routes array: export const X = [ ... ]".
Definition mustNotBeEmpty : string := exportPrefix +++ " must not be empty.".
Definition nonObjectRoute (idx : nat) : string :=
  exportPrefix +++ " has a non-object route at index " +++ Js.ofNat idx +++ ".".
Definition noComponent : string :=
  exportPrefix +++ " must not use " +++ Js.dq +++ "component:" +++ Js.dq
  +++ ". Use loadComponent/loadChildren.".
Definition firstPath : string := exportPrefix +++ " first route must have path: ''".
Definition firstProviders : string :=
  exportPrefix +++ " first route must declare providers: [ ... ]".
Definition firstLoader : string :=
  exportPrefix +++ " first route must use loadComponent or loadChildren".
Definition firstLoadComponentPage : string :=
  exportPrefix +++ " first route loadComponent should import a *.page file".
Definition loadComponentPage : string :=
  exportPrefix +++ " has loadComponent not importing a *.page file".

(** The checks made on the element at index 0 only. *)
Definition firstRouteChecks (el : node) (errors : list string) : list string :=
  let pv :=
    match getPropInitializer el "path" with
    | Some p => getStringValue p
    | None => None
    end in
  let errors := if negb (Js.isString pv "") then errors ++ [firstPath] else errors in
  let errors :=
    if negb (objectHasProp el "providers") then errors ++ [firstProviders] else errors in
  let hasLC := objectHasProp el "loadComponent" in
  let hasLCh := objectHasProp el "loadChildren" in
  let errors := if negb hasLC && negb hasLCh then errors ++ [firstLoader] else errors in
  if hasLC then
    match getPropInitializer el "loadComponent" with
    | Some init =>
        if negb (loadComponentImportsPage init) then errors ++ [firstLoadComponentPage]
        else errors
    | None => errors
    end
  else errors.

(** The callback of [ex.arrayNode.elements.forEach((el, idx) => ...)]. *)
Definition elementStep (el : node) (idx : nat) (errors : list string) : list string :=
  if negb (isObjectLiteralExpression el) then errors ++ [nonObjectRoute idx]
  else
    let errors :=
      if objectHasProp el "component" then errors ++ [noComponent] else errors in
    let errors := if Nat.eqb idx 0 then firstRouteChecks el errors else errors in
    match getPropInitializer el "loadComponent" with
    | Some lc =>
        if negb (loadComponentImportsPage lc) then errors ++ [loadComponentPage]
        else errors
    | None => errors
    end.

Fixpoint forEachFrom (idx : nat) (elements : list node) (errors : list string)
  : list string :=
  match elements with
  | [] => errors
  | el :: rest => forEachFrom (S idx) rest (elementStep el idx errors)
  end.

(** One turn of [for (const ex of exported)]. *)
Definition exportStep (arrayNode : node) (errors : list string) : list string :=
  if Nat.eqb (length (elementsOf arrayNode)) 0 then errors ++ [mustNotBeEmpty]
  else forEachFrom 0 (elementsOf arrayNode) errors.

End Messages.

(** [validateFeatureRoutesFile], from the parsed source on. *)
Definition validateSource (filePath : string) (sf : node) : list string :=
  let exported := findExportedRoutesArrays sf in
  if Nat.eqb (length exported) 0 then [mustExport filePath]
  else
    fold_left (fun errors ex => exportStep filePath (fst ex) (snd ex) errors) exported [].

Definition validateFeatureRoutesFile (h : Host) (filePath : string) : option (list string) :=
  try! sf <- Fs.parseSource (root h) filePath;
  Some (validateSource filePath sf).

Definition missingRoutesFile (routesFile : string) : string :=
  "Missing feature routes file: " +++ routesFile.

(** [for (const f of features)] *)
Fixpoint checkFeatures (h : Host) (featuresDir : string) (features : list string)
         (errors : list string) : option (list string) :=
  match features with
  | [] => Some errors
  | f :: rest =>
      let routesFile := Path.join [featuresDir; f; f +++ ".routes.ts"] in
      if negb (Fs.existsSync (root h) routesFile) then
        checkFeatures h featuresDir rest (errors ++ [missingRoutesFile routesFile])
      else
        try! found <- validateFeatureRoutesFile h routesFile;
        checkFeatures h featuresDir rest (errors ++ found)
  end.

Definition okMessage (h : Host) (ctx : WorkspaceContext) (features : list string) : string :=
  "OK: feature routes verified (" +++ Js.ofNat (length features) +++ " feature(s)) for "
  +++ Path.relative (cwd h) (workspaceRoot ctx) (featuresDir ctx) +++ ".".

Definition main (h : Host) (ctx : WorkspaceContext) : option Outcome :=
  try! features <- listFeatureNames h (featuresDir ctx);
  try! errors <- checkFeatures h (featuresDir ctx) features [];
  if negb (Nat.eqb (length errors) 0) then
    Some (mkOutcome 1 []
            (("Feature routes verification failed (" +++ Js.ofNat (length errors)
              +++ " issue(s)):" +++ Js.nl)
             :: map (fun e => "- " +++ e) errors))
  else Some (mkOutcome 0 [okMessage h ctx features] []).

(** The violations a checked file reports for one of its exported
    arrays. *)
Definition exportViolations (filePath : string) (ex : string * node) : list string :=
  exportStep filePath (fst ex) (snd ex) [].

End FeatureRoutes.

(** [for (const x of xs) errors.push(...f(x))], where [f] may throw. *)
Fixpoint pushEach (A : Type) (f : A -> option (list string)) (xs : list A)
         (errors : list string) : option (list string) :=
  match xs with
  | [] => Some errors
  | x :: rest =>
      try! found <- f x;
      pushEach f rest (errors ++ found)
  end.

(** [getImports(sourceFile)]: the module specifiers of the import
    declarations among the direct children of the source file. *)
Definition getImports (sourceFile : node) : list string :=
  flat_map (fun nd =>
              match nd with
              | ImportDeclaration _ (StringLiteral t) => [t]
              | _ => []
              end) (forEachChild sourceFile).

(** Directories that [listFilesRecursive] does not enter. *)
Definition skippedDirectory (name : string) : bool :=
  String.eqb name "node_modules" || String.eqb name "dist" || String.eqb name ".angular".

(* ================================================================= *)
(** ** Structure Checker ([verify-structure.mjs]) *)

Module Structure.

Definition exists_ (h : Host) (p : string) : bool := Fs.existsSync (root h) p.

Definition fileContainsIdentifier (sourceFile : node) (identifierText : string) : bool :=
  walk (fun nd (found : bool) =>
          if found then (found, false)
          else
            match nd with
            | Identifier t =>
                if String.eqb t identifierText then (true, false) else (found, true)
            | _ => (found, true)
            end) sourceFile false.

Definition fileContainsLiteral (sourceFile : node) (literalText : string) : bool :=
  walk (fun nd (found : bool) =>
          if found then (found, false)
          else
            match nd with
            | StringLiteral t =>
                if String.eqb t literalText then (true, false) else (found, true)
            | _ => (found, true)
            end) sourceFile false.

Definition listDirs (h : Host) (dir : string) : option (list string) :=
  if negb (exists_ h dir) then Some []
  else
    try! entries <- Fs.readdirSync (root h) dir;
    Some (map Fs.name (filter Fs.isDirectory entries)).

(** [listFilesRecursive(dir, out)] on the directory entry found at
    [dir]: the recursion follows the tree instead of reading each
    sub-directory again through its path. *)
Fixpoint filesUnder (dir : string) (e : Fs.entry) (out : list string) {struct e}
  : list string :=
  match e with
  | Fs.Directory entries =>
      (fix each (entries : list (string * Fs.entry)) (out : list string) {struct entries}
         : list string :=
         match entries with
         | [] => out
         | (name, child) :: rest =>
             let fp := Path.join [dir; name] in
             match child with
             | Fs.Directory _ =>
                 if skippedDirectory name then each rest out
                 else each rest (filesUnder fp child out)
             | Fs.File _ => each rest (out ++ [fp])
             | Fs.Special => each rest out
             end
         end) entries out
  | _ => out
  end.

Definition listFilesRecursive (h : Host) (dir : string) : option (list string) :=
  match Fs.lookup (root h) dir with
  | Some (Fs.Directory entries) => Some (filesUnder dir (Fs.Directory entries) [])
  | _ => None
  end.

(** Same body as in the Feature-Route Provider Checker. *)
Definition findExportedRoutesArrays (sf : node) : list (string * node) :=
  FeatureRoutes.findExportedRoutesArrays sf.

Definition routeObjectHasProviders (routeObj : node) : bool :=
  (fix go (props : list node) : bool :=
     match props with
     | [] => false
     | PropertyAssignment n _ :: rest =>
         if Js.isString (getPropName n) "providers" then true else go rest
     | _ :: rest => go rest
     end) (propertiesOf routeObj).

Definition requiredFiles (featureName : string) : list string :=
  [featureName +++ ".routes.ts";
   featureName +++ ".page.ts";
   featureName +++ ".data.ts";
   featureName +++ ".state.ts"].

(** The required files that are missing from the feature folder. *)
Definition verifyFeatureFolder (h : Host) (featureDir featureName : string) : list string :=
  filter (fun f => negb (exists_ h (Path.join [featureDir; f]))) (requiredFiles featureName).

Definition verifyNoStaticPageImportsInAppRoutes (h : Host) (appRoutesFile : string)
  : option (list string) :=
  if negb (exists_ h appRoutesFile) then Some ["Missing " +++ appRoutesFile]
  else
    try! sf <- Fs.parseSource (root h) appRoutesFile;
    let imports := getImports sf in
    let bad := filter (fun s => Js.includes s ".page") imports in
    if negb (Nat.eqb (length bad) 0) then
      Some ["app.routes.ts must not statically import pages. Found:" +++ Js.nl
            +++ Js.join Js.nl (map (fun b => "  - " +++ b) bad)]
    else Some [].

Definition verifyNoHttpClientInDisallowedFiles (h : Host) (files : list string)
  : option (list string) :=
  pushEach (fun fp =>
              if Js.endsWith fp ".page.ts" || Js.endsWith fp ".state.ts"
                 || Js.endsWith fp ".guard.ts" || Js.endsWith fp ".guards.ts"
              then
                try! sf <- Fs.parseSource (root h) fp;
                let imports := getImports sf in
                let importsHttp := existsb (String.eqb "@angular/common/http") imports in
                let mentionsHttpClient := fileContainsIdentifier sf "HttpClient" in
                if importsHttp && mentionsHttpClient then
                  Some ["HttpClient is not allowed in " +++ fp
                        +++ " (use *.data.ts or core/api)."]
                else Some []
              else Some []) files [].

Definition verifyNoProvidedInRootInFeatures (h : Host) (files : list string)
           (featuresDir : string) : option (list string) :=
  pushEach (fun fp =>
              if negb (Js.startsWith fp (featuresDir +++ Path.sepString)) then Some []
              else if negb (Js.endsWith fp ".ts") then Some []
              else
                try! sf <- Fs.parseSource (root h) fp;
                let hasProvidedIn := fileContainsIdentifier sf "providedIn" in
                let hasRootLiteral := fileContainsLiteral sf "root" in
                if hasProvidedIn && hasRootLiteral then
                  Some ["Avoid providedIn: 'root' in features: " +++ fp
                        +++ ". Provide via route-level providers."]
                else Some []) files [].

Definition verifyFeatureRouteProviders (h : Host) (featureDir featureName : string)
  : option (list string) :=
  let filePath := Path.join [featureDir; featureName +++ ".routes.ts"] in
  if negb (exists_ h filePath) then Some ["Missing " +++ filePath]
  else
    try! sf <- Fs.parseSource (root h) filePath;
    let exportedArrays := findExportedRoutesArrays sf in
    if Nat.eqb (length exportedArrays) 0 then
      Some [filePath +++ " must export a Routes array: export const ... = [ ... ]"]
    else
      Some (fold_left
              (fun errors ex =>
                 let exportPrefix :=
                   filePath +++ " export " +++ Js.dq +++ fst ex +++ Js.dq in
                 match elementsOf (snd ex) with
                 | first :: _ =>
                     if negb (isObjectLiteralExpression first) then
                       errors ++ [exportPrefix +++ " must start with a route object."]
                     else if negb (routeObjectHasProviders first) then
                       errors
                       ++ [exportPrefix +++ " first route must declare providers: [ ... ]."]
                     else errors
                 | [] => errors ++ [exportPrefix +++ " must start with a route object."]
                 end) exportedArrays []).

Definition appRootNotFound (appRoot : string) : string := "App root not found: " +++ appRoot.
Definition featuresDirNotFound (featuresDir : string) : string :=
  "Features dir not found: " +++ featuresDir.
Definition noFeatureFolders (featuresDir : string) : string :=
  "No feature folders found in " +++ featuresDir
  +++ ". Create at least one feature via pnpm gen:feature.".
Definition missingRequiredFiles (featureDir f : string) (missing : list string) : string :=
  "Feature " +++ Js.dq +++ f +++ Js.dq +++ " missing required files:" +++ Js.nl
  +++ Js.join Js.nl (map (fun m => "  - " +++ Path.join [featureDir; m]) missing).

(** The first [for (const f of featureNames)] of [main]. *)
Definition folderStep (h : Host) (featuresDir : string) (errors : list string) (f : string)
  : list string :=
  let featureDir := Path.join [featuresDir; f] in
  let missing := verifyFeatureFolder h featureDir f in
  if negb (Nat.eqb (length missing) 0) then
    errors ++ [missingRequiredFiles featureDir f missing]
  else errors.

(** [errors] as it stands when the report is made, with the feature
    names that were listed. *)
Definition collect (h : Host) (ctx : WorkspaceContext)
  : option (list string * list string) :=
  let errors := [] in
  let errors :=
    if negb (exists_ h (appRoot ctx)) then errors ++ [appRootNotFound (appRoot ctx)]
    else errors in
  let errors :=
    if negb (exists_ h (featuresDir ctx))
    then errors ++ [featuresDirNotFound (featuresDir ctx)]
    else errors in
  try! featureNames <- listDirs h (featuresDir ctx);
  let errors :=
    if Nat.eqb (length featureNames) 0 then errors ++ [noFeatureFolders (featuresDir ctx)]
    else errors in
  let errors := fold_left (folderStep h (featuresDir ctx)) featureNames errors in
  try! found <- verifyNoStaticPageImportsInAppRoutes h (appRoutesFile ctx);
  let errors := errors ++ found in
  if exists_ h (appRoot ctx) then
    try! listed <- listFilesRecursive h (appRoot ctx);
    let appFiles := filter (fun fp => Js.endsWith fp ".ts") listed in
    try! found <- verifyNoHttpClientInDisallowedFiles h appFiles;
    let errors := errors ++ found in
    try! found <- verifyNoProvidedInRootInFeatures h appFiles (featuresDir ctx);
    let errors := errors ++ found in
    try! errors <-
      pushEach (fun f => verifyFeatureRouteProviders h (Path.join [featuresDir ctx; f]) f)
               featureNames errors;
    Some (errors, featureNames)
  else Some (errors, featureNames).

Definition main (h : Host) (ctx : WorkspaceContext) : option Outcome :=
  try! result <- collect h ctx;
  let (errors, featureNames) := result in
  if negb (Nat.eqb (length errors) 0) then
    Some (mkOutcome 1 []
            (("Structure verification failed (" +++ Js.ofNat (length errors)
              +++ " issue(s)):" +++ Js.nl)
             :: map (fun e => "- " +++ e +++ Js.nl) errors))
  else
    Some (mkOutcome 0
            ["OK: structure verified for appRoot="
             +++ Path.relative (cwd h) (workspaceRoot ctx) (appRoot ctx)
             +++ " (" +++ Js.ofNat (length featureNames) +++ " feature(s))."]
            []).

End Structure.

(* ================================================================= *)
(** ** Cross-Feature Import Checker ([verify-no-cross-feature-imports.mjs]) *)

Module CrossFeature.

(** This script keeps the [.ts] files only. *)
Fixpoint filesUnder (dir : string) (e : Fs.entry) (out : list string) {struct e}
  : list string :=
  match e with
  | Fs.Directory entries =>
      (fix each (entries : list (string * Fs.entry)) (out : list string) {struct entries}
         : list string :=
         match entries with
         | [] => out
         | (name, child) :: rest =>
             let fp := Path.join [dir; name] in
             match child with
             | Fs.Directory _ =>
                 if skippedDirectory name then each rest out
                 else each rest (filesUnder fp child out)
             | Fs.File _ => each rest (if Js.endsWith fp ".ts" then out ++ [fp] else out)
             | Fs.Special => each rest out
             end
         end) entries out
  | _ => out
  end.

Definition listFilesRecursive (h : Host) (dir : string) : option (list string) :=
  match Fs.lookup (root h) dir with
  | Some (Fs.Directory entries) => Some (filesUnder dir (Fs.Directory entries) [])
  | _ => None
  end.

(** The segment after the last segment named [features], if any. *)
Definition featureOfFile (filePath : string) : option string :=
  let parts := Js.split Path.sep filePath in
  match Js.lastIndexOf parts "features" with
  | None => None
  | Some idx => nth_error parts (idx + 1)
  end.

Definition resolveRelative (h : Host) (fromFile spec : string) : option string :=
  if negb (Js.startsWith spec ".") then None
  else Some (Path.resolve (cwd h) [Path.dirname fromFile; spec]).

(** A value that JavaScript takes for false: [null] or the empty string. *)
Definition falsy (o : option string) : bool :=
  match o with
  | None => true
  | Some s => String.eqb s ""
  end.

Definition crossFeatureMessage (h : Host) (ctx : WorkspaceContext)
           (fp fromFeature spec toFeature : string) : string :=
  "Cross-feature import is not allowed:" +++ Js.nl
  +++ "  from: " +++ Path.relative (cwd h) (workspaceRoot ctx) fp
  +++ " (feature=" +++ fromFeature +++ ")" +++ Js.nl
  +++ "  import: " +++ spec +++ Js.nl
  +++ "  to-feature: " +++ toFeature.

(** One turn of [for (const spec of imports)]: the violation pushed
    for the import [spec] of the file [fp], if any. *)
Definition importViolation (h : Host) (ctx : WorkspaceContext)
           (fp fromFeature spec : string) : option string :=
  match resolveRelative h fp spec with
  | None => None
  | Some resolved =>
      if negb (Js.includes resolved (Path.join ["features"] +++ Path.sepString)) then None
      else
        match featureOfFile resolved with
        | Some toFeature =>
            if negb (String.eqb toFeature "") && negb (String.eqb toFeature fromFeature)
            then Some (crossFeatureMessage h ctx fp fromFeature spec toFeature)
            else None
        | None => None
        end
  end.

(** One turn of [for (const fp of featureFiles)]. *)
Definition fileViolations (h : Host) (ctx : WorkspaceContext) (fp : string)
  : option (list string) :=
  let fromFeature := featureOfFile fp in
  if falsy fromFeature then Some []
  else
    match fromFeature with
    | Some fromFeature =>
        try! sf <- Fs.parseSource (root h) fp;
        let imports := getImports sf in
        Some (flat_map (fun spec =>
                          match importViolation h ctx fp fromFeature spec with
                          | Some e => [e]
                          | None => []
                          end) imports)
    | None => Some []
    end.

Definition main (h : Host) (ctx : WorkspaceContext) : option Outcome :=
  if negb (Fs.existsSync (root h) (featuresDir ctx)) then
    Some (mkOutcome 0
            ["OK: no features directory found at "
             +++ Path.relative (cwd h) (workspaceRoot ctx) (featuresDir ctx)
             +++ " (nothing to check)."]
            [])
  else
    try! featureFiles <- listFilesRecursive h (featuresDir ctx);
    try! errors <- pushEach (fileViolations h ctx) featureFiles [];
    if negb (Nat.eqb (length errors) 0) then
      Some (mkOutcome 1 []
              (("Cross-feature import verification failed (" +++ Js.ofNat (length errors)
                +++ " issue(s)):" +++ Js.nl)
               :: map (fun e => "- " +++ e +++ Js.nl) errors))
    else
      Some (mkOutcome 0
              ["OK: no cross-feature relative imports detected in "
               +++ Path.relative (cwd h) (workspaceRoot ctx) (featuresDir ctx) +++ "."]
              []).

End CrossFeature.

(* ================================================================= *)
(** ** Sample sources and workspaces *)

Module Samples.

(** [() => body] *)
Definition arrow (body : node) : node := OtherNode [body].
(** [import('text')] *)
Definition importCall (text : string) : node :=
  CallExpression ImportKeyword [] [StringLiteral text].
(** [() => import('text').then((m) => m.member)] *)
Definition lazy (text member : string) : node :=
  arrow (CallExpression
           (OtherNode [importCall text; Identifier "then"]) []
           [OtherNode [OtherNode [Identifier "m"];
                       OtherNode [Identifier "m"; Identifier member]]]).
(** [name: init] *)
Definition prop (name : string) (init : node) : node :=
  PropertyAssignment (Identifier name) init.
(** [fn()] *)
Definition call (fn : string) : node := CallExpression (Identifier fn) [] [].
(** [export const name: Routes = [ ... ]] *)
Definition exportRoutes (name : string) (elements : list node) : node :=
  VariableStatement [ExportKeyword]
    [VariableDeclaration (Identifier name) (Some (OtherNode [Identifier "Routes"]))
       (Some (ArrayLiteralExpression elements))].
(** [import type { Routes } from '@angular/router'] *)
Definition importRoutes : node :=
  ImportDeclaration (Some (OtherNode [Identifier "Routes"])) (StringLiteral "@angular/router").

(** The routes of [src/app/app.routes.ts]. *)
Definition redirectRoute : node :=
  ObjectLiteralExpression
    [prop "path" (StringLiteral "");
     prop "redirectTo" (StringLiteral "/home");
     prop "pathMatch" (StringLiteral "full")].
Definition homeRoute : node :=
  ObjectLiteralExpression
    [prop "path" (StringLiteral "home");
     prop "loadChildren" (lazy "./features/home/home.routes" "HOME_ROUTES")].
Definition wildcardRoute : node :=
  ObjectLiteralExpression
    [prop "path" (StringLiteral "**");
     prop "loadComponent" (lazy "./shared/pages/not-found.page" "NotFoundPage")].
Definition appRoutesArray : node :=
  ArrayLiteralExpression [redirectRoute; homeRoute; wildcardRoute].
Definition appRoutesSource : node :=
  SourceFile [importRoutes; exportRoutes "routes" (elementsOf appRoutesArray)].

(** Route tables without a wildcard entry and with two of them. *)
Definition noWildcardArray : node := ArrayLiteralExpression [redirectRoute; homeRoute].
Definition twoWildcardsArray : node :=
  ArrayLiteralExpression [redirectRoute; wildcardRoute; homeRoute; wildcardRoute].

(** [{ path: 'admin', loadChildren: () => import('./features/a/b.routes') }] *)
Definition mismatchedStemRoute : node :=
  ObjectLiteralExpression
    [prop "path" (StringLiteral "admin");
     prop "loadChildren" (arrow (importCall "./features/a/b.routes"))].

(** [{ path: '', redirectTo: '/home', pathMatch: 'full', loadChildren: ... }] *)
Definition redirectWithLoader : node :=
  ObjectLiteralExpression
    [prop "path" (StringLiteral "");
     prop "redirectTo" (StringLiteral "/home");
     prop "pathMatch" (StringLiteral "full");
     prop "loadChildren" (lazy "./features/home/home.routes" "HOME_ROUTES")].

(** [{ path: '', redirectTo: '/home', pathMatch: 'full', component: HomePage }] *)
Definition redirectWithComponent : node :=
  ObjectLiteralExpression
    [prop "path" (StringLiteral "");
     prop "redirectTo" (StringLiteral "/home");
     prop "pathMatch" (StringLiteral "full");
     prop "component" (Identifier "HomePage")].

(** The first route of [src/app/features/home/home.routes.ts]. *)
Definition homeFirstRoute : node :=
  ObjectLiteralExpression
    [prop "path" (StringLiteral "");
     prop "providers" (ArrayLiteralExpression [call "provideHomeData"; call "provideHomeState"]);
     prop "loadComponent" (lazy "./home.page" "HomePage");
     prop "data" (ObjectLiteralExpression [prop "title" (StringLiteral "Home")])].
Definition homeRoutesSource : node :=
  SourceFile [importRoutes; exportRoutes "HOME_ROUTES" [homeFirstRoute]].

(** The same route with [providers: []]. *)
Definition emptyProvidersRoute : node :=
  ObjectLiteralExpression
    [prop "path" (StringLiteral "");
     prop "providers" (ArrayLiteralExpression []);
     prop "loadComponent" (lazy "./home.page" "HomePage")].
Definition emptyProvidersSource : node :=
  SourceFile [importRoutes; exportRoutes "HOME_ROUTES" [emptyProvidersRoute]].

(** A child route, below the first route, whose loader imports a file
    that is not a page. *)
Definition widgetChild : node :=
  ObjectLiteralExpression
    [prop "path" (StringLiteral "widget");
     prop "loadComponent" (lazy "./home.widget" "HomeWidget")].
Definition nestedFirstRoute : node :=
  ObjectLiteralExpression
    [prop "path" (StringLiteral "");
     prop "providers" (ArrayLiteralExpression [call "provideHomeData"]);
     prop "loadComponent" (lazy "./home.page" "HomePage");
     prop "children" (ArrayLiteralExpression [widgetChild])].
Definition nestedRoutesSource : node :=
  SourceFile [importRoutes; exportRoutes "HOME_ROUTES" [nestedFirstRoute]].

(** A second route that binds a component directly, and a first route
    with a non-empty path. *)
Definition componentRoute : node :=
  ObjectLiteralExpression
    [prop "path" (StringLiteral "detail");
     prop "component" (Identifier "DetailPage")].
Definition componentRoutesSource : node :=
  SourceFile [importRoutes; exportRoutes "HOME_ROUTES" [homeFirstRoute; componentRoute]].
Definition namedFirstRoute : node :=
  ObjectLiteralExpression
    [prop "path" (StringLiteral "home");
     prop "providers" (ArrayLiteralExpression [call "provideHomeData"]);
     prop "loadComponent" (lazy "./home.page" "HomePage")].
Definition namedFirstSource : node :=
  SourceFile [importRoutes; exportRoutes "HOME_ROUTES" [namedFirstRoute]].
Definition noProvidersRoute : node :=
  ObjectLiteralExpression
    [prop "path" (StringLiteral "");
     prop "loadComponent" (lazy "./home.page" "HomePage")].
Definition noProvidersSource : node :=
  SourceFile [importRoutes; exportRoutes "HOME_ROUTES" [noProvidersRoute]].

(** Workspaces rooted at [/ws]. *)
Definition ctx : WorkspaceContext :=
  mkContext "/ws" "/ws/src/app" "/ws/src/app/features" "/ws/src/app/app.routes.ts".

Definition plainSource : node := SourceFile [].

Definition workspace (app : list (string * Fs.entry)) : Host :=
  mkHost (Fs.Directory
            [("ws", Fs.Directory
                      [("angular.json", Fs.Special);
                       ("src", Fs.Directory [("app", Fs.Directory app)])])])
         "/ws".

(** The application as shipped: one feature, [home]. *)
Definition homeFeature : Fs.entry :=
  Fs.Directory
    [("home.routes.ts", Fs.File homeRoutesSource);
     ("home.page.ts", Fs.File plainSource);
     ("home.data.ts", Fs.File plainSource);
     ("home.state.ts", Fs.File plainSource);
     ("home.models.ts", Fs.File plainSource)].
Definition shipped : Host :=
  workspace [("app.routes.ts", Fs.File appRoutesSource);
             ("features", Fs.Directory [("home", homeFeature)])].

(** No features directory at all. *)
Definition withoutFeatures : Host :=
  workspace [("app.routes.ts", Fs.File appRoutesSource)].

(** A feature folder that lacks both its page and its data file. *)
Definition twoMissing : Host :=
  workspace [("app.routes.ts", Fs.File appRoutesSource);
             ("features",
              Fs.Directory
                [("home",
                  Fs.Directory
                    [("home.routes.ts", Fs.File homeRoutesSource);
                     ("home.state.ts", Fs.File plainSource)])])].

(** The [home] feature with an empty [providers] array. *)
Definition emptyProviders : Host :=
  workspace [("app.routes.ts", Fs.File appRoutesSource);
             ("features",
              Fs.Directory
                [("home",
                  Fs.Directory
                    [("home.routes.ts", Fs.File emptyProvidersSource);
                     ("home.page.ts", Fs.File plainSource);
                     ("home.data.ts", Fs.File plainSource);
                     ("home.state.ts", Fs.File plainSource)])])].

Definition homeRoutesFile : string := "/ws/src/app/features/home/home.routes.ts".

(** The exported arrays of the sample sources, as the checker finds
    them. *)
Definition homeExport : string * node :=
  ("HOME_ROUTES", ArrayLiteralExpression [homeFirstRoute]).
Definition homeLoader : node := lazy "./home.page" "HomePage".
Definition componentExport : string * node :=
  ("HOME_ROUTES", ArrayLiteralExpression [homeFirstRoute; componentRoute]).
Definition namedFirstExport : string * node :=
  ("HOME_ROUTES", ArrayLiteralExpression [namedFirstRoute]).
Definition noProvidersExport : string * node :=
  ("HOME_ROUTES", ArrayLiteralExpression [noProvidersRoute]).
(** A second route whose loader imports a file that is not a page. *)
Definition widgetLoader : node := lazy "./home.widget" "HomeWidget".
Definition widgetRoutesSource : node :=
  SourceFile [importRoutes; exportRoutes "HOME_ROUTES" [homeFirstRoute; widgetChild]].
Definition widgetExport : string * node :=
  ("HOME_ROUTES", ArrayLiteralExpression [homeFirstRoute; widgetChild]).

(** A file of feature [a], and an import of it that leads into a
    [features] folder kept under [shared]. *)
Definition pageOfA : string := "/ws/src/app/features/a/a.page.ts".
Definition sharedFeaturesImport : string := "../../shared/features/util".

End Samples.

(* ================================================================= *)
(** ** Vocabulary of the properties *)

(** The subtree of [init] holds an import call whose string argument is
    accepted by [accept]. *)
Definition importsMatching (accept : string -> bool) (init : node) : Prop :=
  exists d text, within d init /\ importArgument d = Some text /\ accept text = true.

(** [./features/<x>/<x>.routes] *)
Definition featureRoutesPath (x : string) : string :=
  "./features/" +++ x +++ "/" +++ x +++ ".routes".

(** The first element of the array has a [path] property bound to the
    literal ['']. *)
Definition firstPathIsEmpty (arrayNode : node) : Prop :=
  exists first rest,
    elementsOf arrayNode = first :: rest /\
    getPropInitializer first "path" = Some (StringLiteral "").

(** The feature folder [f] lacks one of its required files, and the
    violation reported for it. *)
Definition lacksRequiredFile (h : Host) (ctx : WorkspaceContext) (f : string) : bool :=
  negb (Nat.eqb
          (length (Structure.verifyFeatureFolder h (Path.join [featuresDir ctx; f]) f)) 0).
Definition missingFilesViolation (h : Host) (ctx : WorkspaceContext) (f : string) : string :=
  Structure.missingRequiredFiles (Path.join [featuresDir ctx; f]) f
    (Structure.verifyFeatureFolder h (Path.join [featuresDir ctx; f]) f).

(** Nothing the Structure Checker reads makes a read throw: the route
    file and the route file of each listed feature, if there, are files;
    the features directory and the app root, if there, are directories;
    the sources listed under the app root can be read. *)
Definition sourcesReadable (h : Host) (ctx : WorkspaceContext) : Prop :=
  (Fs.existsSync (root h) (appRoutesFile ctx) = true ->
   Fs.parseSource (root h) (appRoutesFile ctx) <> None) /\
  (Fs.existsSync (root h) (featuresDir ctx) = true ->
   Fs.readdirSync (root h) (featuresDir ctx) <> None) /\
  (forall names f,
      Structure.listDirs h (featuresDir ctx) = Some names -> In f names ->
      Fs.existsSync (root h) (Path.join [Path.join [featuresDir ctx; f]; f +++ ".routes.ts"])
      = true ->
      Fs.parseSource (root h) (Path.join [Path.join [featuresDir ctx; f]; f +++ ".routes.ts"])
      <> None) /\
  (Fs.existsSync (root h) (appRoot ctx) = true ->
   exists listed,
     Structure.listFilesRecursive h (appRoot ctx) = Some listed /\
     forall fp, In fp listed -> Fs.parseSource (root h) fp <> None).

(** The absolute path a relative import of the file [fp] resolves to,
    and whether a path lies under the features root. *)
Definition resolvedImport (h : Host) (fp spec : string) : string :=
  Path.resolve (cwd h) [Path.dirname fp; spec].
Definition underFeaturesRoot (ctx : WorkspaceContext) (p : string) : bool :=
  Js.startsWith p (featuresDir ctx +++ Path.sepString).

(** A file name: not empty, not [.] or [..], and without separator. *)
Fixpoint noSeparator (s : string) : bool :=
  match s with
  | EmptyString => true
  | String c s' => negb (Ascii.eqb c Path.sep) && noSeparator s'
  end.
Definition simpleName (s : string) : bool :=
  noSeparator s && negb (String.eqb s "") && negb (String.eqb s ".")
  && negb (String.eqb s "..").

(** The absolute path made of the given segments. *)
Definition pathOf (segs : list string) : string :=
  Path.sepString +++ Js.join Path.sepString segs.

(** In a well-formed tree every directory holds simple names, each
    once. *)
Fixpoint wellFormed (e : Fs.entry) : Prop :=
  match e with
  | Fs.Directory entries =>
      NoDup (map fst entries) /\
      (fix all (es : list (string * Fs.entry)) : Prop :=
         match es with
         | [] => True
         | (n, c) :: rest => simpleName n = true /\ wellFormed c /\ all rest
         end) entries
  | _ => True
  end.

(** What a path leads to is a file, or a directory, unless nothing is
    there. *)
Definition fileIfThere (h : Host) (p : string) : Prop :=
  match Fs.lookup (root h) p with
  | Some (Fs.File _) | None => True
  | Some _ => False
  end.
Definition directoryIfThere (h : Host) (p : string) : Prop :=
  match Fs.lookup (root h) p with
  | Some (Fs.Directory _) | None => True
  | Some _ => False
  end.

(** A redirect that carries no loader. *)
Definition pureRedirect (el : node) : Prop :=
  objectHasProp el "redirectTo" = true /\ objectHasProp el "pathMatch" = true /\
  objectHasProp el "loadComponent" = false /\ objectHasProp el "loadChildren" = false.

(** [d] is reached from [n] by a visitor that goes on to the children
    of the nodes satisfying [descend] only. *)
Inductive visited (descend : node -> bool) (d : node) : node -> Prop :=
| visited_here : visited descend d d
| visited_child : forall n c,
    descend n = true -> In c (forEachChild n) -> visited descend d c ->
    visited descend d n.

(** The searches for exported arrays do not enter a variable statement
    that is not exported. *)
Definition entersStatement (nd : node) : bool :=
  match nd with
  | VariableStatement mods _ => isExported mods
  | _ => true
  end.

(** What the App-Route Composition Checker asks of one element of the
    route array: an object literal without [component], with a literal
    [path], and with what the kind of path calls for. *)
Definition notFoundPage : string := "./shared/pages/not-found.page".
Definition entryPasses (el : node) : Prop :=
  objectHasProp el "component" = false /\
  exists p,
    AppRoutes.pathValueOf el = Some p /\
    (p = "" ->
     objectHasProp el "redirectTo" = true /\ objectHasProp el "pathMatch" = true) /\
    (p = "**" ->
     exists lc, getPropInitializer el "loadComponent" = Some lc /\
                importsMatching (fun text => String.eqb text notFoundPage) lc) /\
    (p <> "" -> p <> "**" ->
     exists lch, getPropInitializer el "loadChildren" = Some lch /\
                 importsMatching AppRoutes.featuresImport lch).

(** What the Feature-Route Provider Checker asks of the element at
    index [idx] of an exported array. *)
Definition routePasses (idx : nat) (el : node) : Prop :=
  isObjectLiteralExpression el = true /\
  objectHasProp el "component" = false /\
  (forall lc, getPropInitializer el "loadComponent" = Some lc ->
              importsMatching (fun text => Js.endsWith text ".page") lc) /\
  (idx = 0 ->
   getPropInitializer el "path" = Some (StringLiteral "") /\
   objectHasProp el "providers" = true /\
   (objectHasProp el "loadComponent" = true \/ objectHasProp el "loadChildren" = true)).

(** The routes file of the feature [f], as the Feature-Route Provider
    Checker names it. *)
Definition routesFileOf (ctx : WorkspaceContext) (f : string) : string :=
  Path.join [featuresDir ctx; f; f +++ ".routes.ts"].


(** A file kept in the folder of the feature [a], [dirs] being the
    folders between the feature folder and the file; and the relative
    specifiers that stay in the folder of the importing file or climb
    [n] folders first. *)
Definition featureFile (pre : list string) (a : string) (dirs : list string)
           (file : string) : string :=
  pathOf (pre ++ "features" :: a :: dirs ++ [file]).
Definition specifierHere (names : list string) : string :=
  Js.join Path.sepString ("." :: names).
Definition specifierUp (n : nat) (names : list string) : string :=
  Js.join Path.sepString (repeat ".." n ++ names).

(* ================================================================= *)
(** ** Workspace Resolver ([_workspace.mjs]) *)

Module Workspace.

(** How a call ends: with a value, in [die], which writes its message
    to the error stream and exits with status 1, or in an exception
    that nothing catches. *)
Inductive Run (A : Type) : Type :=
| Done (a : A)
| Died (msg : string)
| Thrown.
Arguments Died {A} msg.
Arguments Thrown {A}.

Definition bind (A B : Type) (r : Run A) (k : A -> Run B) : Run B :=
  match r with
  | Done a => k a
  | Died msg => Died msg
  | Thrown => Thrown
  end.

(** [angular.json] once parsed, with the shape the scripts read: an
    optional [defaultProject] string and the members of the [projects]
    object, in the order of [Object.entries], each with an optional
    [projectType] and [sourceRoot] string. *)
Record Project : Type := mkProject {
  projectType : option string;
  sourceRoot : option string
}.
Record AngularJson : Type := mkAngularJson {
  defaultProject : option string;
  projects : list (string * Project)
}.

(** What [JSON.parse(fs.readFileSync(p, 'utf8'))] makes of a file; the
    JSON reader is outside the toolchain. *)
Inductive Parsed : Type :=
| Manifest (json : AngularJson)
| Malformed (message : string)
| Unreadable.

(** [projects[name]], for an own member.  JavaScript also finds the
    members every object inherits, such as [constructor]; they have no
    [projectType], and [getProject] is only called with a name that
    [getDefaultAppProjectName] returned, which is an own member. *)
Fixpoint member (name : string) (projects : list (string * Project)) : option Project :=
  match projects with
  | [] => None
  | (n, p) :: rest => if String.eqb n name then Some p else member name rest
  end.

Definition fileExists (h : Host) (p : string) : bool := Fs.existsSync (root h) p.

(** The loop of [findWorkspaceRoot]: [fuel] bounds its turns, and the
    result is [None] when they are used up; [Some None] stands for
    [break]. *)
Fixpoint walkUp (fuel : nat) (h : Host) (dir : string) : option (option string) :=
  match fuel with
  | 0 => None
  | S fuel' =>
      let angularJson := Path.join [dir; "angular.json"] in
      if fileExists h angularJson then Some (Some dir)
      else
        let parent := Path.dirname dir in
        if String.eqb parent dir then Some None
        else walkUp fuel' h parent
  end.

Definition findWorkspaceRoot (fuel : nat) (h : Host) (startDir : string)
  : option (Run string) :=
  let dir := Path.resolve (cwd h) [startDir] in
  match walkUp fuel h dir with
  | None => None
  | Some (Some found) => Some (Done found)
  | Some None =>
      Some (Died ("Unable to locate angular.json by walking up from: " +++ startDir))
  end.

Definition readAngularJson (h : Host) (readJson : string -> Parsed) (workspaceRoot : string)
  : Run AngularJson :=
  let p := Path.join [workspaceRoot; "angular.json"] in
  if negb (fileExists h p) then Died ("Missing angular.json at: " +++ p)
  else
    match readJson p with
    | Manifest json => Done json
    | Malformed message => Died ("Invalid JSON in angular.json: " +++ message)
    | Unreadable => Thrown
    end.

Definition isApplicationProject (project : Project) : bool :=
  Js.isString (projectType project) "application".

Definition getDefaultAppProjectName (angularJson : AngularJson) : Run string :=
  let firstApplication :=
    match find (fun np => isApplicationProject (snd np)) (projects angularJson) with
    | Some (name, _) => Done name
    | None => Died "No application project found in angular.json"
    end in
  match defaultProject angularJson with
  | Some d =>
      if negb (String.eqb d "")
         && match member d (projects angularJson) with
            | Some p => isApplicationProject p
            | None => false
            end
      then Done d
      else firstApplication
  | None => firstApplication
  end.

Definition getProject (angularJson : AngularJson) (projectName : string) : Run Project :=
  match member projectName (projects angularJson) with
  | Some p => Done p
  | None => Died ("Project " +++ Js.dq +++ projectName +++ Js.dq +++ " not found in angular.json")
  end.

(** [getWorkspaceContext()], as every script calls it: from the working
    directory, with the default application project. *)
Definition getWorkspaceContext (fuel : nat) (h : Host) (readJson : string -> Parsed)
  : option (Run WorkspaceContext) :=
  match findWorkspaceRoot fuel h (cwd h) with
  | None => None
  | Some found =>
      Some (bind found (fun workspaceRoot =>
            bind (readAngularJson h readJson workspaceRoot) (fun angularJson =>
            bind (getDefaultAppProjectName angularJson) (fun appProjectName =>
            bind (getProject angularJson appProjectName) (fun appProject =>
              let sourceRootRel :=
                match sourceRoot appProject with
                | Some s => s
                | None => "src"
                end in
              let sourceRoot := Path.join [workspaceRoot; sourceRootRel] in
              let appRoot := Path.join [sourceRoot; "app"] in
              let featuresDir := Path.join [appRoot; "features"] in
              let appRoutesFile := Path.join [appRoot; "app.routes.ts"] in
              Done (mkContext workspaceRoot appRoot featuresDir appRoutesFile))))))
  end.

End Workspace.

(** A directory that holds [angular.json], and a project name that an
    application bears. *)
Definition manifestIn (h : Host) (dir : list string) : bool :=
  Fs.existsSync (root h) (pathOf (dir ++ ["angular.json"])).
Definition applicationNamed (json : Workspace.AngularJson) (name : string) : Prop :=
  exists p, Workspace.member name (Workspace.projects json) = Some p /\
            Workspace.projectType p = Some "application".

(** A manifest with a library and one application that names no
    source root, and a host without any manifest. *)
Module ManifestSamples.
Definition manifest : Workspace.AngularJson :=
  Workspace.mkAngularJson None
    [("ui", Workspace.mkProject (Some "library") (Some "projects/ui/src"));
     ("shop", Workspace.mkProject (Some "application") None)].
Definition readManifest (p : string) : Workspace.Parsed := Workspace.Manifest manifest.
Definition bare : Host := mkHost (Fs.Directory [("ws", Fs.Directory [])]) "/ws".
End ManifestSamples.

(* ================================================================= *)
(** ** Route registration of the feature generator ([generate-feature.mjs]) *)

Module Generator.

(** [s.indexOf(p)] and [s.lastIndexOf(p)], [None] standing for [-1].
    Texts are byte strings here as well: a well-formed text holds
    another one among its bytes exactly where it holds it among its code
    units, and the slices below are cut where a search stopped. *)
Fixpoint indexOf (s p : string) : option nat :=
  if String.prefix p s then Some 0
  else
    match s with
    | EmptyString => None
    | String _ s' => option_map S (indexOf s' p)
    end.
Fixpoint lastIndexOf (s p : string) : option nat :=
  match s with
  | EmptyString => if String.prefix p s then Some 0 else None
  | String _ s' =>
      match lastIndexOf s' p with
      | Some i => Some (S i)
      | None => if String.prefix p s then Some 0 else None
      end
  end.

(** [s.slice(0, n)] and [s.slice(n)], for [n] within the string. *)
Definition sliceTo (s : string) (n : nat) : string := String.substring 0 n s.
Definition sliceFrom (s : string) (n : nat) : string :=
  String.substring n (String.length s - n) s.

(** The file the generator edits: absent, a text, or something that
    cannot be read as one. *)
Inductive Target : Type :=
| Absent
| Text (src : string)
| NotText.

(** How [addRouteToAppRoutes] ends: having logged that the route is
    there, having written the file, in [die], or in an uncaught
    exception. *)
Inductive Registered : Type :=
| Skipped (log : string)
| Wrote (content : string)
| Died (msg : string)
| Thrown.

Definition needle (routePath : string) : string := "path: '" +++ routePath +++ "'".

Definition insertion (routePath featureKebab featureConst : string) : string :=
  "  {" +++ Js.nl
  +++ "    path: '" +++ routePath +++ "'," +++ Js.nl
  +++ "    loadChildren: () =>" +++ Js.nl
  +++ "      import('./features/" +++ featureKebab +++ "/" +++ featureKebab
  +++ ".routes').then((m) => m." +++ featureConst +++ "_ROUTES)," +++ Js.nl
  +++ "  }," +++ Js.nl.

Definition addRouteToAppRoutes (appRoutesFile : string) (target : Target)
           (routePath featureKebab featureConst : string) : Registered :=
  match target with
  | Absent => Died ("Cannot find app.routes.ts at " +++ appRoutesFile)
  | NotText => Thrown
  | Text src =>
      if Js.includes src (needle routePath) then
        Skipped ("app.routes.ts already contains route " +++ Js.dq +++ routePath +++ Js.dq
                 +++ ". Skipping insertion.")
      else
        let insertion := insertion routePath featureKebab featureConst in
        match indexOf src "path: '**'" with
        | Some wildcardIndex =>
            let before := sliceTo src wildcardIndex in
            let after := sliceFrom src wildcardIndex in
            match lastIndexOf before "  {" with
            | None => Wrote (before +++ insertion +++ after)
            | Some insertPos =>
                Wrote (sliceTo before insertPos +++ insertion
                       +++ sliceFrom before insertPos +++ after)
            end
        | None =>
            match lastIndexOf src "];" with
            | None => Died "Could not locate end of APP_ROUTES array in app.routes.ts"
            | Some closing =>
                Wrote (sliceTo src closing +++ insertion +++ sliceFrom src closing)
            end
        end
  end.

End Generator.

(** A route file as a text, with the wildcard entry last, and what
    registering the route [settings] makes of it. *)
Module TextSamples.
Definition routesText : string :=
  "export const routes: Routes = [" +++ Js.nl
  +++ "  { path: '', redirectTo: 'home', pathMatch: 'full' }," +++ Js.nl
  +++ "  {" +++ Js.nl
  +++ "    path: '**'," +++ Js.nl
  +++ "    loadComponent: () => import('./shared/pages/not-found.page')," +++ Js.nl
  +++ "  }," +++ Js.nl
  +++ "];" +++ Js.nl.
Definition registeredText : string :=
  "export const routes: Routes = [" +++ Js.nl
  +++ "  { path: '', redirectTo: 'home', pathMatch: 'full' }," +++ Js.nl
  +++ Generator.insertion "settings" "settings" "SETTINGS"
  +++ "  {" +++ Js.nl
  +++ "    path: '**'," +++ Js.nl
  +++ "    loadComponent: () => import('./shared/pages/not-found.page')," +++ Js.nl
  +++ "  }," +++ Js.nl
  +++ "];" +++ Js.nl.
End TextSamples.

(** A feature whose page injects [HttpClient] and whose service is
    provided in [root]. *)
Module RuleSamples.
End RuleSamples.

(* ================================================================= *)
(** * Properties *)

(** ** Traversal of the syntax tree *)

Section ChildInduction.
Variable P : node -> Prop.
Hypothesis step : forall n, Forall P (forEachChild n) -> P n.

(** Induction on a node from all the nodes [ts.forEachChild] visits. *)
Fixpoint node_child_ind (n : node) : P n :=
  let all :=
    fix all (l : list node) : Forall P l :=
      match l with
      | [] => Forall_nil P
      | c :: r => Forall_cons c (node_child_ind c) (all r)
      end in
  let allo (o : option node) : Forall P (optNode o) :=
    match o with
    | Some c => Forall_cons c (node_child_ind c) (Forall_nil P)
    | None => Forall_nil P
    end in
  let app l1 l2 (H1 : Forall P l1) (H2 : Forall P l2) : Forall P (l1 ++ l2) :=
    proj2 (Forall_app P l1 l2) (conj H1 H2) in
  step n
    match n return Forall P (forEachChild n) with
    | Identifier _ | StringLiteral _ | ImportKeyword => Forall_nil P
    | CallExpression e ta args =>
        Forall_cons e (node_child_ind e) (app _ _ (all ta) (all args))
    | ArrayLiteralExpression els => all els
    | ObjectLiteralExpression props => all props
    | PropertyAssignment nm init =>
        Forall_cons nm (node_child_ind nm)
          (Forall_cons init (node_child_ind init) (Forall_nil P))
    | VariableDeclaration nm ty init =>
        Forall_cons nm (node_child_ind nm) (app _ _ (allo ty) (allo init))
    | VariableStatement _ decls => all decls
    | ImportDeclaration clause spec =>
        app _ _ (allo clause) (Forall_cons spec (node_child_ind spec) (Forall_nil P))
    | SourceFile stmts => all stmts
    | OtherNode ch => all ch
    end.
End ChildInduction.

Section Walk.
Variable S : Type.
Variable f : node -> S -> S * bool.

Definition walkChildren (l : list node) (s : S) : S :=
  fold_left (fun s c => walk f c s) l s.

(** The visitor runs its own part, then visits the children in order. *)
Lemma walk_eq (n : node) (s : S) :
  walk f n s =
  (let (s1, descend) := f n s in if descend then walkChildren (forEachChild n) s1 else s1).
Proof.
  assert (W : forall l s0,
             (fix walks (l : list node) (s : S) {struct l} : S :=
                match l with
                | [] => s
                | c :: r => walks r (walk f c s)
                end) l s0 = walkChildren l s0).
  { induction l as [|c r IH]; intro s0; [reflexivity|]. simpl. apply IH. }
  unfold walkChildren in *.
  destruct n; simpl; destruct (f _ s) as [s1 [|]]; try reflexivity;
    rewrite ?fold_left_app, ?W; simpl; try reflexivity.
  - destruct type as [t|], initializer as [i|]; reflexivity.
  - destruct importClause as [c|]; reflexivity.
Qed.

Lemma walkChildren_cons c l s :
  walkChildren (c :: l) s = walkChildren l (walk f c s).
Proof. reflexivity. Qed.
End Walk.

Lemma within_trans d c n : within d c -> within c n -> within d n.
Proof.
  intros Hd Hc. induction Hc as [|n c' Hin _ IH]; [assumption|].
  eapply within_child; eauto.
Qed.

(** A visitor around a flag that is raised at the nodes satisfying [hit]
    and never lowered: the ones searching for an import call go on after
    a hit, the ones searching the whole file stop. *)
Section FlagVisitor.
Variable f : node -> bool -> bool * bool.
Variable hit : node -> bool.
Hypothesis raised : forall n, fst (f n true) = true.
Hypothesis fresh : forall n, fst (f n false) = hit n.
Hypothesis descends : forall n, hit n = false -> snd (f n false) = true.

Lemma flag_stays (n : node) : walk f n true = true.
Proof.
  induction n as [n IH] using node_child_ind.
  rewrite walk_eq. specialize (raised n).
  destruct (f n true) as [s1 d]; simpl in raised; subst s1.
  destruct d; [|reflexivity].
  unfold walkChildren. induction IH as [|c r Hc _ IHr]; simpl; [reflexivity|].
  rewrite Hc. exact IHr.
Qed.

Lemma flag_children_stay (l : list node) : walkChildren f l true = true.
Proof.
  induction l as [|c r IH]; [reflexivity|].
  rewrite walkChildren_cons, flag_stays. exact IH.
Qed.

(** The flag ends up raised exactly when some node of the subtree
    satisfies [hit]. *)
Lemma flag_found (n : node) :
  walk f n false = true <-> exists d, within d n /\ hit d = true.
Proof.
  induction n as [n IH] using node_child_ind.
  rewrite walk_eq. pose proof (fresh n) as Hf. pose proof (@descends n) as Hd.
  destruct (f n false) as [s1 d]; simpl in Hf, Hd; subst s1.
  destruct (hit n) eqn:Hn.
  - split; [intros _; exists n; split; [constructor | assumption]|].
    intros _. destruct d; [apply flag_children_stay | reflexivity].
  - rewrite (Hd eq_refl).
    assert (G : walkChildren f (forEachChild n) false = true <->
                exists c d, In c (forEachChild n) /\ within d c /\ hit d = true).
    { induction IH as [|c r Hc _ IHr].
      - simpl. split; [discriminate | intros (c & d0 & [] & _)].
      - rewrite walkChildren_cons. destruct (walk f c false) eqn:Wc.
        + rewrite flag_children_stay. split; [intros _ | reflexivity].
          destruct (proj1 Hc eq_refl) as (d0 & Hw & Hh).
          exists c, d0. simpl; auto.
        + rewrite IHr. split.
          * intros (c' & d0 & Hin & Hw & Hh). exists c', d0. simpl; auto.
          * intros (c' & d0 & [->|Hin] & Hw & Hh).
            -- assert (false = true) by (apply Hc; eauto). discriminate.
            -- eauto. }
    rewrite G. split.
    + intros (c & d0 & Hin & Hw & Hh). exists d0. split; [|assumption].
      eapply within_child; eassumption.
    + intros (d0 & Hw & Hh). inversion Hw; subst.
      * congruence.
      * eauto.
Qed.
End FlagVisitor.

(** ** Strings *)

Lemma append_inv_head (s a b : string) : s +++ a = s +++ b -> a = b.
Proof.
  induction s as [|c s IH]; simpl; intro H; [assumption|].
  injection H as H. auto.
Qed.

Lemma length_append (a b : string) :
  String.length (a +++ b) = String.length a + String.length b.
Proof. induction a as [|c a IH]; simpl; [reflexivity | now rewrite IH]. Qed.

Lemma append_inv_tail (s a b : string) : a +++ s = b +++ s -> a = b.
Proof.
  revert b. induction a as [|c a IH]; intros [|d b] H; simpl in H.
  - reflexivity.
  - apply (f_equal String.length) in H. simpl in H. rewrite length_append in H. lia.
  - apply (f_equal String.length) in H. simpl in H. rewrite length_append in H. lia.
  - injection H as -> H. f_equal. auto.
Qed.

Lemma ofNat_inj (n m : nat) : Js.ofNat n = Js.ofNat m -> n = m.
Proof.
  unfold Js.ofNat. intro H.
  apply DecimalNat.Unsigned.to_uint_inj.
  assert (E : Some (Nat.to_uint n) = Some (Nat.to_uint m))
    by now rewrite <- !NilEmpty.usu, H.
  now injection E.
Qed.

(** ** App-Route Composition Checker *)

Section AppRoutesFacts.
Import AppRoutes.

(** Each element adds its own violations and counts for one when it
    is a wildcard entry, whatever was collected before. *)
Lemma routeStep_app (errors : list string) (n : nat) (el : node) :
  routeStep (errors, n) el =
  (errors ++ entryViolations el, n + (if isWildcardEntry el then 1 else 0)).
Proof.
  unfold entryViolations, isWildcardEntry, routeStep.
  destruct (isObjectLiteralExpression el); simpl;
    [|now rewrite Nat.add_0_r].
  destruct (pathValueOf el) as [p|]; simpl.
  - destruct (String.eqb_spec p "") as [->|Hp]; simpl.
    + rewrite Nat.add_0_r.
      destruct (objectHasProp el "component"),
        (negb (objectHasProp el "redirectTo") || negb (objectHasProp el "pathMatch"));
        simpl; now rewrite <- ?app_assoc, ?app_nil_r.
    + destruct (String.eqb p "**"); simpl.
      * rewrite Nat.add_1_r.
        destruct (objectHasProp el "component"),
          (getPropInitializer el "loadComponent") as [lc|];
          try destruct (loadComponentLooksLikeNotFound lc);
          simpl; now rewrite <- ?app_assoc, ?app_nil_r.
      * rewrite Nat.add_0_r.
        destruct (objectHasProp el "component"),
          (getPropInitializer el "loadChildren") as [lc|];
          try destruct (loadChildrenLooksLikeFeaturesImport lc);
          simpl; now rewrite <- ?app_assoc, ?app_nil_r.
  - rewrite Nat.add_0_r.
    destruct (objectHasProp el "component"); simpl; now rewrite <- ?app_assoc.
Qed.

Lemma fold_routeStep (els : list node) (errors : list string) (n : nat) :
  fold_left routeStep els (errors, n) =
  (errors ++ flat_map entryViolations els, n + length (filter isWildcardEntry els)).
Proof.
  revert errors n. induction els as [|el els IH]; intros errors n; cbn [fold_left].
  - simpl. now rewrite app_nil_r, Nat.add_0_r.
  - rewrite routeStep_app, IH, <- app_assoc. simpl. f_equal.
    destruct (isWildcardEntry el); simpl; lia.
Qed.

Lemma violations_eq (arr : node) :
  violations arr =
  flat_map entryViolations (elementsOf arr)
  ++ (if Nat.eqb (wildcardEntries arr) 1 then []
      else [wildcardCountMessage (wildcardEntries arr)]).
Proof.
  unfold violations, walkRoutes, wildcardEntries. rewrite fold_routeStep. simpl.
  destruct (Nat.eqb _ 1); simpl; now rewrite ?app_nil_r.
Qed.

(** No violation found during the walk reads like the count message. *)
Lemma entryViolations_not_count (el : node) (k : nat) :
  ~ In (wildcardCountMessage k) (entryViolations el).
Proof.
  assert (P : forall e, In e (entryViolations el) ->
                        String.prefix "APP_ROUTES must contain e" e = false).
  { unfold entryViolations, routeStep.
    destruct (isObjectLiteralExpression el); simpl;
      [|intros e [<-|[]]; reflexivity].
    destruct (objectHasProp el "component"), (pathValueOf el) as [p|]; simpl;
      try destruct (String.eqb p ""); try destruct (String.eqb p "**");
      try destruct (negb (objectHasProp el "redirectTo") || negb (objectHasProp el "pathMatch"));
      try destruct (getPropInitializer el "loadComponent") as [lc|];
      try destruct (getPropInitializer el "loadChildren") as [lch|];
      try destruct (loadComponentLooksLikeNotFound lc);
      try destruct (loadChildrenLooksLikeFeaturesImport lch);
      simpl; intros e He;
      repeat (destruct He as [<-|He]; [reflexivity|]); destruct He. }
  intro H. apply P in H. discriminate H.
Qed.

Lemma wildcardCountMessage_inj (k n : nat) :
  wildcardCountMessage k = wildcardCountMessage n -> k = n.
Proof.
  unfold wildcardCountMessage. intro H.
  apply append_inv_head, append_inv_tail in H. now apply ofNat_inj.
Qed.

(** When the route file is there and exports [routes], the run ends
    with the report of [violations]. *)
Lemma main_reports (h : Host) (ctx : WorkspaceContext) (sf arr : node) :
  Fs.parseSource (root h) (appRoutesFile ctx) = Some sf ->
  findExportedRoutesArray sf = Some arr ->
  main h ctx = Some (report h ctx (violations arr)).
Proof.
  intros Hp Hf. unfold main, Fs.existsSync.
  unfold Fs.parseSource in Hp.
  destruct (Fs.lookup (root h) (appRoutesFile ctx)) as [[p| |]|] eqn:L; try discriminate.
  simpl. unfold Fs.parseSource. rewrite L. simpl. injection Hp as ->. now rewrite Hf.
Qed.

(** C1.  After the walk the checker has counted the entries whose
    literal path is ['**'].  A wildcard-count violation is among the
    reported violations exactly when that count is not 1, and the one
    reported states the count itself; with exactly one wildcard entry
    there is none. *)
Theorem wildcard_count_violation (arr : node) (k : nat) :
  snd (walkRoutes arr) = wildcardEntries arr /\
  (In (wildcardCountMessage k) (violations arr) <->
   k = wildcardEntries arr /\ wildcardEntries arr <> 1).
Proof.
  split.
  { unfold walkRoutes, wildcardEntries. now rewrite fold_routeStep. }
  rewrite violations_eq, in_app_iff. split.
  - intros [H|H].
    + apply in_flat_map in H as (el & _ & H).
      now apply entryViolations_not_count in H.
    + destruct (Nat.eqb_spec (wildcardEntries arr) 1) as [E|E]; [destruct H|].
      destruct H as [H|[]]. split; [|assumption].
      symmetry. now apply wildcardCountMessage_inj.
  - intros [-> E]. right.
    destruct (Nat.eqb_spec (wildcardEntries arr) 1); [contradiction|]. now left.
Qed.

(** The two failing tables and the passing one of the specification. *)
Example wildcard_count_zero :
  violations Samples.noWildcardArray = [wildcardCountMessage 0].
Proof. reflexivity. Qed.
Example wildcard_count_two :
  violations Samples.twoWildcardsArray = [wildcardCountMessage 2].
Proof. reflexivity. Qed.
Example wildcard_count_one : violations Samples.appRoutesArray = [].
Proof. reflexivity. Qed.

End AppRoutesFacts.

(** Case analysis of [within] on a tree that is given in full. *)
Ltac within_cases H :=
  let Hin := fresh "Hin" in
  let Hw := fresh "Hw" in
  inversion H as [|? ? Hin Hw]; subst; clear H;
  [ | simpl in Hin;
      repeat (destruct Hin as [<-|Hin]; [within_cases Hw|]); try destruct Hin ].

Section ImportVisitors.

(** The three import searches are flag visitors. *)
Lemma import_search (accept : string -> bool) (init : node) :
  walk (fun nd (ok : bool) =>
          if ok then (ok, false)
          else
            match importArgument nd with
            | Some text => (if accept text then true else ok, true)
            | None => (ok, true)
            end) init false = true
  <-> importsMatching accept init.
Proof.
  rewrite flag_found with
    (hit := fun nd => match importArgument nd with
                      | Some text => accept text
                      | None => false
                      end).
  - unfold importsMatching. split.
    + intros (d & Hw & Hh). destruct (importArgument d) as [text|] eqn:E; [|discriminate].
      exists d, text. auto.
    + intros (d & text & Hw & Ha & Hh). exists d. rewrite Ha. auto.
  - reflexivity.
  - intro n. destruct (importArgument n) as [text|]; [destruct (accept text)|]; reflexivity.
  - intros n _. now destruct (importArgument n).
Qed.

Lemma loadChildrenLooksLikeFeaturesImport_spec (init : node) :
  AppRoutes.loadChildrenLooksLikeFeaturesImport init = true
  <-> importsMatching AppRoutes.featuresImport init.
Proof. apply import_search. Qed.

Lemma loadComponentImportsPage_spec (init : node) :
  FeatureRoutes.loadComponentImportsPage init = true
  <-> importsMatching (fun text => Js.endsWith text ".page") init.
Proof. apply import_search. Qed.

End ImportVisitors.

Section AppRouteEntries.
Import AppRoutes.

(** What an element adds is part of what is reported. *)
Lemma entryViolations_reported (arr el : node) (e : string) :
  In el (elementsOf arr) -> In e (entryViolations el) -> In e (violations arr).
Proof.
  intros Hel He. rewrite violations_eq, in_app_iff. left.
  apply in_flat_map. eauto.
Qed.

(** C4 (amended).  An entry of the app-level route array whose literal
    path is neither [''] nor ['**'] adds no violation exactly when it
    has no [component] property and its [loadChildren] initializer
    holds an import call whose string argument starts with
    [./features/] and ends with [.routes]; whatever it adds is
    reported. *)
Theorem feature_entry_passes (arr el : node) (p : string) :
  In el (elementsOf arr) ->
  pathValueOf el = Some p -> p <> "" -> p <> "**" ->
  (forall e, In e (entryViolations el) -> In e (violations arr)) /\
  (entryViolations el = [] <->
   objectHasProp el "component" = false /\
   exists loadChildren,
     getPropInitializer el "loadChildren" = Some loadChildren /\
     importsMatching
       (fun text => Js.startsWith text "./features/" && Js.endsWith text ".routes")
       loadChildren).
Proof.
  intros Hel Hp H1 H2. split; [intros e; now apply entryViolations_reported|].
  assert (Hobj : isObjectLiteralExpression el = true).
  { destruct el; try reflexivity; discriminate Hp. }
  unfold entryViolations, routeStep. rewrite Hobj, Hp. simpl.
  apply String.eqb_neq in H1, H2. rewrite H1, H2.
  destruct (objectHasProp el "component"); simpl.
  - split; [|intros [? _]; discriminate].
    destruct (getPropInitializer el "loadChildren") as [lc|];
      [destruct (loadChildrenLooksLikeFeaturesImport lc)|]; discriminate.
  - destruct (getPropInitializer el "loadChildren") as [lc|].
    + pose proof (loadChildrenLooksLikeFeaturesImport_spec lc) as S.
      destruct (loadChildrenLooksLikeFeaturesImport lc); simpl.
      * split; [|reflexivity]. intros _. split; [reflexivity|].
        exists lc. split; [reflexivity|]. now apply S.
      * split; [discriminate|]. intros [_ (lc' & E & M)].
        injection E as <-. apply S in M. discriminate.
    + split; [discriminate|]. intros [_ (lc' & E & _)]. discriminate.
Qed.

Lemma feature_entry_passes_witness :
  In Samples.homeRoute (elementsOf Samples.appRoutesArray) /\
  pathValueOf Samples.homeRoute = Some "home" /\
  (forall e, In e (entryViolations Samples.homeRoute) ->
             In e (violations Samples.appRoutesArray)) /\
  (entryViolations Samples.homeRoute = [] <->
   objectHasProp Samples.homeRoute "component" = false /\
   exists loadChildren,
     getPropInitializer Samples.homeRoute "loadChildren" = Some loadChildren /\
     importsMatching
       (fun text => Js.startsWith text "./features/" && Js.endsWith text ".routes")
       loadChildren).
Proof.
  assert (H1 : In Samples.homeRoute (elementsOf Samples.appRoutesArray))
    by (simpl; auto).
  assert (H2 : pathValueOf Samples.homeRoute = Some "home") by reflexivity.
  assert (H3 : "home" <> "") by discriminate.
  assert (H4 : "home" <> "**") by discriminate.
  split; [exact H1|]. split; [exact H2|].
  exact (@feature_entry_passes _ _ _ H1 H2 H3 H4).
Defined.

(** C4, as claimed, fails: the entry
    [{ path: 'admin', loadChildren: () => import('./features/a/b.routes') }]
    passes, although its import argument is [./features/<x>/<x>.routes]
    for no [x]. *)
Lemma mismatched_stem_passes :
  pathValueOf Samples.mismatchedStemRoute = Some "admin" /\
  entryViolations Samples.mismatchedStemRoute = [] /\
  ~ (exists loadChildren x,
        getPropInitializer Samples.mismatchedStemRoute "loadChildren" = Some loadChildren /\
        importsMatching (String.eqb (featureRoutesPath x)) loadChildren).
Proof.
  split; [reflexivity|]. split; [reflexivity|].
  intros (lc & x & E & d & text & Hw & Ha & Ht).
  injection E as <-. apply String.eqb_eq in Ht. subst text.
  unfold Samples.arrow, Samples.importCall in Hw.
  within_cases Hw; try discriminate Ha.
  injection Ha as Ha.
  assert (L : String.length x = 1).
  { apply (f_equal String.length) in Ha.
    rewrite length_append in Ha. simpl in Ha. rewrite length_append in Ha.
    simpl in Ha. lia. }
  destruct x as [|c [|c' x]]; simpl in L; try discriminate L.
  simpl in Ha. congruence.
Qed.

(** C5 (amended).  An entry of the app-level route array whose literal
    path is [''] adds no violation exactly when it has both a
    [redirectTo] and a [pathMatch] property and no [component]
    property; the values are not inspected, and neither is the presence
    of a loader. *)
Theorem empty_path_entry_passes (arr el : node) :
  In el (elementsOf arr) ->
  pathValueOf el = Some "" ->
  (forall e, In e (entryViolations el) -> In e (violations arr)) /\
  (entryViolations el = [] <->
   objectHasProp el "redirectTo" = true /\ objectHasProp el "pathMatch" = true /\
   objectHasProp el "component" = false).
Proof.
  intros Hel Hp. split; [intros e; now apply entryViolations_reported|].
  assert (Hobj : isObjectLiteralExpression el = true).
  { destruct el; try reflexivity; discriminate Hp. }
  unfold entryViolations, routeStep. rewrite Hobj, Hp. simpl.
  destruct (objectHasProp el "component"), (objectHasProp el "redirectTo"),
    (objectHasProp el "pathMatch"); simpl; split; try discriminate; intuition discriminate.
Qed.

Lemma empty_path_entry_passes_witness :
  In Samples.redirectRoute (elementsOf Samples.appRoutesArray) /\
  pathValueOf Samples.redirectRoute = Some "" /\
  (forall e, In e (entryViolations Samples.redirectRoute) ->
             In e (violations Samples.appRoutesArray)) /\
  (entryViolations Samples.redirectRoute = [] <->
   objectHasProp Samples.redirectRoute "redirectTo" = true /\
   objectHasProp Samples.redirectRoute "pathMatch" = true /\
   objectHasProp Samples.redirectRoute "component" = false).
Proof.
  assert (H1 : In Samples.redirectRoute (elementsOf Samples.appRoutesArray))
    by (simpl; auto).
  assert (H2 : pathValueOf Samples.redirectRoute = Some "") by reflexivity.
  split; [exact H1|]. split; [exact H2|].
  exact (@empty_path_entry_passes _ _ H1 H2).
Defined.

(** C5, as claimed, fails in both directions: a redirect that also
    carries [loadChildren] passes, and a redirect without any loader
    but with a [component] property does not. *)
Lemma redirect_with_loader_passes :
  pathValueOf Samples.redirectWithLoader = Some "" /\
  ~ (entryViolations Samples.redirectWithLoader = [] <->
     pureRedirect Samples.redirectWithLoader).
Proof.
  split; [reflexivity|]. intros [H _].
  destruct (H eq_refl) as (_ & _ & _ & L). discriminate L.
Qed.

Example redirect_with_component_fails :
  pureRedirect Samples.redirectWithComponent /\
  entryViolations Samples.redirectWithComponent = [noComponent].
Proof. repeat split. Qed.

End AppRouteEntries.

(** ** Feature-Route Provider Checker *)

Section FeatureRouteFacts.
Import FeatureRoutes.
Variables (filePath exName : string).

(** What the checks on the first element add. *)
Lemma firstRouteChecks_eq (el : node) (errors : list string) :
  firstRouteChecks filePath exName el errors =
  errors
  ++ (if Js.isString (match getPropInitializer el "path" with
                      | Some p => getStringValue p
                      | None => None
                      end) ""
      then [] else [firstPath filePath exName])
  ++ (if objectHasProp el "providers" then [] else [firstProviders filePath exName])
  ++ (if objectHasProp el "loadComponent" || objectHasProp el "loadChildren"
      then [] else [firstLoader filePath exName])
  ++ (if objectHasProp el "loadComponent" then
        match getPropInitializer el "loadComponent" with
        | Some init =>
            if loadComponentImportsPage init then []
            else [firstLoadComponentPage filePath exName]
        | None => []
        end
      else []).
Proof.
  unfold firstRouteChecks.
  destruct (Js.isString _ ""), (objectHasProp el "providers"),
    (objectHasProp el "loadComponent"), (objectHasProp el "loadChildren");
    simpl; try destruct (getPropInitializer el "loadComponent") as [init|];
    try destruct (loadComponentImportsPage init);
    simpl; now rewrite <- ?app_assoc, ?app_nil_r.
Qed.

(** What one element adds, as a function of the element and its index. *)
Lemma elementStep_eq (el : node) (idx : nat) (errors : list string) :
  elementStep filePath exName el idx errors =
  errors
  ++ (if isObjectLiteralExpression el then
        (if objectHasProp el "component" then [noComponent filePath exName] else [])
        ++ (if Nat.eqb idx 0 then firstRouteChecks filePath exName el [] else [])
        ++ (match getPropInitializer el "loadComponent" with
            | Some lc =>
                if loadComponentImportsPage lc then []
                else [loadComponentPage filePath exName]
            | None => []
            end)
      else [nonObjectRoute filePath exName idx]).
Proof.
  unfold elementStep.
  destruct (isObjectLiteralExpression el); simpl; [|reflexivity].
  destruct (Nat.eqb idx 0).
  - rewrite (firstRouteChecks_eq el (if objectHasProp el "component" then _ else _)).
    rewrite (firstRouteChecks_eq el []).
    destruct (objectHasProp el "component"),
      (getPropInitializer el "loadComponent") as [lc|];
      try destruct (loadComponentImportsPage lc);
      simpl; now rewrite <- ?app_assoc, ?app_nil_r.
  - destruct (objectHasProp el "component"),
      (getPropInitializer el "loadComponent") as [lc|];
      try destruct (loadComponentImportsPage lc);
      simpl; now rewrite <- ?app_assoc, ?app_nil_r.
Qed.

Lemma forEachFrom_eq (els : list node) (idx : nat) (errors : list string) :
  forEachFrom filePath exName idx els errors =
  errors ++ forEachFrom filePath exName idx els [].
Proof.
  revert idx errors. induction els as [|el els IH]; intros idx errors; simpl.
  - now rewrite app_nil_r.
  - rewrite (IH _ (elementStep filePath exName el idx errors)).
    rewrite (IH _ (elementStep filePath exName el idx [])).
    rewrite (elementStep_eq el idx errors), (elementStep_eq el idx []).
    simpl. now rewrite <- !app_assoc.
Qed.

(** A message is pushed during the [forEach] exactly when some element
    pushes it at its index. *)
Lemma in_forEachFrom (els : list node) (i0 : nat) (m : string) :
  In m (forEachFrom filePath exName i0 els []) <->
  exists k el, nth_error els k = Some el /\
               In m (elementStep filePath exName el (i0 + k) []).
Proof.
  revert i0. induction els as [|el els IH]; intro i0; simpl.
  - split; [intros [] | intros ([|k] & el & E & _); discriminate E].
  - rewrite forEachFrom_eq, in_app_iff, IH. split.
    + intros [H | (k & el' & E & H)].
      * exists 0, el. now rewrite Nat.add_0_r.
      * exists (S k), el'. now rewrite Nat.add_succ_r.
    + intros ([|k] & el' & E & H); simpl in E.
      * injection E as <-. rewrite Nat.add_0_r in H. now left.
      * right. exists k, el'. now rewrite Nat.add_succ_r in H.
Qed.

Lemma exportStep_eq (arrayNode : node) (errors : list string) :
  exportStep filePath exName arrayNode errors =
  errors ++ exportStep filePath exName arrayNode [].
Proof.
  unfold exportStep. destruct (Nat.eqb _ 0); [reflexivity|]. apply forEachFrom_eq.
Qed.

End FeatureRouteFacts.

Section FeatureRouteFile.
Import FeatureRoutes.

Lemma fold_exportStep (filePath : string) (exported : list (string * node))
      (errors : list string) :
  fold_left (fun errors ex => exportStep filePath (fst ex) (snd ex) errors) exported errors =
  errors ++ flat_map (exportViolations filePath) exported.
Proof.
  revert errors. induction exported as [|ex exported IH]; intro errors; simpl.
  - now rewrite app_nil_r.
  - rewrite IH, exportStep_eq. unfold exportViolations. now rewrite <- app_assoc.
Qed.

(** The violations of each exported array are reported for the file. *)
Lemma exportViolations_reported (filePath : string) (sf : node) (ex : string * node)
      (m : string) :
  In ex (findExportedRoutesArrays sf) ->
  In m (exportViolations filePath ex) ->
  In m (validateSource filePath sf).
Proof.
  intros Hex Hm. unfold validateSource.
  destruct (findExportedRoutesArrays sf) as [|ex0 exported] eqn:E; [destruct Hex|].
  cbn [length Nat.eqb]. rewrite fold_exportStep. apply in_flat_map. eauto.
Qed.

(** An element of an exported array adds its violations to the export's. *)
Lemma element_reported (filePath : string) (ex : string * node) (idx : nat) (el : node)
      (m : string) :
  nth_error (elementsOf (snd ex)) idx = Some el ->
  In m (elementStep filePath (fst ex) el idx []) ->
  In m (exportViolations filePath ex).
Proof.
  intros Hn Hm. unfold exportViolations, exportStep.
  destruct (elementsOf (snd ex)) as [|e0 els] eqn:E.
  - destruct idx; discriminate Hn.
  - cbn [length Nat.eqb]. apply in_forEachFrom. exists idx, el. auto.
Qed.

End FeatureRouteFile.

(** Two messages about the same export differ when what follows the
    common prefix does. *)
Ltac distinct_messages H :=
  unfold FeatureRoutes.noComponent, FeatureRoutes.firstPath, FeatureRoutes.firstProviders,
    FeatureRoutes.firstLoader, FeatureRoutes.firstLoadComponentPage,
    FeatureRoutes.loadComponentPage, FeatureRoutes.nonObjectRoute in H;
  apply append_inv_head in H; simpl in H; discriminate H.

(** A membership in what an element adds, split into its cases; the
    cases left name a message that differs from the one looked for. *)
Ltac absurd_membership Hin :=
  repeat (apply in_app_or in Hin as [Hin|Hin]);
  repeat match type of Hin with
    | In _ (if ?c then _ else _) => destruct c
    | In _ (match ?c with Some _ => _ | None => _ end) => destruct c
    end;
  simpl in Hin; try contradiction;
  let H := fresh "H" in
  destruct Hin as [H|[]]; distinct_messages H.

Section FeatureRouteRules.
Import FeatureRoutes.
Variables (filePath : string) (sf : node) (ex : string * node).
Hypothesis exported : In ex (findExportedRoutesArrays sf).

(** C10.  An object literal carrying a [component] property, at any
    index of any exported array of a feature's routes file, makes the
    checker report the violation that directs to
    [loadComponent]/[loadChildren]. *)
Theorem component_flagged (el : node) :
  In el (elementsOf (snd ex)) ->
  isObjectLiteralExpression el = true ->
  objectHasProp el "component" = true ->
  In (noComponent filePath (fst ex)) (validateSource filePath sf).
Proof.
  intros Hel Hobj Hc.
  apply In_nth_error in Hel as [idx Hidx].
  apply exportViolations_reported with (ex := ex); [assumption|].
  apply element_reported with (idx := idx) (el := el); [assumption|].
  rewrite elementStep_eq, Hobj, Hc. simpl. now left.
Qed.

(** C9.  Unless the first element of an exported array has a [path]
    property bound to the literal [''], the checker reports a
    violation for that array; when the first element is an object
    literal, it is the violation asking for [path: '']. *)
Theorem first_path_required :
  ~ firstPathIsEmpty (snd ex) ->
  (exists m, In m (exportViolations filePath ex) /\ In m (validateSource filePath sf)) /\
  (forall first rest,
      elementsOf (snd ex) = first :: rest ->
      isObjectLiteralExpression first = true ->
      In (firstPath filePath (fst ex)) (validateSource filePath sf)).
Proof.
  intro Hne.
  assert (F : forall first rest,
             elementsOf (snd ex) = first :: rest ->
             isObjectLiteralExpression first = true ->
             In (firstPath filePath (fst ex)) (exportViolations filePath ex)).
  { intros first rest E Hobj.
    apply element_reported with (idx := 0) (el := first); [now rewrite E|].
    rewrite elementStep_eq, Hobj. cbn [Nat.eqb]. rewrite firstRouteChecks_eq.
    destruct (getPropInitializer first "path") as [p|] eqn:P.
    - destruct p; simpl;
        try (apply in_or_app; right; now left).
      destruct (String.eqb_spec text "") as [->|];
        [|apply in_or_app; right; now left].
      exfalso. apply Hne. exists first, rest. auto.
    - simpl. apply in_or_app; right; now left. }
  split.
  - destruct (elementsOf (snd ex)) as [|first rest] eqn:E.
    + exists (mustNotBeEmpty filePath (fst ex)).
      assert (In (mustNotBeEmpty filePath (fst ex)) (exportViolations filePath ex)).
      { unfold exportViolations, exportStep. rewrite E. now left. }
      split; [assumption|]. now apply exportViolations_reported with (ex := ex).
    + destruct (isObjectLiteralExpression first) eqn:Hobj.
      * exists (firstPath filePath (fst ex)).
        split; [now apply (F first rest)|].
        apply exportViolations_reported with (ex := ex); [assumption|].
        now apply (F first rest).
      * exists (nonObjectRoute filePath (fst ex) 0).
        assert (In (nonObjectRoute filePath (fst ex) 0) (exportViolations filePath ex)).
        { apply element_reported with (idx := 0) (el := first); [now rewrite E|].
          rewrite elementStep_eq, Hobj. now left. }
        split; [assumption|]. now apply exportViolations_reported with (ex := ex).
  - intros first rest E Hobj.
    apply exportViolations_reported with (ex := ex); [assumption|].
    now apply (F first rest).
Qed.

(** C2 (amended).  The first element of an exported array must declare
    a [providers] property: the violation asking for it is reported
    when the property is absent, and it is pushed for the array exactly
    in that case.  The value bound to [providers] is not inspected. *)
Theorem first_route_providers (first : node) (rest : list node) :
  elementsOf (snd ex) = first :: rest ->
  isObjectLiteralExpression first = true ->
  (objectHasProp first "providers" = false ->
   In (firstProviders filePath (fst ex)) (validateSource filePath sf)) /\
  (In (firstProviders filePath (fst ex)) (exportViolations filePath ex) <->
   objectHasProp first "providers" = false).
Proof.
  intros E Hobj.
  assert (B : objectHasProp first "providers" = false ->
              In (firstProviders filePath (fst ex)) (exportViolations filePath ex)).
  { intro Hp.
    apply element_reported with (idx := 0) (el := first); [now rewrite E|].
    rewrite elementStep_eq, Hobj. cbn [Nat.eqb]. rewrite firstRouteChecks_eq, Hp.
    rewrite !in_app_iff. simpl. intuition auto. }
  split; [intro Hp; apply exportViolations_reported with (ex := ex); auto|].
  split; [|exact B].
  unfold exportViolations, exportStep. rewrite E. cbn [length Nat.eqb].
  rewrite in_forEachFrom. intros (k & el & Hk & Hin).
  rewrite elementStep_eq in Hin. cbn [app] in Hin.
  destruct (isObjectLiteralExpression el);
    [|simpl in Hin; destruct Hin as [H|[]]; distinct_messages H].
  destruct k as [|k]; cbn [Nat.add Nat.eqb] in Hin.
  - injection Hk as <-. rewrite firstRouteChecks_eq in Hin.
    destruct (objectHasProp first "providers"); [|reflexivity]. exfalso.
    absurd_membership Hin.
  - exfalso. absurd_membership Hin.
Qed.

(** C8 (amended).  An object literal, at any index of any exported
    array of a feature's routes file, that declares [loadComponent] is
    flagged unless the initializer holds an import call whose string
    argument ends in [.page]; when it holds one, the element does not
    add this violation. *)
Theorem loadComponent_must_import_page (idx : nat) (el lc : node) :
  nth_error (elementsOf (snd ex)) idx = Some el ->
  isObjectLiteralExpression el = true ->
  getPropInitializer el "loadComponent" = Some lc ->
  (~ importsMatching (fun text => Js.endsWith text ".page") lc ->
   In (loadComponentPage filePath (fst ex)) (validateSource filePath sf)) /\
  (importsMatching (fun text => Js.endsWith text ".page") lc ->
   ~ In (loadComponentPage filePath (fst ex)) (elementStep filePath (fst ex) el idx [])).
Proof.
  intros Hidx Hobj Hlc.
  pose proof (loadComponentImportsPage_spec lc) as S.
  split.
  - intro Hno.
    apply exportViolations_reported with (ex := ex); [assumption|].
    apply element_reported with (idx := idx) (el := el); [assumption|].
    rewrite elementStep_eq, Hobj, Hlc.
    destruct (loadComponentImportsPage lc); [exfalso; apply Hno; now apply S|].
    simpl. apply in_or_app; right. apply in_or_app; right. now left.
  - intros Hyes Hin. apply S in Hyes.
    rewrite elementStep_eq, Hobj, Hlc, Hyes in Hin. simpl in Hin.
    destruct (Nat.eqb idx 0); [rewrite firstRouteChecks_eq, Hlc, Hyes in Hin|];
      absurd_membership Hin.
Qed.

End FeatureRouteRules.

Section FeatureRouteSamples.
Import FeatureRoutes Samples.

Lemma component_flagged_witness :
  In componentExport (findExportedRoutesArrays componentRoutesSource) /\
  In componentRoute (elementsOf (snd componentExport)) /\
  isObjectLiteralExpression componentRoute = true /\
  objectHasProp componentRoute "component" = true /\
  In (noComponent homeRoutesFile "HOME_ROUTES")
     (validateSource homeRoutesFile componentRoutesSource).
Proof.
  assert (H1 : In componentExport (findExportedRoutesArrays componentRoutesSource))
    by (simpl; auto).
  assert (H2 : In componentRoute (elementsOf (snd componentExport))) by (simpl; auto).
  assert (H3 : isObjectLiteralExpression componentRoute = true) by reflexivity.
  assert (H4 : objectHasProp componentRoute "component" = true) by reflexivity.
  repeat (split; [assumption|]).
  exact (@component_flagged homeRoutesFile _ componentExport H1 _ H2 H3 H4).
Defined.

Lemma first_path_required_witness :
  In namedFirstExport (findExportedRoutesArrays namedFirstSource) /\
  ~ firstPathIsEmpty (snd namedFirstExport) /\
  In (firstPath homeRoutesFile "HOME_ROUTES") (validateSource homeRoutesFile namedFirstSource).
Proof.
  assert (H1 : In namedFirstExport (findExportedRoutesArrays namedFirstSource))
    by (simpl; auto).
  assert (H2 : ~ firstPathIsEmpty (snd namedFirstExport)).
  { intros (first & rest & E & P). injection E as <- _. discriminate P. }
  split; [assumption|]. split; [assumption|].
  exact (proj2 (@first_path_required homeRoutesFile _ namedFirstExport H1 H2)
               namedFirstRoute [] eq_refl eq_refl).
Defined.

Lemma first_route_providers_witness :
  In noProvidersExport (findExportedRoutesArrays noProvidersSource) /\
  elementsOf (snd noProvidersExport) = [noProvidersRoute] /\
  isObjectLiteralExpression noProvidersRoute = true /\
  objectHasProp noProvidersRoute "providers" = false /\
  In (firstProviders homeRoutesFile "HOME_ROUTES")
     (validateSource homeRoutesFile noProvidersSource).
Proof.
  assert (H1 : In noProvidersExport (findExportedRoutesArrays noProvidersSource))
    by (simpl; auto).
  assert (H2 : elementsOf (snd noProvidersExport) = [noProvidersRoute]) by reflexivity.
  assert (H3 : isObjectLiteralExpression noProvidersRoute = true) by reflexivity.
  assert (H4 : objectHasProp noProvidersRoute "providers" = false) by reflexivity.
  repeat (split; [assumption|]).
  exact (proj1 (@first_route_providers homeRoutesFile _ noProvidersExport H1
                  noProvidersRoute [] H2 H3) H4).
Defined.

(** C2, as claimed, fails: a first route with [providers: []] is not
    flagged, and the checker passes on a workspace holding it. *)
Lemma empty_providers_not_flagged :
  findExportedRoutesArrays emptyProvidersSource
  = [("HOME_ROUTES", ArrayLiteralExpression [emptyProvidersRoute])] /\
  getPropInitializer emptyProvidersRoute "providers" = Some (ArrayLiteralExpression []) /\
  validateSource homeRoutesFile emptyProvidersSource = [] /\
  main emptyProviders ctx
  = Some (mkOutcome 0
            ["OK: feature routes verified (1 feature(s)) for src/app/features."] []).
Proof. repeat split. Qed.

Lemma loadComponent_must_import_page_witness :
  In widgetExport (findExportedRoutesArrays widgetRoutesSource) /\
  nth_error (elementsOf (snd widgetExport)) 1 = Some widgetChild /\
  isObjectLiteralExpression widgetChild = true /\
  getPropInitializer widgetChild "loadComponent" = Some widgetLoader /\
  ~ importsMatching (fun text => Js.endsWith text ".page") widgetLoader /\
  In (loadComponentPage homeRoutesFile "HOME_ROUTES")
     (validateSource homeRoutesFile widgetRoutesSource).
Proof.
  assert (H1 : In widgetExport (findExportedRoutesArrays widgetRoutesSource))
    by (simpl; auto).
  assert (H2 : nth_error (elementsOf (snd widgetExport)) 1 = Some widgetChild)
    by reflexivity.
  assert (H3 : isObjectLiteralExpression widgetChild = true) by reflexivity.
  assert (H4 : getPropInitializer widgetChild "loadComponent" = Some widgetLoader)
    by reflexivity.
  assert (H5 : ~ importsMatching (fun text => Js.endsWith text ".page") widgetLoader).
  { intro M. apply loadComponentImportsPage_spec in M. discriminate M. }
  repeat (split; [assumption|]).
  exact (proj1 (@loadComponent_must_import_page homeRoutesFile _ widgetExport H1 1 _ _
                  H2 H3 H4) H5).
Defined.

(** C8, as claimed, fails: a child route below the first route declares
    a [loadComponent] that imports no page, and nothing is reported. *)
Lemma nested_route_not_flagged :
  within widgetChild nestedRoutesSource /\
  (exists lc, getPropInitializer widgetChild "loadComponent" = Some lc /\
              ~ importsMatching (fun text => Js.endsWith text ".page") lc) /\
  validateSource homeRoutesFile nestedRoutesSource = [].
Proof.
  split; [|split; [|reflexivity]].
  - apply within_child with (c := exportRoutes "HOME_ROUTES" [nestedFirstRoute]);
      [simpl; auto|].
    eapply within_child; [simpl; left; reflexivity|].
    apply within_child with (c := ArrayLiteralExpression [nestedFirstRoute]);
      [simpl; auto|].
    apply within_child with (c := nestedFirstRoute); [simpl; auto|].
    apply within_child with (c := prop "children" (ArrayLiteralExpression [widgetChild]));
      [simpl; auto|].
    apply within_child with (c := ArrayLiteralExpression [widgetChild]); [simpl; auto|].
    apply within_child with (c := widgetChild); [simpl; auto|].
    constructor.
  - exists (lazy "./home.widget" "HomeWidget"). split; [reflexivity|].
    intro M. apply loadComponentImportsPage_spec in M. discriminate M.
Qed.

End FeatureRouteSamples.

(** ** Structure Checker *)

Section PushEach.
Variables (A : Type) (f : A -> option (list string)).

Lemma pushEach_prefix (xs : list A) (errors result : list string) :
  pushEach f xs errors = Some result -> exists found, result = errors ++ found.
Proof.
  revert errors. induction xs as [|x xs IH]; intros errors H; simpl in H.
  - injection H as <-. exists []. now rewrite app_nil_r.
  - destruct (f x) as [found|]; [|discriminate H]. simpl in H.
    apply IH in H as [more ->]. exists (found ++ more). now rewrite app_assoc.
Qed.

Lemma pushEach_total (xs : list A) (errors : list string) :
  (forall x, In x xs -> f x <> None) -> exists result, pushEach f xs errors = Some result.
Proof.
  revert errors. induction xs as [|x xs IH]; intros errors H; simpl.
  - eauto.
  - destruct (f x) as [found|] eqn:E; [|now destruct (H x (or_introl eq_refl))].
    simpl. apply IH. intros y Hy. apply H. now right.
Qed.
End PushEach.

Section StructureFacts.
Import Structure.
Variables (h : Host) (ctx : WorkspaceContext).

(** The loop over the feature folders adds one violation for each
    folder that lacks a required file, in listing order. *)
Lemma fold_folderStep (names : list string) (errors : list string) :
  fold_left (folderStep h (featuresDir ctx)) names errors =
  errors ++ map (missingFilesViolation h ctx) (filter (lacksRequiredFile h ctx) names).
Proof.
  revert errors. induction names as [|f names IH]; intro errors; cbn [fold_left filter].
  - simpl. now rewrite app_nil_r.
  - rewrite IH. unfold folderStep, lacksRequiredFile at 2, missingFilesViolation at 2.
    destruct (negb (Nat.eqb _ 0)); simpl; now rewrite <- ?app_assoc.
Qed.

(** The violations that come first in [errors]. *)
Lemma collect_shape (errors names : list string) :
  collect h ctx = Some (errors, names) ->
  listDirs h (featuresDir ctx) = Some names /\
  exists after,
    errors =
    (if exists_ h (appRoot ctx) then [] else [appRootNotFound (appRoot ctx)])
    ++ (if exists_ h (featuresDir ctx) then [] else [featuresDirNotFound (featuresDir ctx)])
    ++ (if Nat.eqb (length names) 0 then [noFeatureFolders (featuresDir ctx)] else [])
    ++ map (missingFilesViolation h ctx) (filter (lacksRequiredFile h ctx) names)
    ++ after.
Proof.
  unfold collect. intro H.
  destruct (listDirs h (featuresDir ctx)) as [names'|]; [|discriminate H].
  cbn [bindThrow] in H. rewrite fold_folderStep in H.
  set (front :=
         (if Nat.eqb (length names') 0
          then (if negb (exists_ h (featuresDir ctx))
                then (if negb (exists_ h (appRoot ctx))
                      then [] ++ [appRootNotFound (appRoot ctx)] else [])
                     ++ [featuresDirNotFound (featuresDir ctx)]
                else (if negb (exists_ h (appRoot ctx))
                      then [] ++ [appRootNotFound (appRoot ctx)] else []))
               ++ [noFeatureFolders (featuresDir ctx)]
          else (if negb (exists_ h (featuresDir ctx))
                then (if negb (exists_ h (appRoot ctx))
                      then [] ++ [appRootNotFound (appRoot ctx)] else [])
                     ++ [featuresDirNotFound (featuresDir ctx)]
                else (if negb (exists_ h (appRoot ctx))
                      then [] ++ [appRootNotFound (appRoot ctx)] else [])))
         ++ map (missingFilesViolation h ctx) (filter (lacksRequiredFile h ctx) names'))
    in H.
  assert (F : front =
              (if exists_ h (appRoot ctx) then [] else [appRootNotFound (appRoot ctx)])
              ++ (if exists_ h (featuresDir ctx) then []
                  else [featuresDirNotFound (featuresDir ctx)])
              ++ (if Nat.eqb (length names') 0 then [noFeatureFolders (featuresDir ctx)]
                  else [])
              ++ map (missingFilesViolation h ctx)
                   (filter (lacksRequiredFile h ctx) names')).
  { subst front.
    destruct (exists_ h (appRoot ctx)), (exists_ h (featuresDir ctx)),
      (Nat.eqb (length names') 0); reflexivity. }
  assert (G : exists after, errors = front ++ after /\ names = names').
  { clearbody front.
    destruct (verifyNoStaticPageImportsInAppRoutes h (appRoutesFile ctx)) as [found|];
      [|discriminate H].
    cbn [bindThrow] in H.
    destruct (exists_ h (appRoot ctx)).
    - destruct (listFilesRecursive h (appRoot ctx)) as [listed|]; [|discriminate H].
      cbn [bindThrow] in H.
      destruct (verifyNoHttpClientInDisallowedFiles h _) as [found1|]; [|discriminate H].
      cbn [bindThrow] in H.
      destruct (verifyNoProvidedInRootInFeatures h _ _) as [found2|]; [|discriminate H].
      cbn [bindThrow] in H.
      destruct (pushEach _ names' _) as [all|] eqn:P; [|discriminate H].
      cbn [bindThrow] in H. injection H as <- <-.
      apply pushEach_prefix in P as [found3 ->].
      exists (found ++ found1 ++ found2 ++ found3). now rewrite <- !app_assoc.
    - injection H as <- <-. eauto. }
  destruct G as (after & -> & ->). split; [reflexivity|].
  exists after. rewrite F. now rewrite <- !app_assoc.
Qed.

End StructureFacts.

Section StructureRules.
Import Structure.
Variables (h : Host) (ctx : WorkspaceContext).

Lemma main_of_collect (errors names : list string) :
  collect h ctx = Some (errors, names) ->
  errors <> [] ->
  main h ctx =
  Some (mkOutcome 1 []
          (("Structure verification failed (" +++ Js.ofNat (length errors)
            +++ " issue(s)):" +++ Js.nl)
           :: map (fun e => "- " +++ e +++ Js.nl) errors)).
Proof.
  intros C Hne. unfold main. rewrite C. cbn [bindThrow].
  destruct errors; [contradiction|reflexivity].
Qed.

(** Without a features directory no feature is listed. *)
Lemma listDirs_absent :
  Fs.existsSync (root h) (featuresDir ctx) = false ->
  listDirs h (featuresDir ctx) = Some [].
Proof. intro A. unfold listDirs, exists_. now rewrite A. Qed.

(** A run ends whenever what it reads can be read. *)
Lemma collect_total :
  sourcesReadable h ctx ->
  exists errors names, collect h ctx = Some (errors, names).
Proof.
  intros (R1 & R2 & R3 & R4). unfold collect.
  assert (L : exists names, listDirs h (featuresDir ctx) = Some names).
  { unfold listDirs, exists_.
    destruct (Fs.existsSync (root h) (featuresDir ctx)); simpl; [|eauto].
    destruct (Fs.readdirSync (root h) (featuresDir ctx)) as [entries|];
      [|now destruct (R2 eq_refl)].
    simpl. eauto. }
  destruct L as [names L]. specialize (R3 names). rewrite L in *.
  cbn [bindThrow].
  assert (V : exists found,
             verifyNoStaticPageImportsInAppRoutes h (appRoutesFile ctx) = Some found).
  { unfold verifyNoStaticPageImportsInAppRoutes, exists_.
    destruct (Fs.existsSync (root h) (appRoutesFile ctx)); simpl; [|eauto].
    destruct (Fs.parseSource (root h) (appRoutesFile ctx)) as [sf|];
      [|now destruct (R1 eq_refl)].
    simpl. destruct (negb (Nat.eqb _ 0)); eauto. }
  destruct V as [found ->]. cbn [bindThrow].
  unfold exists_.
  destruct (Fs.existsSync (root h) (appRoot ctx)); [|eauto].
  destruct (R4 eq_refl) as (listed & -> & Hr). cbn [bindThrow].
  assert (Hf : forall fp, In fp (filter (fun fp => Js.endsWith fp ".ts") listed) ->
                          Fs.parseSource (root h) fp <> None).
  { intros fp Hin. apply filter_In in Hin as [Hin _]. now apply Hr. }
  unfold verifyNoHttpClientInDisallowedFiles, verifyNoProvidedInRootInFeatures.
  match goal with
  | |- context [pushEach ?f ?xs []] =>
      destruct (@pushEach_total _ f xs []) as [found1 ->]
  end.
  { intros fp Hin. apply Hf in Hin.
    destruct (Fs.parseSource (root h) fp) as [sf|]; [|contradiction].
    cbn [bindThrow].
    repeat match goal with |- context [if ?c then _ else _] => destruct c end;
      discriminate. }
  cbn [bindThrow].
  match goal with
  | |- context [pushEach ?f ?xs []] =>
      destruct (@pushEach_total _ f xs []) as [found2 ->]
  end.
  { intros fp Hin. apply Hf in Hin.
    destruct (Fs.parseSource (root h) fp) as [sf|]; [|contradiction].
    cbn [bindThrow].
    repeat match goal with |- context [if ?c then _ else _] => destruct c end;
      discriminate. }
  cbn [bindThrow].
  match goal with
  | |- context [pushEach ?f names ?errs] =>
      destruct (@pushEach_total _ f names errs) as [found3 ->]
  end.
  { intros f Hin. specialize (R3 f eq_refl Hin).
    unfold verifyFeatureRouteProviders, exists_. cbv zeta.
    match type of R3 with
    | ?e = true -> ?p <> None => destruct e; cbn [negb]; [destruct p as [sf|]|discriminate]
    end; [|now destruct (R3 eq_refl)].
    cbn [bindThrow]. destruct (Nat.eqb _ 0); discriminate. }
  cbn [bindThrow]. eauto.
Qed.

(** C3 (amended).  When the features directory does not exist, the
    Feature-Route Provider Checker exits with status 0 after printing
    the success summary for zero features.  The Structure Checker
    never passes then: a run that ends reports, with status 1, both
    that the features directory was not found and that no feature
    folder was found, so at least two violations; and the run ends
    whenever what it reads can be read. *)
Theorem absent_features_dir :
  Fs.existsSync (root h) (featuresDir ctx) = false ->
  FeatureRoutes.main h ctx =
  Some (mkOutcome 0
          ["OK: feature routes verified (0 feature(s)) for "
           +++ Path.relative (cwd h) (workspaceRoot ctx) (featuresDir ctx) +++ "."]
          []) /\
  (forall o, main h ctx = Some o ->
             exitCode o = 1 /\ stdout o = [] /\
             exists errors,
               stderr o =
               ("Structure verification failed (" +++ Js.ofNat (length errors)
                +++ " issue(s)):" +++ Js.nl)
               :: map (fun e => "- " +++ e +++ Js.nl) errors /\
               In (featuresDirNotFound (featuresDir ctx)) errors /\
               In (noFeatureFolders (featuresDir ctx)) errors /\
               2 <= length errors) /\
  (sourcesReadable h ctx -> exists o, main h ctx = Some o).
Proof.
  intro A. split; [|split].
  - unfold FeatureRoutes.main, FeatureRoutes.listFeatureNames. rewrite A. reflexivity.
  - intros o M.
    destruct (collect h ctx) as [[errors names]|] eqn:C;
      [|unfold main in M; rewrite C in M; discriminate M].
    destruct (collect_shape _ _ C) as (L & after & E).
    rewrite listDirs_absent in L by assumption. injection L as <-.
    unfold exists_ in E at 2. rewrite A in E. cbn [length Nat.eqb filter map] in E.
    assert (Hne : errors <> []).
    { rewrite E. destruct (exists_ h (appRoot ctx)); discriminate. }
    rewrite (main_of_collect C Hne) in M. injection M as <-. cbn.
    split; [reflexivity|]. split; [reflexivity|].
    exists errors. split; [reflexivity|]. rewrite E.
    rewrite !in_app_iff, !length_app. simpl. intuition lia.
  - intro R. destruct (collect_total R) as (errors & names & C).
    unfold main. rewrite C. cbn [bindThrow].
    destruct (negb (Nat.eqb (length errors) 0)); eauto.
Qed.

(** C7 (amended).  The loop over the feature folders collects one
    violation for each folder that lacks at least one of the four
    required files; the violation lists the missing files of that
    folder, which are the required files that do not exist in it; in
    a run that ends these violations are all among the reported ones,
    in listing order; and the run ends whenever what it reads can be
    read. *)
Theorem missing_files_per_feature :
  (forall names errors,
      fold_left (folderStep h (featuresDir ctx)) names errors =
      errors ++ map (missingFilesViolation h ctx) (filter (lacksRequiredFile h ctx) names)) /\
  (forall f m,
      In m (verifyFeatureFolder h (Path.join [featuresDir ctx; f]) f) <->
      In m (requiredFiles f) /\
      exists_ h (Path.join [Path.join [featuresDir ctx; f]; m]) = false) /\
  (forall errors names,
      collect h ctx = Some (errors, names) ->
      listDirs h (featuresDir ctx) = Some names /\
      exists before after,
        errors =
        before
        ++ map (missingFilesViolation h ctx) (filter (lacksRequiredFile h ctx) names)
        ++ after) /\
  (sourcesReadable h ctx -> exists errors names, collect h ctx = Some (errors, names)).
Proof.
  split; [|split; [|split]]; [| | |apply collect_total].
  - intros names errors. apply fold_folderStep.
  - intros f m. unfold verifyFeatureFolder. rewrite filter_In, negb_true_iff. reflexivity.
  - intros errors names C.
    destruct (collect_shape _ _ C) as (L & after & E). split; [assumption|].
    exists ((if exists_ h (appRoot ctx) then [] else [appRootNotFound (appRoot ctx)])
            ++ (if exists_ h (featuresDir ctx) then []
                else [featuresDirNotFound (featuresDir ctx)])
            ++ (if Nat.eqb (length names) 0 then [noFeatureFolders (featuresDir ctx)]
                else [])), after.
    rewrite E. now rewrite <- !app_assoc.
Qed.

End StructureRules.

Section StructureSamples.
Import Structure Samples.

Lemma absent_features_dir_witness :
  Fs.existsSync (root withoutFeatures) (featuresDir ctx) = false /\
  sourcesReadable withoutFeatures ctx /\
  FeatureRoutes.main withoutFeatures ctx =
  Some (mkOutcome 0
          ["OK: feature routes verified (0 feature(s)) for src/app/features."] []) /\
  exists o, main withoutFeatures ctx = Some o.
Proof.
  assert (H1 : Fs.existsSync (root withoutFeatures) (featuresDir ctx) = false)
    by reflexivity.
  assert (H2 : sourcesReadable withoutFeatures ctx).
  { split; [discriminate|]. split; [discriminate|]. split.
    - intros names f L Hin. injection L as <-. destruct Hin.
    - intros _. exists ["/ws/src/app/app.routes.ts"]. split; [reflexivity|].
      intros fp [<-|[]]. discriminate. }
  split; [assumption|]. split; [assumption|].
  destruct (@absent_features_dir withoutFeatures ctx H1) as (F & _ & T).
  split; [exact F|]. exact (T H2).
Defined.

(** C3, as claimed, fails: without a features directory the Structure
    Checker reports two violations, not one. *)
Lemma absent_features_dir_two_violations :
  Fs.existsSync (root withoutFeatures) (featuresDir ctx) = false /\
  main withoutFeatures ctx =
  Some (mkOutcome 1 []
          ["Structure verification failed (2 issue(s)):" +++ Js.nl;
           "- Features dir not found: /ws/src/app/features" +++ Js.nl;
           "- No feature folders found in /ws/src/app/features. "
           +++ "Create at least one feature via pnpm gen:feature." +++ Js.nl]).
Proof. split; reflexivity. Qed.

Lemma missing_files_per_feature_witness :
  sourcesReadable twoMissing ctx /\
  collect twoMissing ctx = Some ([missingFilesViolation twoMissing ctx "home"], ["home"]) /\
  listDirs twoMissing (featuresDir ctx) = Some ["home"] /\
  exists before after,
    [missingFilesViolation twoMissing ctx "home"] =
    before
    ++ map (missingFilesViolation twoMissing ctx)
         (filter (lacksRequiredFile twoMissing ctx) ["home"])
    ++ after.
Proof.
  assert (H0 : sourcesReadable twoMissing ctx).
  { split; [discriminate|]. split; [discriminate|]. split.
    - intros names f L Hin. injection L as <-. destruct Hin as [<-|[]]. discriminate.
    - intros _.
      exists ["/ws/src/app/app.routes.ts";
              "/ws/src/app/features/home/home.routes.ts";
              "/ws/src/app/features/home/home.state.ts"].
      split; [reflexivity|].
      intros fp [<-|[<-|[<-|[]]]]; discriminate. }
  assert (H1 : collect twoMissing ctx
               = Some ([missingFilesViolation twoMissing ctx "home"], ["home"]))
    by reflexivity.
  split; [assumption|]. split; [assumption|].
  exact (proj1 (proj2 (proj2 (@missing_files_per_feature twoMissing ctx))) _ _ H1).
Defined.

(** C7, as claimed, fails: a feature folder that lacks two required
    files yields one violation, which lists both. *)
Lemma two_missing_one_violation :
  verifyFeatureFolder twoMissing "/ws/src/app/features/home" "home"
  = ["home.page.ts"; "home.data.ts"] /\
  main twoMissing ctx =
  Some (mkOutcome 1 []
          ["Structure verification failed (1 issue(s)):" +++ Js.nl;
           "- Feature " +++ Js.dq +++ "home" +++ Js.dq +++ " missing required files:"
           +++ Js.nl +++ "  - /ws/src/app/features/home/home.page.ts"
           +++ Js.nl +++ "  - /ws/src/app/features/home/home.data.ts" +++ Js.nl]).
Proof. split; reflexivity. Qed.

End StructureSamples.

(** ** Cross-Feature Import Checker *)

Section CrossFeatureRules.
Import CrossFeature.
Variables (h : Host) (ctx : WorkspaceContext).

(** The violations of a file are those of its imports, in order. *)
Lemma fileViolations_eq (fp fromFeature : string) (sf : node) :
  featureOfFile fp = Some fromFeature -> fromFeature <> "" ->
  Fs.parseSource (root h) fp = Some sf ->
  fileViolations h ctx fp =
  Some (flat_map (fun spec =>
                    match importViolation h ctx fp fromFeature spec with
                    | Some e => [e]
                    | None => []
                    end) (getImports sf)).
Proof.
  intros F Hne P. unfold fileViolations. rewrite F. cbn [falsy].
  apply String.eqb_neq in Hne. rewrite Hne, P. reflexivity.
Qed.

Lemma importViolation_reported (fp fromFeature spec e : string) (sf : node) :
  featureOfFile fp = Some fromFeature -> fromFeature <> "" ->
  Fs.parseSource (root h) fp = Some sf ->
  In spec (getImports sf) ->
  importViolation h ctx fp fromFeature spec = Some e ->
  exists errors, fileViolations h ctx fp = Some errors /\ In e errors.
Proof.
  intros F Hne P Hin V. rewrite (fileViolations_eq _ F Hne P).
  eexists. split; [reflexivity|]. apply in_flat_map. exists spec.
  split; [assumption|]. rewrite V. now left.
Qed.

(** C6 (amended).  An import of a file is flagged exactly when its
    specifier starts with [.], the path it resolves to against the
    directory of the file contains [features/], and the segment after
    the last [features] segment of that path is there, not empty and
    different from the feature of the importing file; the violation
    names both features and the specifier.  An import that does not
    start with [.] is never flagged, and neither is one that resolves
    into the feature of the importing file. *)
Theorem cross_feature_flagged (fp fromFeature spec e : string) :
  (importViolation h ctx fp fromFeature spec = Some e <->
   Js.startsWith spec "." = true /\
   Js.includes (resolvedImport h fp spec) "features/" = true /\
   exists toFeature,
     featureOfFile (resolvedImport h fp spec) = Some toFeature /\
     toFeature <> "" /\ toFeature <> fromFeature /\
     e = crossFeatureMessage h ctx fp fromFeature spec toFeature) /\
  (Js.startsWith spec "." = false ->
   importViolation h ctx fp fromFeature spec = None) /\
  (featureOfFile (resolvedImport h fp spec) = Some fromFeature ->
   importViolation h ctx fp fromFeature spec = None).
Proof.
  unfold importViolation, resolveRelative, resolvedImport.
  change (Path.join ["features"] +++ Path.sepString) with "features/".
  destruct (Js.startsWith spec ".") eqn:R; cbn [negb].
  - destruct (Js.includes _ "features/") eqn:I; cbn [negb].
    + destruct (featureOfFile _) as [toFeature|] eqn:T.
      * destruct (String.eqb_spec toFeature "") as [E1|E1]; cbn [negb andb].
        -- split; [|split]; [|discriminate|reflexivity].
           split; [discriminate|].
           intros (_ & _ & t & Ht & Hn & _). injection Ht as <-. contradiction.
        -- destruct (String.eqb_spec toFeature fromFeature) as [E2|E2]; cbn [negb].
           ++ split; [|split]; [|discriminate|reflexivity].
              split; [discriminate|].
              intros (_ & _ & t & Ht & _ & Hn & _). injection Ht as <-. contradiction.
           ++ split; [|split]; [|discriminate|intro H; injection H as H; contradiction].
              split.
              ** intro H. injection H as <-. repeat split. exists toFeature. auto.
              ** intros (_ & _ & t & Ht & _ & _ & ->). now injection Ht as <-.
      * split; [|split]; [|discriminate|discriminate].
        split; [discriminate|]. intros (_ & _ & t & Ht & _). discriminate Ht.
    + split; [|split]; [|discriminate|reflexivity].
      split; [discriminate|]. intros (_ & H & _). discriminate H.
  - split; [|split]; [|reflexivity|reflexivity].
    split; [discriminate|]. intros (H & _). discriminate H.
Qed.

End CrossFeatureRules.

Section CrossFeatureSamples.
Import CrossFeature Samples.

(** The three imports of the specification, from
    [features/a/a.page.ts]. *)
Example sibling_import_flagged :
  importViolation shipped ctx pageOfA "a" "../b/b.data"
  = Some (crossFeatureMessage shipped ctx pageOfA "a" "../b/b.data" "b").
Proof. reflexivity. Qed.
Example same_feature_import_passes :
  importViolation shipped ctx pageOfA "a" "../a/a.models" = None.
Proof. reflexivity. Qed.
Example package_import_passes :
  importViolation shipped ctx pageOfA "a" "@angular/features/b/b.data" = None.
Proof. reflexivity. Qed.

Lemma cross_feature_flagged_witness :
  Js.startsWith "@angular/core" "." = false /\
  importViolation shipped ctx pageOfA "a" "@angular/core" = None.
Proof.
  assert (H1 : Js.startsWith "@angular/core" "." = false) by reflexivity.
  split; [assumption|].
  exact (proj1 (proj2 (@cross_feature_flagged shipped ctx pageOfA "a" "@angular/core" ""))
               H1).
Defined.

(** C6, as claimed, fails: an import that resolves into a [features]
    folder kept under [shared], outside the features root, is
    flagged. *)
Lemma shared_features_import_flagged :
  featureOfFile pageOfA = Some "a" /\
  Js.startsWith sharedFeaturesImport "." = true /\
  resolvedImport shipped pageOfA sharedFeaturesImport = "/ws/src/app/shared/features/util" /\
  underFeaturesRoot ctx (resolvedImport shipped pageOfA sharedFeaturesImport) = false /\
  importViolation shipped ctx pageOfA "a" sharedFeaturesImport
  = Some (crossFeatureMessage shipped ctx pageOfA "a" sharedFeaturesImport "util").
Proof. repeat split. Qed.

End CrossFeatureSamples.

(** ** Paths and the file-system tree *)

Section PathFacts.

Lemma append_empty_r (s : string) : s +++ "" = s.
Proof. induction s as [|c s IH]; simpl; [reflexivity | now rewrite IH]. Qed.

Lemma append_assoc (a b c : string) : (a +++ b) +++ c = a +++ b +++ c.
Proof. induction a as [|x a IH]; simpl; [reflexivity | now rewrite IH]. Qed.

Lemma splitFrom_noSeparator (s cur : string) :
  noSeparator s = true -> Js.splitFrom Path.sep cur s = [cur +++ s].
Proof.
  revert cur. induction s as [|c s IH]; intros cur H; simpl in *.
  - now rewrite append_empty_r.
  - apply andb_true_iff in H as [Hc Hs]. apply negb_true_iff in Hc. rewrite Hc.
    rewrite IH by assumption. now rewrite append_assoc.
Qed.

Lemma splitFrom_segment (a b cur : string) :
  noSeparator a = true ->
  Js.splitFrom Path.sep cur (a +++ Path.sepString +++ b)
  = (cur +++ a) :: Js.splitFrom Path.sep "" b.
Proof.
  revert cur. induction a as [|c a IH]; intros cur H; simpl in *.
  - now rewrite append_empty_r.
  - apply andb_true_iff in H as [Hc Hs]. apply negb_true_iff in Hc. rewrite Hc.
    rewrite IH by assumption. now rewrite append_assoc.
Qed.

Lemma simpleName_noSeparator (s : string) : simpleName s = true -> noSeparator s = true.
Proof.
  unfold simpleName. intro H. now repeat (apply andb_true_iff in H as [H _]).
Qed.

Lemma split_join (seg : string) (segs : list string) :
  Forall (fun s => simpleName s = true) (seg :: segs) ->
  Js.split Path.sep (Js.join Path.sepString (seg :: segs)) = seg :: segs.
Proof.
  unfold Js.split, Js.join. revert seg.
  induction segs as [|s segs IH]; intros seg H; inversion H as [|? ? Hs Hr]; subst.
  - simpl. now rewrite splitFrom_noSeparator by now apply simpleName_noSeparator.
  - cbn [String.concat].
    rewrite splitFrom_segment by now apply simpleName_noSeparator.
    simpl String.append. f_equal. now apply IH.
Qed.

Lemma normalize_simple (segs acc : list string) :
  Forall (fun s => simpleName s = true) segs ->
  fold_left (Path.normalizeStep false) segs acc = rev segs ++ acc.
Proof.
  revert acc. induction segs as [|s segs IH]; intros acc H; [reflexivity|].
  inversion H as [|? ? Hs Hr]; subst. cbn [fold_left rev].
  rewrite IH by assumption. rewrite <- app_assoc. f_equal.
  unfold Path.normalizeStep. unfold simpleName in Hs.
  repeat (apply andb_true_iff in Hs as [Hs ?]).
  repeat match goal with
         | H : negb _ = true |- _ => apply negb_true_iff in H; rewrite H
         end.
  reflexivity.
Qed.

(** The segments of an absolute path made of simple names. *)
Lemma normalizeSegments_pathOf (seg : string) (segs : list string) :
  Forall (fun s => simpleName s = true) (seg :: segs) ->
  Path.normalizeSegments false (pathOf (seg :: segs)) = seg :: segs.
Proof.
  intro H. unfold Path.normalizeSegments, pathOf, Js.split.
  change (Path.sepString +++ Js.join Path.sepString (seg :: segs))
    with ("" +++ Path.sepString +++ Js.join Path.sepString (seg :: segs)).
  rewrite splitFrom_segment by reflexivity.
  change (Js.splitFrom Path.sep "" ?x) with (Js.split Path.sep x).
  rewrite split_join by assumption.
  change (fold_left ?f (?x :: ?l) []) with (fold_left f l (f [] x)).
  change (Path.normalizeStep false [] ("" +++ "")) with (@nil string).
  rewrite normalize_simple by assumption. now rewrite app_nil_r, rev_involutive.
Qed.

Lemma endsWith_sep_cons (c : ascii) (s : string) :
  s <> "" -> Js.endsWith (String c s) Path.sepString = Js.endsWith s Path.sepString.
Proof.
  intro H. destruct s as [|d s]; [contradiction|].
  unfold Js.endsWith. cbn [String.length Path.sepString Nat.leb Nat.sub].
  rewrite !Nat.sub_0_r. reflexivity.
Qed.

Lemma endsWith_sep_append (a name : string) :
  name <> "" -> Js.endsWith (a +++ name) Path.sepString = Js.endsWith name Path.sepString.
Proof.
  intro H. induction a as [|c a IH]; [reflexivity|].
  cbn [String.append]. rewrite endsWith_sep_cons; [assumption|].
  destruct a; [assumption | discriminate].
Qed.

Lemma endsWith_sep_simple (name : string) :
  simpleName name = true -> Js.endsWith name Path.sepString = false.
Proof.
  intro H. assert (Hn : name <> "").
  { intros ->. discriminate H. }
  apply simpleName_noSeparator in H.
  induction name as [|c s IH]; [contradiction|].
  simpl in H. apply andb_true_iff in H as [Hc Hs]. apply negb_true_iff in Hc.
  destruct s as [|d s].
  - unfold Js.endsWith. simpl. unfold Path.sep in Hc. now rewrite Hc.
  - rewrite endsWith_sep_cons by discriminate. apply IH; [assumption | discriminate].
Qed.

Lemma join_snoc (seg name : string) (segs : list string) :
  Js.join Path.sepString ((seg :: segs) ++ [name])
  = Js.join Path.sepString (seg :: segs) +++ Path.sepString +++ name.
Proof.
  unfold Js.join. revert seg. induction segs as [|s segs IH]; intro seg; [reflexivity|].
  change ((seg :: s :: segs) ++ [name]) with (seg :: ((s :: segs) ++ [name])).
  cbn [String.concat app]. cbn [String.concat app] in IH.
  rewrite IH. now rewrite !append_assoc.
Qed.

(** Joining a simple name to such a path adds one segment. *)
Lemma join_pathOf (seg name : string) (segs : list string) :
  Forall (fun s => simpleName s = true) (seg :: segs) ->
  simpleName name = true ->
  Path.join [pathOf (seg :: segs); name] = pathOf ((seg :: segs) ++ [name]).
Proof.
  intros H Hn.
  assert (Hne : name <> "") by (intros ->; discriminate Hn).
  assert (Hall : Forall (fun s => simpleName s = true) (seg :: (segs ++ [name]))).
  { change (seg :: (segs ++ [name])) with ((seg :: segs) ++ [name]).
    apply Forall_app. split; [assumption | now constructor]. }
  assert (P : pathOf (seg :: segs) +++ Path.sepString +++ name
              = pathOf ((seg :: segs) ++ [name])).
  { unfold pathOf. now rewrite join_snoc, !append_assoc. }
  unfold Path.join. cbn [filter].
  change (negb (String.eqb (pathOf (seg :: segs)) "")) with true. cbv iota.
  apply String.eqb_neq in Hne. rewrite Hne. cbn [negb].
  change (Js.join Path.sepString [pathOf (seg :: segs); name])
    with (pathOf (seg :: segs) +++ Path.sepString +++ name).
  unfold Path.normalize. cbv zeta.
  replace (Js.endsWith (pathOf (seg :: segs) +++ Path.sepString +++ name) Path.sepString)
    with false.
  2:{ rewrite <- append_assoc, endsWith_sep_append by now apply String.eqb_neq.
      symmetry. now apply endsWith_sep_simple. }
  rewrite P. unfold Path.normalizeString.
  change ((seg :: segs) ++ [name]) with (seg :: (segs ++ [name])).
  assert (E1 : String.eqb (pathOf (seg :: segs ++ [name])) "" = false) by reflexivity.
  assert (E2 : Path.isAbsolute (pathOf (seg :: segs ++ [name])) = true).
  { unfold Path.isAbsolute, Js.startsWith, pathOf. simpl.
    match goal with |- String.prefix "" ?s = true => now destruct s end. }
  rewrite E1, E2. cbn [negb].
  rewrite normalizeSegments_pathOf by assumption.
  destruct seg as [|c seg].
  - inversion H as [|? ? Hs _]. discriminate Hs.
  - unfold pathOf. cbn [Js.join String.concat]. 
    destruct (segs ++ [name]); simpl; now rewrite ?append_empty_r.
Qed.

End PathFacts.

Section EntryInduction.
Variable P : Fs.entry -> Prop.
Hypothesis file_case : forall parsed, P (Fs.File parsed).
Hypothesis special_case : P Fs.Special.
Hypothesis directory_case :
  forall entries, Forall (fun ne => P (snd ne)) entries -> P (Fs.Directory entries).

(** Induction on a file-system tree from all the entries of a directory. *)
Fixpoint entry_child_ind (e : Fs.entry) : P e :=
  match e with
  | Fs.File parsed => file_case parsed
  | Fs.Special => special_case
  | Fs.Directory entries =>
      directory_case
        ((fix all (l : list (string * Fs.entry)) : Forall (fun ne => P (snd ne)) l :=
            match l with
            | [] => Forall_nil _
            | (n, c) :: r => Forall_cons (n, c) (entry_child_ind c) (all r)
            end) entries)
  end.
End EntryInduction.

Section TreeFacts.

Lemma wellFormed_directory (entries : list (string * Fs.entry)) :
  wellFormed (Fs.Directory entries) <->
  NoDup (map fst entries) /\
  Forall (fun ne => simpleName (fst ne) = true /\ wellFormed (snd ne)) entries.
Proof.
  cbn [wellFormed]. apply and_iff_compat_l.
  induction entries as [|[n c] rest IH].
  - split; [constructor | trivial].
  - rewrite Forall_cons_iff, <- IH. simpl. tauto.
Qed.

Lemma assoc_unique (n : string) (c : Fs.entry) (pre post : list (string * Fs.entry)) :
  NoDup (map fst (pre ++ (n, c) :: post)) ->
  Fs.assoc n (pre ++ (n, c) :: post) = Some c.
Proof.
  induction pre as [|[n' c'] pre IH]; intro H; simpl.
  - now rewrite String.eqb_refl.
  - simpl in H. inversion H as [|? ? Hnot Hrest]; subst.
    destruct (String.eqb_spec n' n) as [->|_]; [|now apply IH].
    exfalso. apply Hnot. rewrite map_app, in_app_iff. right. now left.
Qed.

Lemma lookupSegments_app (e : Fs.entry) (a b : list string) :
  Fs.lookupSegments e (a ++ b) =
  match Fs.lookupSegments e a with
  | Some d => Fs.lookupSegments d b
  | None => None
  end.
Proof.
  revert e. induction a as [|s a IH]; intro e; [reflexivity|].
  simpl. destruct e as [|entries|]; try reflexivity.
  destruct (Fs.assoc s entries); [apply IH | reflexivity].
Qed.

Lemma assoc_in (n : string) (c : Fs.entry) (entries : list (string * Fs.entry)) :
  Fs.assoc n entries = Some c -> In (n, c) entries.
Proof.
  induction entries as [|[n' c'] rest IH]; simpl; [discriminate|].
  destruct (String.eqb_spec n' n) as [->|_].
  - intro H. injection H as ->. now left.
  - intro H. right. now apply IH.
Qed.

(** Whatever is found in a well-formed tree is well-formed. *)
Lemma wellFormed_lookupSegments (segs : list string) (e d : Fs.entry) :
  wellFormed e -> Fs.lookupSegments e segs = Some d -> wellFormed d.
Proof.
  revert e. induction segs as [|s segs IH]; intros e W L; simpl in L.
  - now injection L as <-.
  - destruct e as [|entries|]; try discriminate L.
    destruct (Fs.assoc s entries) as [c|] eqn:A; [|discriminate L].
    apply IH with (e := c); [|assumption].
    apply wellFormed_directory in W as [_ W].
    apply assoc_in in A. rewrite Forall_forall in W. now apply (W (s, c)).
Qed.

Variable top : Fs.entry.

(** The files that [listFilesRecursive] pushes are found again, as
    files, when they are read through their paths. *)
Lemma filesUnder_found (e : Fs.entry) :
  forall (seg : string) (segs : list string) (out : list string) (fp : string),
    wellFormed e ->
    Forall (fun s => simpleName s = true) (seg :: segs) ->
    Fs.lookupSegments top (seg :: segs) = Some e ->
    In fp (Structure.filesUnder (pathOf (seg :: segs)) e out) ->
    In fp out \/ exists parsed, Fs.lookup top fp = Some (Fs.File parsed).
Proof.
  induction e as [parsed | | entries IH] using entry_child_ind;
    intros seg segs out fp W S L Hin; try (now left).
  apply wellFormed_directory in W as [Wn Wf].
  cbn [Structure.filesUnder] in Hin.
  match type of Hin with In _ (?each entries out) => set (loop := each) in Hin end.
  assert (G : forall rest pre out0,
             entries = pre ++ rest ->
             In fp (loop rest out0) ->
             In fp out0 \/ exists parsed, Fs.lookup top fp = Some (Fs.File parsed)).
  { induction rest as [|[name child] rest IHrest]; intros pre out0 E H0; [now left|].
    assert (Hin' : In (name, child) entries).
    { rewrite E, in_app_iff. right. now left. }
    rewrite Forall_forall in Wf, IH.
    destruct (Wf _ Hin') as [Wname Wchild]. pose proof (IH _ Hin') as IHchild.
    cbn [fst snd] in Wname, Wchild, IHchild.
    assert (S' : Forall (fun s => simpleName s = true) (seg :: (segs ++ [name]))).
    { change (seg :: (segs ++ [name])) with ((seg :: segs) ++ [name]).
      apply Forall_app. split; [assumption | now constructor]. }
    assert (J : Path.join [pathOf (seg :: segs); name] = pathOf (seg :: (segs ++ [name])))
      by now apply join_pathOf.
    assert (L' : Fs.lookupSegments top (seg :: (segs ++ [name])) = Some child).
    { change (seg :: (segs ++ [name])) with ((seg :: segs) ++ [name]).
      rewrite lookupSegments_app, L. cbn [Fs.lookupSegments].
      rewrite E, assoc_unique; [reflexivity|]. now rewrite <- E. }
    assert (E' : entries = (pre ++ [(name, child)]) ++ rest).
    { now rewrite <- app_assoc. }
    destruct child as [parsed | sub | ];
      cbv beta iota zeta fix delta [loop] in H0; fold loop in H0; rewrite ?J in H0.
    - apply (IHrest _ _ E') in H0 as [H0|H0]; [|now right].
      apply in_app_or in H0 as [H0|[<-|[]]]; [now left|].
      right. exists parsed. unfold Fs.lookup.
      now rewrite normalizeSegments_pathOf.
    - destruct (skippedDirectory name); [now apply (IHrest _ _ E') in H0|].
      apply (IHrest _ _ E') in H0 as [H0|H0]; [|now right].
      now apply (IHchild seg (segs ++ [name]) out0 fp).
    - now apply (IHrest _ _ E') in H0. }
  now apply (G entries [] out).
Qed.

End TreeFacts.

(** On a well-formed file system, the sources listed under a directory
    can all be read. *)
Lemma listed_sources_readable (h : Host) (seg : string) (segs listed : list string) :
  wellFormed (root h) ->
  Forall (fun s => simpleName s = true) (seg :: segs) ->
  Structure.listFilesRecursive h (pathOf (seg :: segs)) = Some listed ->
  forall fp, In fp listed -> Fs.parseSource (root h) fp <> None.
Proof.
  intros W S Hl fp Hin. unfold Structure.listFilesRecursive, Fs.lookup in Hl.
  rewrite normalizeSegments_pathOf in Hl by assumption.
  destruct (Fs.lookupSegments (root h) (seg :: segs)) as [[|entries|]|] eqn:L;
    try discriminate Hl.
  injection Hl as <-.
  change (In fp (Structure.filesUnder (pathOf (seg :: segs)) (Fs.Directory entries) []))
    in Hin.
  apply filesUnder_found with (top := root h) (seg := seg) (segs := segs) in Hin;
    [|now apply (@wellFormed_lookupSegments _ _ _ W L)|assumption|assumption].
  destruct Hin as [[]|[parsed F]]. unfold Fs.parseSource. now rewrite F.
Qed.

(** On a well-formed file system where the paths of the workspace lead
    to entries of the expected kind, no read of the Structure Checker
    throws. *)
Lemma wellFormed_sourcesReadable (h : Host) (ctx : WorkspaceContext)
      (seg : string) (segs : list string) :
  wellFormed (root h) ->
  Forall (fun s => simpleName s = true) (seg :: segs) ->
  appRoot ctx = pathOf (seg :: segs) ->
  fileIfThere h (appRoutesFile ctx) ->
  directoryIfThere h (featuresDir ctx) ->
  directoryIfThere h (appRoot ctx) ->
  (forall f, fileIfThere h (Path.join [Path.join [featuresDir ctx; f]; f +++ ".routes.ts"])) ->
  sourcesReadable h ctx.
Proof.
  intros W S A Fr Df Da Ff. unfold fileIfThere, directoryIfThere in *.
  split; [|split; [|split]].
  - unfold Fs.existsSync, Fs.parseSource.
    destruct (Fs.lookup (root h) (appRoutesFile ctx)) as [[| |]|];
      try discriminate; contradiction.
  - unfold Fs.existsSync, Fs.readdirSync.
    destruct (Fs.lookup (root h) (featuresDir ctx)) as [[| |]|];
      try discriminate; contradiction.
  - intros names f _ _ E. specialize (Ff f). unfold Fs.existsSync in E.
    unfold Fs.parseSource.
    match type of Ff with
    | match ?l with _ => _ end => destruct l as [[| |]|]
    end; [discriminate | contradiction | contradiction | discriminate E].
  - intro E. unfold Fs.existsSync in E.
    destruct (Structure.listFilesRecursive h (appRoot ctx)) as [listed|] eqn:Hl.
    + exists listed. split; [reflexivity|]. rewrite A in Hl.
      now apply (listed_sources_readable h W S Hl).
    + exfalso. unfold Structure.listFilesRecursive in Hl.
      destruct (Fs.lookup (root h) (appRoot ctx)) as [[| |]|];
        try discriminate; contradiction.
Qed.

Example shipped_well_formed :
  wellFormed (root Samples.shipped) /\
  appRoot Samples.ctx = pathOf ["ws"; "src"; "app"].
Proof.
  split; [|reflexivity].
  simpl. repeat (split; try (repeat constructor; simpl; intuition discriminate)).
Qed.

(** * Further properties of the checkers *)

(** ** Searches over the syntax tree *)

Lemma visited_within (descend : node -> bool) (d n : node) :
  visited descend d n -> within d n.
Proof.
  induction 1 as [|n c _ Hin _ IH]; [constructor|].
  eapply within_child; eassumption.
Qed.

(** A visitor that appends to a list what it collects at each node. *)
Section Collector.
Variable A : Type.
Variable collect : node -> list A.
Variable descend : node -> bool.
Variable f : node -> list A -> list A * bool.
Hypothesis f_eq : forall n acc, f n acc = (acc ++ collect n, descend n).

Lemma collector_app (n : node) (acc : list A) :
  walk f n acc = acc ++ walk f n [].
Proof.
  revert acc. induction n as [n IH] using node_child_ind. intro acc.
  rewrite (walk_eq f n acc), (walk_eq f n []), !f_eq. cbn [app].
  destruct (descend n); [|reflexivity].
  generalize (collect n). unfold walkChildren.
  induction IH as [|c r Hc _ IHr]; intro l; cbn [fold_left]; [reflexivity|].
  rewrite (Hc (acc ++ l)), (Hc l), <- app_assoc. apply IHr.
Qed.

Lemma collector_children (l : list node) (acc : list A) :
  walkChildren f l acc = acc ++ flat_map (fun c => walk f c []) l.
Proof.
  revert acc. induction l as [|c r IH]; intro acc; cbn [flat_map].
  - unfold walkChildren. simpl. now rewrite app_nil_r.
  - rewrite walkChildren_cons, IH, collector_app. now rewrite app_assoc.
Qed.

(** What is collected is what the visited nodes give, no more, no less. *)
Lemma collector_spec (n : node) (x : A) :
  In x (walk f n []) <-> exists d, visited descend d n /\ In x (collect d).
Proof.
  induction n as [n IH] using node_child_ind.
  rewrite walk_eq, f_eq. cbn [app].
  destruct (descend n) eqn:D.
  - rewrite collector_children, in_app_iff, in_flat_map. split.
    + intros [H|(c & Hc & H)].
      * exists n. split; [constructor | assumption].
      * rewrite Forall_forall in IH. apply (IH c Hc) in H as (d & Hv & Hx).
        exists d. split; [|assumption]. now apply visited_child with (c := c).
    + intros (d & Hv & Hx). inversion Hv as [|? c _ Hc Hv']; subst.
      * now left.
      * right. exists c. split; [assumption|].
        rewrite Forall_forall in IH. apply (IH c Hc). eauto.
  - split.
    + intro H. exists n. split; [constructor | assumption].
    + intros (d & Hv & Hx). inversion Hv as [|? c D' _ _]; subst; [assumption|].
      congruence.
Qed.
End Collector.

(** A visitor that keeps the first thing it picks and then stops. *)
Section FirstHit.
Variable A : Type.
Variable pick : node -> option A.
Variable descend : node -> bool.
Variable f : node -> option A -> option A * bool.
Hypothesis kept : forall n a, f n (Some a) = (Some a, false).
Hypothesis fresh : forall n, fst (f n None) = pick n.
Hypothesis goes_on : forall n, pick n = None -> snd (f n None) = descend n.

Lemma first_hit_kept (n : node) (a : A) : walk f n (Some a) = Some a.
Proof. rewrite walk_eq, kept. reflexivity. Qed.

Lemma first_hit_children_kept (l : list node) (a : A) :
  walkChildren f l (Some a) = Some a.
Proof.
  induction l as [|c r IH]; [reflexivity|].
  now rewrite walkChildren_cons, first_hit_kept.
Qed.

Lemma first_hit_some (n : node) (a : A) :
  walk f n None = Some a -> exists d, visited descend d n /\ pick d = Some a.
Proof.
  induction n as [n IH] using node_child_ind.
  rewrite walk_eq. pose proof (fresh n) as F. pose proof (@goes_on n) as G.
  destruct (f n None) as [s1 go]. cbn [fst snd] in F, G. subst s1.
  destruct (pick n) as [b|] eqn:P.
  - intro H. assert (b = a) as ->.
    { destruct go; [rewrite first_hit_children_kept in H|]; congruence. }
    exists n. split; [constructor | assumption].
  - rewrite (G eq_refl). destruct (descend n) eqn:D; [|discriminate].
    unfold walkChildren. intro H.
    assert (K : exists c d, In c (forEachChild n) /\ visited descend d c /\ pick d = Some a).
    { revert H. induction IH as [|c r Hc _ IHr]; cbn [fold_left]; [discriminate|].
      destruct (walk f c None) as [b|] eqn:W.
      - change (fold_left _ r (Some b)) with (walkChildren f r (Some b)).
        rewrite first_hit_children_kept. intro E. injection E as ->.
        destruct (Hc eq_refl) as (d & Hv & Hp). exists c, d. simpl; auto.
      - intro H. destruct (IHr H) as (c' & d & Hin & Hv & Hp).
        exists c', d. simpl; auto. }
    destruct K as (c & d & Hin & Hv & Hp). exists d. split; [|assumption].
    now apply visited_child with (c := c).
Qed.

Lemma first_hit_none (n : node) :
  walk f n None = None <-> forall d, visited descend d n -> pick d = None.
Proof.
  induction n as [n IH] using node_child_ind.
  rewrite walk_eq. pose proof (fresh n) as F. pose proof (@goes_on n) as G.
  destruct (f n None) as [s1 go]. cbn [fst snd] in F, G. subst s1.
  destruct (pick n) as [b|] eqn:P.
  - split.
    + intro H. destruct go; [rewrite first_hit_children_kept in H|]; discriminate.
    + intro H. specialize (H n (visited_here _ _)). congruence.
  - rewrite (G eq_refl). destruct (descend n) eqn:D.
    + assert (K : walkChildren f (forEachChild n) None = None <->
                  forall c d, In c (forEachChild n) -> visited descend d c -> pick d = None).
      { induction IH as [|c r Hc _ IHr].
        - split; [intros _ c d [] | reflexivity].
        - rewrite walkChildren_cons. destruct (walk f c None) as [b|] eqn:W.
          + rewrite first_hit_children_kept. split; [discriminate|].
            intro H. assert (Some b = None); [|discriminate].
            apply Hc. intros d Hv. apply (H c d); simpl; auto.
          + rewrite IHr. split.
            * intros H c' d [<-|Hin] Hv; [now apply (proj1 Hc eq_refl) | eauto].
            * intros H c' d Hin Hv. apply (H c' d); simpl; auto. }
      rewrite K. split.
      * intros H d Hv. inversion Hv as [|? c _ Hin Hv']; subst; [assumption | eauto].
      * intros H c d Hin Hv. apply H. now apply visited_child with (c := c).
    + split; [|reflexivity]. intros _ d Hv.
      inversion Hv as [|? c D' _ _]; subst; [assumption | congruence].
Qed.
End FirstHit.




Lemma arrayDeclarations_spec (decls : list node) (name : string) (arr : node) :
  In (name, arr) (FeatureRoutes.arrayDeclarations decls) <->
  exists ty els,
    In (VariableDeclaration (Identifier name) ty (Some (ArrayLiteralExpression els))) decls /\
    arr = ArrayLiteralExpression els.
Proof.
  unfold FeatureRoutes.arrayDeclarations. rewrite in_flat_map. split.
  - intros (decl & Hin & H).
    destruct decl as [| | | | | | |nm ty init| | | |]; try contradiction.
    destruct nm; try contradiction. destruct init as [init|]; try contradiction.
    destruct init; try contradiction. destruct H as [H|[]]. injection H as <- <-.
    eauto.
  - intros (ty & els & Hin & ->). eexists. split; [exact Hin|]. now left.
Qed.

(** X2.  The exported arrays found in a routes file are exactly the
    array literals bound to an identifier by a declaration of an
    exported variable statement that the search reaches; it never
    enters a variable statement that is not exported. *)
Theorem exported_arrays_spec (sf : node) (name : string) (arr : node) :
  In (name, arr) (FeatureRoutes.findExportedRoutesArrays sf) <->
  exists mods decls ty els,
    visited entersStatement (VariableStatement mods decls) sf /\
    isExported mods = true /\
    In (VariableDeclaration (Identifier name) ty (Some (ArrayLiteralExpression els))) decls /\
    arr = ArrayLiteralExpression els.
Proof.
  unfold FeatureRoutes.findExportedRoutesArrays.
  rewrite collector_spec with
    (collect := fun nd => match nd with
                          | VariableStatement mods decls =>
                              if isExported mods then FeatureRoutes.arrayDeclarations decls
                              else []
                          | _ => []
                          end)
    (descend := entersStatement).
  - split.
    + intros (d & Hv & Hin). destruct d; try contradiction.
      destruct (isExported modifiers) eqn:E; [|contradiction].
      apply arrayDeclarations_spec in Hin as (ty & els & Hin & ->).
      exists modifiers, declarations, ty, els. auto.
    + intros (mods & decls & ty & els & Hv & E & Hin & ->).
      exists (VariableStatement mods decls). split; [assumption|].
      rewrite E. apply arrayDeclarations_spec. eauto.
  - intros n acc. destruct n; simpl; rewrite ?app_nil_r; try reflexivity.
    destruct (isExported modifiers); simpl; now rewrite ?app_nil_r.
Qed.

Lemma routesDeclaration_some (decls : list node) (arr : node) :
  AppRoutes.routesDeclaration decls = Some arr ->
  exists ty els,
    In (VariableDeclaration (Identifier "routes") ty (Some arr)) decls /\
    arr = ArrayLiteralExpression els.
Proof.
  induction decls as [|decl decls IH]; [discriminate|]. intro H.
  assert (R : AppRoutes.routesDeclaration decls = Some arr ->
              exists ty els,
                In (VariableDeclaration (Identifier "routes") ty (Some arr)) (decl :: decls) /\
                arr = ArrayLiteralExpression els).
  { intro H'. destruct (IH H') as (ty & els & Hin & E). exists ty, els. simpl; auto. }
  destruct decl as [| | | | | | |nm ty init| | | |]; try (now apply R).
  destruct nm; try (now apply R). destruct init as [init|]; try (now apply R).
  destruct init; try (now apply R). cbn [AppRoutes.routesDeclaration] in H.
  destruct (String.eqb_spec text "routes") as [->|]; [|now apply R].
  injection H as <-. exists ty, elements. simpl; auto.
Qed.

Lemma routesDeclaration_none (decls : list node) :
  AppRoutes.routesDeclaration decls = None <->
  forall ty els,
    ~ In (VariableDeclaration (Identifier "routes") ty (Some (ArrayLiteralExpression els)))
         decls.
Proof.
  induction decls as [|decl decls IH]; [split; [intros _ ty els [] | reflexivity]|].
  assert (R : AppRoutes.routesDeclaration decls = None <->
              forall ty els,
                ~ In (VariableDeclaration (Identifier "routes") ty
                        (Some (ArrayLiteralExpression els))) decls) by exact IH.
  assert (K : (forall ty els,
                  decl <> VariableDeclaration (Identifier "routes") ty
                            (Some (ArrayLiteralExpression els))) ->
              (AppRoutes.routesDeclaration decls = None <->
               forall ty els,
                 ~ In (VariableDeclaration (Identifier "routes") ty
                         (Some (ArrayLiteralExpression els))) (decl :: decls))).
  { intro Hd. rewrite R. split.
    - intros H ty els [E|Hin]; [now apply (Hd ty els) | now apply (H ty els)].
    - intros H ty els Hin. apply (H ty els). now right. }
  destruct decl as [| | | | | | |nm ty init| | | |];
    try (apply K; intros; discriminate).
  destruct nm; try (apply K; intros; discriminate).
  destruct init as [init|]; try (apply K; intros; discriminate).
  destruct init; try (apply K; intros; discriminate).
  cbn [AppRoutes.routesDeclaration].
  destruct (String.eqb_spec text "routes") as [->|Hn].
  - split; [discriminate|]. intro H. exfalso. apply (H ty elements). now left.
  - apply K. intros ty' els' E. injection E as E _ _. contradiction.
Qed.

(** X3.  [findExportedRoutesArray] returns an array literal bound to the
    identifier [routes] by an exported variable statement the search
    reaches, and it returns nothing exactly when no such statement has
    such a declaration: an array exported under another name is not
    found. *)
Theorem exported_routes_array_spec (sf : node) :
  (forall arr,
      AppRoutes.findExportedRoutesArray sf = Some arr ->
      exists mods decls ty els,
        visited entersStatement (VariableStatement mods decls) sf /\
        isExported mods = true /\
        In (VariableDeclaration (Identifier "routes") ty (Some arr)) decls /\
        arr = ArrayLiteralExpression els) /\
  (AppRoutes.findExportedRoutesArray sf = None <->
   forall mods decls ty els,
     visited entersStatement (VariableStatement mods decls) sf ->
     isExported mods = true ->
     ~ In (VariableDeclaration (Identifier "routes") ty (Some (ArrayLiteralExpression els)))
          decls).
Proof.
  set (pick := fun nd => match nd with
                         | VariableStatement mods decls =>
                             if isExported mods then AppRoutes.routesDeclaration decls
                             else None
                         | _ => None
                         end).
  assert (K : forall n a,
             (fun nd (routesArray : option node) =>
                match routesArray with
                | Some _ => (routesArray, false)
                | None =>
                    match nd with
                    | VariableStatement mods decls =>
                        if negb (isExported mods) then (None, false)
                        else
                          match AppRoutes.routesDeclaration decls with
                          | Some arr => (Some arr, false)
                          | None => (None, true)
                          end
                    | _ => (None, true)
                    end
                end) n (Some a) = (Some a, false)) by reflexivity.
  assert (F : forall n,
             fst ((fun nd (routesArray : option node) =>
                     match routesArray with
                     | Some _ => (routesArray, false)
                     | None =>
                         match nd with
                         | VariableStatement mods decls =>
                             if negb (isExported mods) then (None, false)
                             else
                               match AppRoutes.routesDeclaration decls with
                               | Some arr => (Some arr, false)
                               | None => (None, true)
                               end
                         | _ => (None, true)
                         end
                     end) n None) = pick n).
  { intro n. destruct n; try reflexivity. simpl.
    destruct (isExported modifiers); simpl; [|reflexivity].
    now destruct (AppRoutes.routesDeclaration declarations). }
  assert (G : forall n, pick n = None ->
             snd ((fun nd (routesArray : option node) =>
                     match routesArray with
                     | Some _ => (routesArray, false)
                     | None =>
                         match nd with
                         | VariableStatement mods decls =>
                             if negb (isExported mods) then (None, false)
                             else
                               match AppRoutes.routesDeclaration decls with
                               | Some arr => (Some arr, false)
                               | None => (None, true)
                               end
                         | _ => (None, true)
                         end
                     end) n None) = entersStatement n).
  { intros n P. destruct n; try reflexivity. simpl in *.
    destruct (isExported modifiers); simpl; [|reflexivity]. now rewrite P. }
  unfold AppRoutes.findExportedRoutesArray. split.
  - intros arr H.
    apply (first_hit_some pick entersStatement _ K F G) in H as (d & Hv & Hp).
    destruct d; try discriminate Hp. simpl in Hp.
    destruct (isExported modifiers) eqn:E; [|discriminate Hp].
    apply routesDeclaration_some in Hp as (ty & els & Hin & ->).
    exists modifiers, declarations, ty, els. auto.
  - rewrite (first_hit_none pick entersStatement _ K F G). split.
    + intros H mods decls ty els Hv E. specialize (H _ Hv). simpl in H. rewrite E in H.
      now apply routesDeclaration_none.
    + intros H d Hv. destruct d; try reflexivity. simpl.
      destruct (isExported modifiers) eqn:E; [|reflexivity].
      apply routesDeclaration_none. intros ty els. now apply (H modifiers).
Qed.

(** ** App-Route Composition Checker, as a whole *)

Lemma pathValueOf_object (el : node) (p : string) :
  AppRoutes.pathValueOf el = Some p -> isObjectLiteralExpression el = true.
Proof. destruct el; try reflexivity; discriminate. Qed.

Lemma loadComponentLooksLikeNotFound_spec (init : node) :
  AppRoutes.loadComponentLooksLikeNotFound init = true
  <-> importsMatching (fun text => String.eqb text notFoundPage) init.
Proof. apply import_search. Qed.

(** An element adds no violation exactly when it is as the checker
    asks. *)
Lemma entryViolations_nil (el : node) :
  AppRoutes.entryViolations el = [] <-> entryPasses el.
Proof.
  unfold entryPasses, AppRoutes.entryViolations, AppRoutes.routeStep.
  destruct (isObjectLiteralExpression el) eqn:O; cbn [negb fst].
  2:{ split; [discriminate|]. intros (_ & p & P & _).
      apply pathValueOf_object in P. congruence. }
  destruct (objectHasProp el "component"); cbn [app].
  { split; [|intros [? _]; discriminate].
    destruct (AppRoutes.pathValueOf el) as [p|]; [|discriminate].
    destruct (String.eqb p ""), (String.eqb p "**");
      repeat match goal with
             | |- context [match ?c with Some _ => _ | None => _ end] => destruct c
             | |- context [if ?c then _ else _] => destruct c
             end; discriminate. }
  destruct (AppRoutes.pathValueOf el) as [p|].
  2:{ split; [discriminate|]. intros (_ & p & P & _). discriminate P. }
  destruct (String.eqb_spec p "") as [->|N1].
  { cbn [fst].
    destruct (objectHasProp el "redirectTo"), (objectHasProp el "pathMatch"); cbn.
    - split; [|reflexivity]. intros _. split; [reflexivity|]. exists "".
      split; [reflexivity|]. split; [intros _; split; reflexivity|].
      split; [discriminate|]. intros N; now destruct N.
    - split; [discriminate|]. intros (_ & p & P & R & _). injection P as <-.
      destruct (R eq_refl) as [_ R2]. discriminate R2.
    - split; [discriminate|]. intros (_ & p & P & R & _). injection P as <-.
      destruct (R eq_refl) as [R1 _]. discriminate R1.
    - split; [discriminate|]. intros (_ & p & P & R & _). injection P as <-.
      destruct (R eq_refl) as [R1 _]. discriminate R1. }
  destruct (String.eqb_spec p "**") as [->|N2].
  { destruct (getPropInitializer el "loadComponent") as [lc|].
    - pose proof (loadComponentLooksLikeNotFound_spec lc) as S.
      destruct (AppRoutes.loadComponentLooksLikeNotFound lc); cbn.
      + split; [|reflexivity]. intros _. split; [reflexivity|]. exists "**".
        split; [reflexivity|]. split; [discriminate|]. split.
        * intros _. exists lc. split; [reflexivity|]. now apply S.
        * intros _ N; now destruct N.
      + split; [discriminate|]. intros (_ & p & P & _ & R & _). injection P as <-.
        destruct (R eq_refl) as (lc' & E & M). injection E as <-.
        apply S in M. discriminate M.
    - cbn. split; [discriminate|]. intros (_ & p & P & _ & R & _). injection P as <-.
      destruct (R eq_refl) as (lc' & E & _). discriminate E. }
  destruct (getPropInitializer el "loadChildren") as [lch|].
  - pose proof (loadChildrenLooksLikeFeaturesImport_spec lch) as S.
    destruct (AppRoutes.loadChildrenLooksLikeFeaturesImport lch); cbn.
    + split; [|reflexivity]. intros _. split; [reflexivity|]. exists p.
      split; [reflexivity|]. split; [intros ->; contradiction|].
      split; [intros ->; contradiction|].
      intros _ _. exists lch. split; [reflexivity|]. now apply S.
    + split; [discriminate|]. intros (_ & p' & P & _ & _ & R). injection P as <-.
      destruct (R N1 N2) as (lch' & E & M). injection E as <-.
      apply S in M. discriminate M.
  - cbn. split; [discriminate|]. intros (_ & p' & P & _ & _ & R). injection P as <-.
    destruct (R N1 N2) as (lch' & E & _). discriminate E.
Qed.

Lemma flat_map_nil (A B : Type) (g : A -> list B) (l : list A) :
  flat_map g l = [] <-> forall x, In x l -> g x = [].
Proof.
  induction l as [|a l IH]; cbn [flat_map].
  - split; [intros _ x [] | reflexivity].
  - split.
    + intros H x [<-|Hin]; apply app_eq_nil in H as [H1 H2]; [assumption|].
      now apply IH.
    + intro H. rewrite (H a (or_introl eq_refl)). apply IH. intros x Hx. apply H. now right.
Qed.

(** X4.  A route array passes the App-Route Composition Checker exactly
    when it has exactly one wildcard entry and every element is an
    object literal without [component] whose literal [path] comes with
    what its kind calls for: [''] with [redirectTo] and [pathMatch],
    ['**'] with a [loadComponent] importing the not-found page, any
    other path with a [loadChildren] importing [./features/...routes]. *)
Theorem app_routes_pass (arr : node) :
  AppRoutes.violations arr = [] <->
  AppRoutes.wildcardEntries arr = 1 /\
  forall el, In el (elementsOf arr) -> entryPasses el.
Proof.
  rewrite violations_eq. split.
  - intro H. apply app_eq_nil in H as [H1 H2].
    destruct (Nat.eqb_spec (AppRoutes.wildcardEntries arr) 1) as [E|E]; [|discriminate H2].
    split; [assumption|]. intros el Hel. apply entryViolations_nil.
    now apply (proj1 (flat_map_nil _ _) H1).
  - intros [E H]. rewrite E. cbn [Nat.eqb]. rewrite app_nil_r.
    apply flat_map_nil. intros el Hel. apply entryViolations_nil. now apply H.
Qed.

(** X5.  A run of the App-Route Composition Checker that ends exits
    with status 0 or 1.  It exits with 0, having written one line to the
    standard output and nothing to the error stream, exactly when the
    route file can be parsed, exports [routes] and shows no violation;
    otherwise it writes to the error stream only. *)
Theorem app_routes_exit (h : Host) (ctx : WorkspaceContext) (o : Outcome) :
  AppRoutes.main h ctx = Some o ->
  (exitCode o = 0 <->
   exists sf arr,
     Fs.parseSource (root h) (appRoutesFile ctx) = Some sf /\
     AppRoutes.findExportedRoutesArray sf = Some arr /\
     AppRoutes.violations arr = []) /\
  (exitCode o = 0 /\ length (stdout o) = 1 /\ stderr o = [] \/
   exitCode o = 1 /\ stdout o = [] /\ stderr o <> []).
Proof.
  unfold AppRoutes.main, AppRoutes.die. intro M.
  destruct (Fs.existsSync (root h) (appRoutesFile ctx)) eqn:X; cbn [negb] in M.
  2:{ injection M as <-. cbn. split; [|right; split; [reflexivity|split; [reflexivity|discriminate]]].
      split; [discriminate|]. intros (sf & arr & P & _).
      unfold Fs.existsSync in X. unfold Fs.parseSource in P.
      destruct (Fs.lookup (root h) (appRoutesFile ctx)); discriminate. }
  destruct (Fs.parseSource (root h) (appRoutesFile ctx)) as [sf|]; [|discriminate M].
  cbn [bindThrow] in M.
  destruct (AppRoutes.findExportedRoutesArray sf) as [arr|] eqn:F0.
  2:{ injection M as <-. cbn. split; [|right; split; [reflexivity|split; [reflexivity|discriminate]]].
      split; [discriminate|]. intros (sf' & arr & P & F & _). injection P as <-.
      congruence. }
  injection M as <-. unfold AppRoutes.report.
  destruct (AppRoutes.violations arr) as [|e errors] eqn:V; cbn.
  - split; [|left; split; [reflexivity|split; reflexivity]]. split; [|reflexivity]. intros _. exists sf, arr. auto.
  - split; [|right; split; [reflexivity|split; [reflexivity|discriminate]]].
    split; [discriminate|]. intros (sf' & arr' & P & F & V'). injection P as <-.
    congruence.
Qed.

Lemma app_routes_exit_witness :
  AppRoutes.main Samples.shipped Samples.ctx
  = Some (mkOutcome 0 ["OK: app.routes.ts verified (src/app/app.routes.ts)."] []) /\
  (0 = 0 <->
   exists sf arr,
     Fs.parseSource (root Samples.shipped) (appRoutesFile Samples.ctx) = Some sf /\
     AppRoutes.findExportedRoutesArray sf = Some arr /\
     AppRoutes.violations arr = []).
Proof.
  assert (H : AppRoutes.main Samples.shipped Samples.ctx
              = Some (mkOutcome 0 ["OK: app.routes.ts verified (src/app/app.routes.ts)."] []))
    by reflexivity.
  split; [exact H|].
  exact (proj1 (@app_routes_exit Samples.shipped Samples.ctx _ H)).
Defined.

(** ** Feature-Route Provider Checker, as a whole *)

Lemma nil_iff_no_member (A : Type) (l : list A) : l = [] <-> forall x, ~ In x l.
Proof.
  destruct l as [|a l]; split; try reflexivity; try discriminate.
  - intros _ x [].
  - intro H. destruct (H a). now left.
Qed.

Lemma path_literal_empty (el : node) :
  Js.isString (match getPropInitializer el "path" with
               | Some p => getStringValue p
               | None => None
               end) "" = true
  <-> getPropInitializer el "path" = Some (StringLiteral "").
Proof.
  destruct (getPropInitializer el "path") as [p|]; [|split; discriminate].
  destruct p; simpl; try (split; discriminate).
  rewrite String.eqb_eq. split; [now intros -> | intro H; now injection H].
Qed.

(** An element adds no violation exactly when it is as the checker
    asks. *)
Lemma elementStep_nil (filePath exName : string) (el : node) (idx : nat) :
  FeatureRoutes.elementStep filePath exName el idx [] = [] <-> routePasses idx el.
Proof.
  rewrite elementStep_eq. cbn [app]. unfold routePasses.
  destruct (isObjectLiteralExpression el); [|split; [discriminate | intros [? _]; discriminate]].
  destruct (objectHasProp el "component"); cbn [app];
    [split; [discriminate | intros (_ & ? & _); discriminate]|].
  assert (L : match getPropInitializer el "loadComponent" with
              | Some lc =>
                  if FeatureRoutes.loadComponentImportsPage lc then []
                  else [FeatureRoutes.loadComponentPage filePath exName]
              | None => []
              end = [] <->
              forall lc, getPropInitializer el "loadComponent" = Some lc ->
                         importsMatching (fun text => Js.endsWith text ".page") lc).
  { destruct (getPropInitializer el "loadComponent") as [lc|]; [|split; [discriminate|reflexivity]].
    pose proof (loadComponentImportsPage_spec lc) as S.
    destruct (FeatureRoutes.loadComponentImportsPage lc).
    - split; [|reflexivity]. intros _ lc' E. injection E as <-. now apply S.
    - split; [discriminate|]. intro H. specialize (H lc eq_refl). apply S in H. discriminate. }
  destruct idx as [|idx]; cbn [Nat.eqb app].
  - rewrite firstRouteChecks_eq. cbn [app].
    pose proof (path_literal_empty el) as P.
    destruct (Js.isString _ ""); cbn [app].
    2:{ split; [discriminate|]. intros (_ & _ & _ & H). destruct (H eq_refl) as [H1 _].
        apply P in H1. discriminate. }
    destruct (objectHasProp el "providers"); cbn [app].
    2:{ split; [discriminate|]. intros (_ & _ & _ & H). destruct (H eq_refl) as (_ & H2 & _).
        discriminate. }
    destruct (objectHasProp el "loadComponent") eqn:LC; cbn [orb app].
    + destruct (getPropInitializer el "loadComponent") as [lc|] eqn:G.
      * destruct (FeatureRoutes.loadComponentImportsPage lc); cbn [app].
        -- rewrite <- L. split; [|reflexivity]. intros _.
           repeat split; [now apply P | now left].
        -- split; [discriminate|]. intros (_ & _ & H & _). apply L in H. discriminate.
      * cbn [app]. split; [|reflexivity]. intros _.
        split; [reflexivity|]. split; [reflexivity|]. split; [intros lc E; discriminate|].
        intros _. split; [now apply P|]. split; [reflexivity | now left].
    + destruct (objectHasProp el "loadChildren"); cbn [app].
      * rewrite L. split.
        -- intro H. split; [reflexivity|]. split; [reflexivity|]. split; [assumption|].
           intros _. split; [now apply P|]. split; [reflexivity | now right].
        -- now intros (_ & _ & H & _).
      * split; [discriminate|]. intros (_ & _ & _ & H).
        destruct (H eq_refl) as (_ & _ & [H3|H3]); discriminate.
  - rewrite L. split.
    + intro H. split; [reflexivity|]. split; [reflexivity|]. split; [assumption|]. discriminate.
    + now intros (_ & _ & H & _).
Qed.

Lemma exportViolations_nil (filePath : string) (ex : string * node) :
  FeatureRoutes.exportViolations filePath ex = [] <->
  elementsOf (snd ex) <> [] /\
  forall idx el, nth_error (elementsOf (snd ex)) idx = Some el -> routePasses idx el.
Proof.
  unfold FeatureRoutes.exportViolations, FeatureRoutes.exportStep.
  destruct (elementsOf (snd ex)) as [|e0 els] eqn:E.
  - cbn. split; [discriminate | intros [H _]; now destruct H].
  - cbn [length Nat.eqb app]. rewrite nil_iff_no_member. split.
    + intro H. split; [discriminate|]. intros idx el Hn.
      apply (elementStep_nil filePath (fst ex)). apply nil_iff_no_member. intros m Hm.
      apply (H m). apply in_forEachFrom. exists idx, el. auto.
    + intros [_ H] m Hm. apply in_forEachFrom in Hm as (k & el & Hn & Hm).
      apply H in Hn. apply (elementStep_nil filePath (fst ex)) in Hn. cbn [Nat.add] in Hm.
      rewrite Hn in Hm. destruct Hm.
Qed.

Lemma validateSource_nil (filePath : string) (sf : node) :
  FeatureRoutes.validateSource filePath sf = [] <->
  FeatureRoutes.findExportedRoutesArrays sf <> [] /\
  forall ex, In ex (FeatureRoutes.findExportedRoutesArrays sf) ->
             elementsOf (snd ex) <> [] /\
             forall idx el, nth_error (elementsOf (snd ex)) idx = Some el -> routePasses idx el.
Proof.
  unfold FeatureRoutes.validateSource.
  destruct (FeatureRoutes.findExportedRoutesArrays sf) as [|ex0 exported].
  - cbn. split; [discriminate | intros [H _]; now destruct H].
  - cbn [length Nat.eqb]. rewrite fold_exportStep. cbn [app]. rewrite flat_map_nil. split.
    + intro H. split; [discriminate|]. intros ex Hex. apply (exportViolations_nil filePath).
      now apply H.
    + intros [_ H] ex Hex. apply exportViolations_nil. now apply H.
Qed.

(** X6.  A routes file passes the Feature-Route Provider Checker exactly
    when it exports at least one array and every exported array is
    non-empty and made of object literals without [component], whose
    [loadComponent], when there is one, imports a [.page] file, the first
    one having moreover [path: ''], [providers] and [loadComponent] or
    [loadChildren]. *)
Theorem feature_routes_pass (filePath : string) (sf : node) :
  FeatureRoutes.validateSource filePath sf = [] <->
  FeatureRoutes.findExportedRoutesArrays sf <> [] /\
  forall ex, In ex (FeatureRoutes.findExportedRoutesArrays sf) ->
             elementsOf (snd ex) <> [] /\
             forall idx el, nth_error (elementsOf (snd ex)) idx = Some el -> routePasses idx el.
Proof. apply validateSource_nil. Qed.

Lemma routeObjectHasProviders_eq (routeObj : node) :
  Structure.routeObjectHasProviders routeObj = objectHasProp routeObj "providers".
Proof.
  unfold Structure.routeObjectHasProviders, objectHasProp.
  induction (propertiesOf routeObj) as [|p props IH]; [reflexivity|].
  destruct p; try exact IH. cbn [existsb].
  destruct (Js.isString (getPropName p1) "providers"); [reflexivity | exact IH].
Qed.

(** X7.  The provider check of the Structure Checker asks no more than
    the Feature-Route Provider Checker: a routes file that passes the
    latter passes the former. *)
Theorem provider_checks_agree (h : Host) (featureDir featureName : string) (sf : node) :
  Fs.parseSource (root h) (Path.join [featureDir; featureName +++ ".routes.ts"]) = Some sf ->
  FeatureRoutes.validateSource (Path.join [featureDir; featureName +++ ".routes.ts"]) sf = [] ->
  Structure.verifyFeatureRouteProviders h featureDir featureName = Some [].
Proof.
  intros P V. unfold Structure.verifyFeatureRouteProviders. cbv zeta.
  assert (X : Structure.exists_ h (Path.join [featureDir; featureName +++ ".routes.ts"]) = true).
  { unfold Structure.exists_, Fs.existsSync. unfold Fs.parseSource in P.
    now destruct (Fs.lookup (root h) _). }
  rewrite X, P. cbn [negb bindThrow].
  apply validateSource_nil in V as [Hne Hall].
  unfold Structure.findExportedRoutesArrays.
  destruct (FeatureRoutes.findExportedRoutesArrays sf) as [|ex0 exported] eqn:E;
    [now destruct Hne|].
  cbn [length Nat.eqb]. f_equal.
  assert (G : forall l acc,
             (forall ex, In ex l -> In ex (ex0 :: exported)) ->
             fold_left
               (fun errors ex =>
                  let exportPrefix :=
                    Path.join [featureDir; featureName +++ ".routes.ts"] +++ " export "
                    +++ Js.dq +++ fst ex +++ Js.dq in
                  match elementsOf (snd ex) with
                  | first :: _ =>
                      if negb (isObjectLiteralExpression first) then
                        errors ++ [exportPrefix +++ " must start with a route object."]
                      else if negb (Structure.routeObjectHasProviders first) then
                        errors
                        ++ [exportPrefix +++ " first route must declare providers: [ ... ]."]
                      else errors
                  | [] => errors ++ [exportPrefix +++ " must start with a route object."]
                  end) l acc = acc).
  { induction l as [|ex l IH]; intros acc Hsub; [reflexivity|].
    cbn [fold_left]. destruct (Hall ex (Hsub ex (or_introl eq_refl))) as [Hn Hp].
    destruct (elementsOf (snd ex)) as [|first rest]; [now destruct Hn|].
    destruct (Hp 0 first eq_refl) as (O & _ & _ & F). destruct (F eq_refl) as (_ & Pr & _).
    cbv zeta. rewrite O, routeObjectHasProviders_eq, Pr. cbn [negb].
    apply IH. intros ex' Hin. apply Hsub. now right. }
  apply G. auto.
Qed.

Lemma provider_checks_agree_witness :
  Fs.parseSource (root Samples.shipped)
    (Path.join ["/ws/src/app/features/home"; "home" +++ ".routes.ts"])
  = Some Samples.homeRoutesSource /\
  FeatureRoutes.validateSource
    (Path.join ["/ws/src/app/features/home"; "home" +++ ".routes.ts"])
    Samples.homeRoutesSource = [] /\
  Structure.verifyFeatureRouteProviders Samples.shipped "/ws/src/app/features/home" "home"
  = Some [].
Proof.
  assert (H1 : Fs.parseSource (root Samples.shipped)
                 (Path.join ["/ws/src/app/features/home"; "home" +++ ".routes.ts"])
               = Some Samples.homeRoutesSource) by reflexivity.
  assert (H2 : FeatureRoutes.validateSource
                 (Path.join ["/ws/src/app/features/home"; "home" +++ ".routes.ts"])
                 Samples.homeRoutesSource = []) by reflexivity.
  split; [exact H1|]. split; [exact H2|].
  exact (@provider_checks_agree Samples.shipped _ _ _ H1 H2).
Defined.

Lemma checkFeatures_nil (h : Host) (ctx : WorkspaceContext) (features : list string) :
  forall errors result,
    FeatureRoutes.checkFeatures h (featuresDir ctx) features errors = Some result ->
    (result = [] <->
     errors = [] /\
     forall f, In f features ->
               Fs.existsSync (root h) (routesFileOf ctx f) = true /\
               FeatureRoutes.validateFeatureRoutesFile h (routesFileOf ctx f) = Some []).
Proof.
  induction features as [|f features IH]; intros errors result H; cbn in H.
  - injection H as <-. split; [intro E; split; [assumption | intros f []] | now intros [E _]].
  - fold (routesFileOf ctx f) in H.
    destruct (Fs.existsSync (root h) (routesFileOf ctx f)) eqn:X; cbn [negb] in H.
    + destruct (FeatureRoutes.validateFeatureRoutesFile h (routesFileOf ctx f))
        as [found|] eqn:V; [|discriminate H].
      cbn [bindThrow] in H. rewrite (IH _ _ H). split.
      * intros [E Hall]. apply app_eq_nil in E as [-> ->]. split; [reflexivity|].
        intros g [<-|Hg]; [auto | now apply Hall].
      * intros [-> Hall]. destruct (Hall f (or_introl eq_refl)) as [_ V'].
        rewrite V in V'. injection V' as ->. split; [reflexivity|].
        intros g Hg. apply Hall. now right.
    + rewrite (IH _ _ H). split.
      * intros [E _]. now destruct errors.
      * intros [_ Hall]. destruct (Hall f (or_introl eq_refl)) as [X' _]. congruence.
Qed.

(** X8.  A run of the Feature-Route Provider Checker that ends exits
    with status 0 exactly when every directory listed under the features
    root has its routes file and that file passes; otherwise it exits
    with status 1 and writes to the error stream only. *)
Theorem feature_routes_exit (h : Host) (ctx : WorkspaceContext) (o : Outcome) :
  FeatureRoutes.main h ctx = Some o ->
  exists features,
    FeatureRoutes.listFeatureNames h (featuresDir ctx) = Some features /\
    (exitCode o = 0 <->
     forall f, In f features ->
               Fs.existsSync (root h) (routesFileOf ctx f) = true /\
               FeatureRoutes.validateFeatureRoutesFile h (routesFileOf ctx f) = Some []) /\
    (exitCode o = 0 /\ length (stdout o) = 1 /\ stderr o = [] \/
     exitCode o = 1 /\ stdout o = [] /\ stderr o <> []).
Proof.
  unfold FeatureRoutes.main. intro M.
  destruct (FeatureRoutes.listFeatureNames h (featuresDir ctx)) as [features|];
    [|discriminate M].
  cbn [bindThrow] in M. exists features. split; [reflexivity|].
  destruct (FeatureRoutes.checkFeatures h (featuresDir ctx) features []) as [errors|] eqn:C;
    [|discriminate M].
  cbn [bindThrow] in M. pose proof (checkFeatures_nil _ _ _ _ C) as N.
  destruct errors as [|e errors]; cbn in M; injection M as <-; cbn.
  - split; [|left; split; [reflexivity|split; reflexivity]].
    split; [|reflexivity]. intros _. now apply N.
  - split; [|right; split; [reflexivity|split; [reflexivity|discriminate]]].
    split; [discriminate|]. intro H. assert (e :: errors = []); [|discriminate].
    apply N. auto.
Qed.

Lemma feature_routes_exit_witness :
  FeatureRoutes.main Samples.shipped Samples.ctx
  = Some (mkOutcome 0
            ["OK: feature routes verified (1 feature(s)) for src/app/features."] []) /\
  exists features,
    FeatureRoutes.listFeatureNames Samples.shipped (featuresDir Samples.ctx)
    = Some features.
Proof.
  assert (H : FeatureRoutes.main Samples.shipped Samples.ctx
              = Some (mkOutcome 0
                        ["OK: feature routes verified (1 feature(s)) for src/app/features."]
                        [])) by reflexivity.
  split; [exact H|].
  destruct (@feature_routes_exit Samples.shipped Samples.ctx _ H) as (features & L & _).
  exists features. exact L.
Defined.

(** ** Suffixes *)

Lemma substring_all (s : string) : String.substring 0 (String.length s) s = s.
Proof. induction s as [|c s IH]; simpl; [reflexivity | now rewrite IH]. Qed.

Lemma substring_skip (a p : string) :
  String.substring (String.length a) (String.length p) (a +++ p) = p.
Proof. induction a as [|c a IH]; simpl; [apply substring_all | exact IH]. Qed.

Lemma substring_split (n : nat) (s : string) :
  n <= String.length s ->
  s = String.substring 0 n s +++ String.substring n (String.length s - n) s.
Proof.
  revert n. induction s as [|c s IH]; intros [|n] H; simpl in *.
  - reflexivity.
  - lia.
  - now rewrite substring_all.
  - f_equal. apply IH. lia.
Qed.

(** [s.endsWith(p)] holds exactly when [s] is some text followed by [p]. *)
Lemma endsWith_spec (s p : string) :
  Js.endsWith s p = true <-> exists a, s = a +++ p.
Proof.
  unfold Js.endsWith. split.
  - destruct (Nat.leb_spec (String.length p) (String.length s)) as [L|L]; [|discriminate].
    intro E. apply String.eqb_eq in E.
    exists (String.substring 0 (String.length s - String.length p) s).
    assert (S : String.length s - String.length p <= String.length s) by lia.
    apply substring_split in S.
    replace (String.length s - (String.length s - String.length p))
      with (String.length p) in S by lia.
    now rewrite E in S.
  - intros [a ->]. rewrite length_append.
    replace (String.length p <=? String.length a + String.length p)%nat with true
      by (symmetry; apply Nat.leb_le; lia).
    replace (String.length a + String.length p - String.length p) with (String.length a)
      by lia.
    rewrite substring_skip. apply String.eqb_refl.
Qed.




(** ** Structure Checker, rule by rule *)

Lemma pushEach_in (A : Type) (f : A -> option (list string)) (xs : list A) (m : string) :
  forall errors result,
    pushEach f xs errors = Some result ->
    (In m result <-> In m errors \/ exists x found, In x xs /\ f x = Some found /\ In m found).
Proof.
  induction xs as [|x xs IH]; intros errors result H; cbn in H.
  - injection H as <-. split; [now left | intros [H|(x & found & [] & _)]; assumption].
  - destruct (f x) as [found|] eqn:F; [|discriminate H]. cbn [bindThrow] in H.
    rewrite (IH _ _ H), in_app_iff. split.
    + intros [[H1|H1]|(y & fy & Hy & Fy & My)].
      * now left.
      * right. exists x, found. simpl; auto.
      * right. exists y, fy. simpl; auto.
    + intros [H1|(y & fy & [<-|Hy] & Fy & My)].
      * now left; left.
      * rewrite F in Fy. injection Fy as <-. now left; right.
      * right. exists y, fy. auto.
Qed.


(** X9.  The static-import rule reports a missing route file as one
    violation; on a route file that can be parsed it reports at most one
    violation, and none exactly when no import declaration at the top
    level of the file has a module specifier containing [.page]. *)
Theorem static_page_imports (h : Host) (appRoutesFile : string) :
  (Fs.existsSync (root h) appRoutesFile = false ->
   Structure.verifyNoStaticPageImportsInAppRoutes h appRoutesFile
   = Some ["Missing " +++ appRoutesFile]) /\
  (forall sf,
      Fs.parseSource (root h) appRoutesFile = Some sf ->
      exists errors,
        Structure.verifyNoStaticPageImportsInAppRoutes h appRoutesFile = Some errors /\
        length errors <= 1 /\
        (errors = [] <->
         forall spec, In spec (getImports sf) -> Js.includes spec ".page" = false)).
Proof.
  unfold Structure.verifyNoStaticPageImportsInAppRoutes, Structure.exists_. split.
  - now intros ->.
  - intros sf P.
    assert (X : Fs.existsSync (root h) appRoutesFile = true).
    { unfold Fs.existsSync. unfold Fs.parseSource in P.
      now destruct (Fs.lookup (root h) appRoutesFile). }
    rewrite X, P. cbn [negb bindThrow].
    assert (F : filter (fun s => Js.includes s ".page") (getImports sf) = [] <->
                forall spec, In spec (getImports sf) -> Js.includes spec ".page" = false).
    { rewrite nil_iff_no_member. split.
      - intros H spec Hin. destruct (Js.includes spec ".page") eqn:I; [|reflexivity].
        destruct (H spec). apply filter_In. auto.
      - intros H spec Hin. apply filter_In in Hin as [Hin I]. rewrite (H spec Hin) in I.
        discriminate. }
    destruct (filter (fun s => Js.includes s ".page") (getImports sf)) as [|b bad];
      cbn [length Nat.eqb negb]; eexists; (split; [reflexivity|]).
    + split; [cbn; lia|]. split; [intros _; now apply F | reflexivity].
    + split; [cbn; lia|]. split; [discriminate|]. intro H. apply F in H. discriminate.
Qed.





(** X12.  A run of the Structure Checker that exits with status 0 has
    found the app root and the features directory, at least one feature
    folder, and in every feature folder each of the four required
    files. *)
Theorem structure_pass (h : Host) (ctx : WorkspaceContext) (o : Outcome) :
  Structure.main h ctx = Some o ->
  exitCode o = 0 ->
  Fs.existsSync (root h) (appRoot ctx) = true /\
  Fs.existsSync (root h) (featuresDir ctx) = true /\
  exists names,
    Structure.listDirs h (featuresDir ctx) = Some names /\
    names <> [] /\
    forall f required,
      In f names -> In required (Structure.requiredFiles f) ->
      Fs.existsSync (root h) (Path.join [Path.join [featuresDir ctx; f]; required]) = true.
Proof.
  unfold Structure.main. intros M E.
  destruct (Structure.collect h ctx) as [[errors names]|] eqn:C; [|discriminate M].
  cbn [bindThrow] in M.
  destruct errors as [|e errors]; cbn in M; injection M as <-; [|discriminate E].
  destruct (collect_shape _ _ C) as (L & after & S).
  unfold Structure.exists_ in S.
  destruct (Fs.existsSync (root h) (appRoot ctx)); [|discriminate S].
  destruct (Fs.existsSync (root h) (featuresDir ctx)); [|discriminate S].
  destruct names as [|n names]; [discriminate S|].
  cbn [length Nat.eqb app] in S. symmetry in S. apply app_eq_nil in S as [S _].
  apply map_eq_nil in S.
  split; [reflexivity|]. split; [reflexivity|]. exists (n :: names).
  split; [assumption|]. split; [discriminate|].
  intros f required Hf Hr.
  destruct (Fs.existsSync (root h) (Path.join [Path.join [featuresDir ctx; f]; required]))
    eqn:X; [reflexivity|]. exfalso.
  assert (K : In f (filter (lacksRequiredFile h ctx) (n :: names))).
  { apply filter_In. split; [assumption|]. unfold lacksRequiredFile.
    assert (In required (Structure.verifyFeatureFolder h (Path.join [featuresDir ctx; f]) f)).
    { unfold Structure.verifyFeatureFolder. apply filter_In. split; [assumption|].
      unfold Structure.exists_. now rewrite X. }
    destruct (Structure.verifyFeatureFolder h (Path.join [featuresDir ctx; f]) f);
      [contradiction | reflexivity]. }
  rewrite S in K. destruct K.
Qed.

Lemma structure_pass_witness :
  Structure.main Samples.shipped Samples.ctx
  = Some (mkOutcome 0 ["OK: structure verified for appRoot=src/app (1 feature(s))."] []) /\
  Fs.existsSync (root Samples.shipped) (featuresDir Samples.ctx) = true.
Proof.
  assert (H : Structure.main Samples.shipped Samples.ctx
              = Some (mkOutcome 0
                        ["OK: structure verified for appRoot=src/app (1 feature(s))."] []))
    by reflexivity.
  split; [exact H|].
  exact (proj1 (proj2 (@structure_pass Samples.shipped Samples.ctx _ H eq_refl))).
Defined.

(** ** Recursive listing of files *)

Lemma lookupSegments_file (parsed : node) (l : list string) (e : Fs.entry) :
  l <> [] -> Fs.lookupSegments (Fs.File parsed) l <> Some e.
Proof. destruct l; [contradiction | discriminate]. Qed.

Lemma in_assoc (n : string) (c : Fs.entry) (entries : list (string * Fs.entry)) :
  NoDup (map fst entries) -> In (n, c) entries -> Fs.assoc n entries = Some c.
Proof.
  intros N Hin. apply in_split in Hin as (pre & post & ->). now apply assoc_unique.
Qed.

Section ListedFiles.
Variable fp : string.

(** The path [fp] is that of a file below the directory [e], itself at
    [segs], through directories that are not skipped. *)
Let below (segs : list string) (e : Fs.entry) : Prop :=
  exists names file parsed,
    fp = pathOf (segs ++ names ++ [file]) /\
    Fs.lookupSegments e (names ++ [file]) = Some (Fs.File parsed) /\
    Forall (fun n => skippedDirectory n = false) names.

Lemma filesUnder_spec (e : Fs.entry) :
  forall (seg : string) (segs : list string) (out : list string),
    wellFormed e ->
    Forall (fun s => simpleName s = true) (seg :: segs) ->
    (In fp (Structure.filesUnder (pathOf (seg :: segs)) e out) <->
     In fp out \/ below (seg :: segs) e).
Proof.
  induction e as [parsed | | entries IH] using entry_child_ind; intros seg segs out W S.
  - cbn. split; [now left|]. intros [H|(names & file & p & _ & L & _)]; [assumption|].
    exfalso. revert L. apply lookupSegments_file. now destruct names.
  - cbn. split; [now left|]. intros [H|(names & file & p & _ & L & _)]; [assumption|].
    exfalso. destruct names; discriminate L.
  - apply wellFormed_directory in W as [Wn Wf].
    cbn [Structure.filesUnder].
    match goal with |- In _ (?each entries out) <-> _ => set (loop := each) end.
    set (Q := fun (ne : string * Fs.entry) =>
                match snd ne with
                | Fs.File _ => fp = pathOf ((seg :: segs) ++ [fst ne])
                | Fs.Directory _ =>
                    skippedDirectory (fst ne) = false /\
                    below ((seg :: segs) ++ [fst ne]) (snd ne)
                | Fs.Special => False
                end).
    assert (G : forall rest pre out0,
               entries = pre ++ rest ->
               (In fp (loop rest out0) <-> In fp out0 \/ exists ne, In ne rest /\ Q ne)).
    { induction rest as [|[name child] rest IHrest]; intros pre out0 E.
      - cbn. split; [now left | intros [H|(ne & [] & _)]; assumption].
      - assert (Hin' : In (name, child) entries).
        { rewrite E, in_app_iff. right. now left. }
        rewrite Forall_forall in Wf, IH.
        destruct (Wf _ Hin') as [Wname Wchild]. pose proof (IH _ Hin') as IHchild.
        cbn [fst snd] in Wname, Wchild, IHchild.
        assert (S' : Forall (fun s => simpleName s = true) (seg :: (segs ++ [name]))).
        { change (seg :: (segs ++ [name])) with ((seg :: segs) ++ [name]).
          apply Forall_app. split; [assumption | now constructor]. }
        assert (J : Path.join [pathOf (seg :: segs); name] = pathOf (seg :: (segs ++ [name])))
          by now apply join_pathOf.
        assert (E' : entries = (pre ++ [(name, child)]) ++ rest) by now rewrite <- app_assoc.
        assert (R : (exists ne, In ne ((name, child) :: rest) /\ Q ne) <->
                    Q (name, child) \/ exists ne, In ne rest /\ Q ne).
        { split.
          - intros (ne & [<-|Hne] & Hq); [now left | right; eauto].
          - intros [Hq|(ne & Hne & Hq)]; [exists (name, child) | exists ne]; simpl; auto. }
        rewrite R. clear R.
        destruct child as [parsed | sub | ];
          cbv beta iota zeta fix delta [loop]; fold loop; rewrite ?J.
        + rewrite (IHrest _ _ E'), in_app_iff. unfold Q. cbn [fst snd In]. 
          change ((seg :: segs) ++ [name]) with (seg :: (segs ++ [name])).
          intuition (subst; auto).
        + destruct (skippedDirectory name) eqn:K.
          * rewrite (IHrest _ _ E'). unfold Q. cbn [fst snd]. rewrite K.
            intuition discriminate.
          * rewrite (IHrest _ _ E'), (IHchild seg (segs ++ [name]) out0 Wchild S').
            unfold Q. cbn [fst snd]. rewrite K.
            change ((seg :: segs) ++ [name]) with (seg :: (segs ++ [name])).
            intuition auto.
        + rewrite (IHrest _ _ E'). unfold Q. cbn [fst snd]. intuition auto. }
    rewrite (G entries [] out eq_refl). apply or_iff_compat_l. split.
    + intros ([name child] & Hne & Hq). unfold Q in Hq. cbn [fst snd] in Hq.
      pose proof (in_assoc _ _ _ Wn Hne) as A.
      destruct child as [parsed | sub | ]; [| |contradiction].
      * exists [], name, parsed. cbn [app]. split; [assumption|].
        cbn [Fs.lookupSegments]. rewrite A. split; [reflexivity | constructor].
      * destruct Hq as [K (names & file & parsed & -> & L & F)].
        exists (name :: names), file, parsed. split; [|split].
        -- now rewrite <- !app_assoc.
        -- cbn [app Fs.lookupSegments]. now rewrite A.
        -- now constructor.
    + intros (names & file & parsed & -> & L & F).
      destruct names as [|name names]; cbn [app Fs.lookupSegments] in L.
      * destruct (Fs.assoc file entries) as [c|] eqn:A; [|discriminate L].
        injection L as ->. exists (file, Fs.File parsed). split; [now apply assoc_in|].
        reflexivity.
      * destruct (Fs.assoc name entries) as [c|] eqn:A; [|discriminate L].
        exists (name, c). split; [now apply assoc_in|]. unfold Q. cbn [fst snd].
        inversion F as [|? ? K F']; subst.
        destruct c as [p | sub | ].
        -- exfalso. revert L. apply lookupSegments_file. now destruct names.
        -- split; [assumption|]. exists names, file, parsed.
           split; [now rewrite <- !app_assoc | auto].
        -- destruct names; discriminate L.
Qed.
End ListedFiles.

(** X13.  On a well-formed file system, [listFilesRecursive] of the
    Structure Checker lists exactly the regular files found below the
    directory through directories other than [node_modules], [dist] and
    [.angular], each under its full path. *)
Theorem listed_files_spec (h : Host) (seg : string) (segs listed : list string) :
  wellFormed (root h) ->
  Forall (fun s => simpleName s = true) (seg :: segs) ->
  Structure.listFilesRecursive h (pathOf (seg :: segs)) = Some listed ->
  exists entries,
    Fs.lookup (root h) (pathOf (seg :: segs)) = Some (Fs.Directory entries) /\
    forall fp,
      In fp listed <->
      exists names file parsed,
        fp = pathOf ((seg :: segs) ++ names ++ [file]) /\
        Fs.lookupSegments (Fs.Directory entries) (names ++ [file]) = Some (Fs.File parsed) /\
        Forall (fun n => skippedDirectory n = false) names.
Proof.
  intros W S Hl. unfold Structure.listFilesRecursive in Hl.
  destruct (Fs.lookup (root h) (pathOf (seg :: segs))) as [[|entries|]|] eqn:L;
    try discriminate Hl.
  exists entries. split; [reflexivity|]. intro fp. injection Hl as <-.
  unfold Fs.lookup in L. rewrite normalizeSegments_pathOf in L by assumption.
  change (In fp (Structure.filesUnder (pathOf (seg :: segs)) (Fs.Directory entries) []) <->
          exists names file parsed,
            fp = pathOf ((seg :: segs) ++ names ++ [file]) /\
            Fs.lookupSegments (Fs.Directory entries) (names ++ [file])
            = Some (Fs.File parsed) /\
            Forall (fun n => skippedDirectory n = false) names).
  rewrite filesUnder_spec;
    [|now apply (@wellFormed_lookupSegments _ _ _ W L)|assumption].
  split; [intros [[]|H]; exact H | intro H; now right].
Qed.

Lemma listed_files_spec_witness :
  wellFormed (root Samples.shipped) /\
  Structure.listFilesRecursive Samples.shipped (pathOf ["ws"; "src"; "app"])
  = Some ["/ws/src/app/app.routes.ts";
          "/ws/src/app/features/home/home.routes.ts";
          "/ws/src/app/features/home/home.page.ts";
          "/ws/src/app/features/home/home.data.ts";
          "/ws/src/app/features/home/home.state.ts";
          "/ws/src/app/features/home/home.models.ts"] /\
  exists entries,
    Fs.lookup (root Samples.shipped) (pathOf ["ws"; "src"; "app"])
    = Some (Fs.Directory entries).
Proof.
  assert (W : wellFormed (root Samples.shipped)).
  { simpl. repeat (split; try (repeat constructor; simpl; intuition discriminate)). }
  assert (S : Forall (fun s => simpleName s = true) ["ws"; "src"; "app"])
    by (repeat constructor).
  assert (L : Structure.listFilesRecursive Samples.shipped (pathOf ["ws"; "src"; "app"])
              = Some ["/ws/src/app/app.routes.ts";
                      "/ws/src/app/features/home/home.routes.ts";
                      "/ws/src/app/features/home/home.page.ts";
                      "/ws/src/app/features/home/home.data.ts";
                      "/ws/src/app/features/home/home.state.ts";
                      "/ws/src/app/features/home/home.models.ts"]) by reflexivity.
  split; [exact W|]. split; [exact L|].
  destruct (@listed_files_spec Samples.shipped _ _ _ W S L) as (entries & E & _).
  exists entries. exact E.
Defined.

Section ListedSources.
Variable fp : string.

Let below (segs : list string) (e : Fs.entry) : Prop :=
  exists names file parsed,
    fp = pathOf (segs ++ names ++ [file]) /\
    Fs.lookupSegments e (names ++ [file]) = Some (Fs.File parsed) /\
    Forall (fun n => skippedDirectory n = false) names.

(** The listing of the Cross-Feature Import Checker keeps, of the same
    files, those whose path ends in [.ts]. *)
Lemma sourcesUnder_spec (e : Fs.entry) :
  forall (seg : string) (segs : list string) (out : list string),
    wellFormed e ->
    Forall (fun s => simpleName s = true) (seg :: segs) ->
    (In fp (CrossFeature.filesUnder (pathOf (seg :: segs)) e out) <->
     In fp out \/ (Js.endsWith fp ".ts" = true /\ below (seg :: segs) e)).
Proof.
  induction e as [parsed | | entries IH] using entry_child_ind; intros seg segs out W S.
  - cbn. split; [now left|]. intros [H|(_ & names & file & p & _ & L & _)]; [assumption|].
    exfalso. revert L. apply lookupSegments_file. now destruct names.
  - cbn. split; [now left|]. intros [H|(_ & names & file & p & _ & L & _)]; [assumption|].
    exfalso. destruct names; discriminate L.
  - apply wellFormed_directory in W as [Wn Wf].
    cbn [CrossFeature.filesUnder].
    match goal with |- In _ (?each entries out) <-> _ => set (loop := each) end.
    set (Q := fun (ne : string * Fs.entry) =>
                match snd ne with
                | Fs.File _ => fp = pathOf ((seg :: segs) ++ [fst ne])
                | Fs.Directory _ =>
                    skippedDirectory (fst ne) = false /\
                    below ((seg :: segs) ++ [fst ne]) (snd ne)
                | Fs.Special => False
                end).
    assert (G : forall rest pre out0,
               entries = pre ++ rest ->
               (In fp (loop rest out0) <->
                In fp out0 \/ (Js.endsWith fp ".ts" = true /\ exists ne, In ne rest /\ Q ne))).
    { induction rest as [|[name child] rest IHrest]; intros pre out0 E.
      - cbn. split; [now left | intros [H|(_ & ne & [] & _)]; assumption].
      - assert (Hin' : In (name, child) entries).
        { rewrite E, in_app_iff. right. now left. }
        rewrite Forall_forall in Wf, IH.
        destruct (Wf _ Hin') as [Wname Wchild]. pose proof (IH _ Hin') as IHchild.
        cbn [fst snd] in Wname, Wchild, IHchild.
        assert (S' : Forall (fun s => simpleName s = true) (seg :: (segs ++ [name]))).
        { change (seg :: (segs ++ [name])) with ((seg :: segs) ++ [name]).
          apply Forall_app. split; [assumption | now constructor]. }
        assert (J : Path.join [pathOf (seg :: segs); name] = pathOf (seg :: (segs ++ [name])))
          by now apply join_pathOf.
        assert (E' : entries = (pre ++ [(name, child)]) ++ rest) by now rewrite <- app_assoc.
        assert (R : (exists ne, In ne ((name, child) :: rest) /\ Q ne) <->
                    Q (name, child) \/ exists ne, In ne rest /\ Q ne).
        { split.
          - intros (ne & [<-|Hne] & Hq); [now left | right; eauto].
          - intros [Hq|(ne & Hne & Hq)]; [exists (name, child) | exists ne]; simpl; auto. }
        rewrite R. clear R.
        destruct child as [parsed | sub | ];
          cbv beta iota zeta fix delta [loop]; fold loop; rewrite ?J.
        + unfold Q. cbn [fst snd].
          change ((seg :: segs) ++ [name]) with (seg :: (segs ++ [name])).
          destruct (Js.endsWith (pathOf (seg :: segs ++ [name])) ".ts") eqn:T;
            rewrite (IHrest _ _ E'), ?in_app_iff; cbn [In].
          * intuition (subst; auto).
          * intuition (subst; auto; congruence).
        + destruct (skippedDirectory name) eqn:K.
          * rewrite (IHrest _ _ E'). unfold Q. cbn [fst snd]. rewrite K.
            intuition discriminate.
          * rewrite (IHrest _ _ E'), (IHchild seg (segs ++ [name]) out0 Wchild S').
            unfold Q. cbn [fst snd]. rewrite K.
            change ((seg :: segs) ++ [name]) with (seg :: (segs ++ [name])).
            intuition auto.
        + rewrite (IHrest _ _ E'). unfold Q. cbn [fst snd]. intuition auto. }
    rewrite (G entries [] out eq_refl). apply or_iff_compat_l. apply and_iff_compat_l. split.
    + intros ([name child] & Hne & Hq). unfold Q in Hq. cbn [fst snd] in Hq.
      pose proof (in_assoc _ _ _ Wn Hne) as A.
      destruct child as [parsed | sub | ]; [| |contradiction].
      * exists [], name, parsed. cbn [app]. split; [assumption|].
        cbn [Fs.lookupSegments]. rewrite A. split; [reflexivity | constructor].
      * destruct Hq as [K (names & file & parsed & -> & L & F)].
        exists (name :: names), file, parsed. split; [|split].
        -- now rewrite <- !app_assoc.
        -- cbn [app Fs.lookupSegments]. now rewrite A.
        -- now constructor.
    + intros (names & file & parsed & -> & L & F).
      destruct names as [|name names]; cbn [app Fs.lookupSegments] in L.
      * destruct (Fs.assoc file entries) as [c|] eqn:A; [|discriminate L].
        injection L as ->. exists (file, Fs.File parsed). split; [now apply assoc_in|].
        reflexivity.
      * destruct (Fs.assoc name entries) as [c|] eqn:A; [|discriminate L].
        exists (name, c). split; [now apply assoc_in|]. unfold Q. cbn [fst snd].
        inversion F as [|? ? K F']; subst.
        destruct c as [p | sub | ].
        -- exfalso. revert L. apply lookupSegments_file. now destruct names.
        -- split; [assumption|]. exists names, file, parsed.
           split; [now rewrite <- !app_assoc | auto].
        -- destruct names; discriminate L.
Qed.
End ListedSources.

(** X14.  On a well-formed file system, [listFilesRecursive] of the
    Cross-Feature Import Checker lists exactly the regular files whose
    path ends in [.ts], found below the directory through directories
    other than [dist], [node_modules] and [.angular]. *)
Theorem listed_sources_spec (h : Host) (seg : string) (segs listed : list string) :
  wellFormed (root h) ->
  Forall (fun s => simpleName s = true) (seg :: segs) ->
  CrossFeature.listFilesRecursive h (pathOf (seg :: segs)) = Some listed ->
  exists entries,
    Fs.lookup (root h) (pathOf (seg :: segs)) = Some (Fs.Directory entries) /\
    forall fp,
      In fp listed <->
      Js.endsWith fp ".ts" = true /\
      exists names file parsed,
        fp = pathOf ((seg :: segs) ++ names ++ [file]) /\
        Fs.lookupSegments (Fs.Directory entries) (names ++ [file]) = Some (Fs.File parsed) /\
        Forall (fun n => skippedDirectory n = false) names.
Proof.
  intros W S Hl. unfold CrossFeature.listFilesRecursive in Hl.
  destruct (Fs.lookup (root h) (pathOf (seg :: segs))) as [[|entries|]|] eqn:L;
    try discriminate Hl.
  exists entries. split; [reflexivity|]. intro fp. injection Hl as <-.
  unfold Fs.lookup in L. rewrite normalizeSegments_pathOf in L by assumption.
  change (In fp (CrossFeature.filesUnder (pathOf (seg :: segs)) (Fs.Directory entries) []) <->
          Js.endsWith fp ".ts" = true /\
          exists names file parsed,
            fp = pathOf ((seg :: segs) ++ names ++ [file]) /\
            Fs.lookupSegments (Fs.Directory entries) (names ++ [file])
            = Some (Fs.File parsed) /\
            Forall (fun n => skippedDirectory n = false) names).
  rewrite sourcesUnder_spec;
    [|now apply (@wellFormed_lookupSegments _ _ _ W L)|assumption].
  split; [intros [[]|H]; exact H | intro H; now right].
Qed.

Lemma listed_sources_spec_witness :
  wellFormed (root Samples.shipped) /\
  CrossFeature.listFilesRecursive Samples.shipped (pathOf ["ws"; "src"; "app"; "features"])
  = Some ["/ws/src/app/features/home/home.routes.ts";
          "/ws/src/app/features/home/home.page.ts";
          "/ws/src/app/features/home/home.data.ts";
          "/ws/src/app/features/home/home.state.ts";
          "/ws/src/app/features/home/home.models.ts"] /\
  exists entries,
    Fs.lookup (root Samples.shipped) (pathOf ["ws"; "src"; "app"; "features"])
    = Some (Fs.Directory entries).
Proof.
  assert (W : wellFormed (root Samples.shipped)).
  { simpl. repeat (split; try (repeat constructor; simpl; intuition discriminate)). }
  assert (S : Forall (fun s => simpleName s = true) ["ws"; "src"; "app"; "features"])
    by (repeat constructor).
  assert (L : CrossFeature.listFilesRecursive Samples.shipped
                (pathOf ["ws"; "src"; "app"; "features"])
              = Some ["/ws/src/app/features/home/home.routes.ts";
                      "/ws/src/app/features/home/home.page.ts";
                      "/ws/src/app/features/home/home.data.ts";
                      "/ws/src/app/features/home/home.state.ts";
                      "/ws/src/app/features/home/home.models.ts"]) by reflexivity.
  split; [exact W|]. split; [exact L|].
  destruct (@listed_sources_spec Samples.shipped _ _ _ W S L) as (entries & E & _).
  exists entries. exact E.
Defined.

(** ** The feature a path belongs to *)

Lemma lastIndexOfFrom_absent (x : string) (parts : list string) :
  forall i acc, ~ In x parts -> Js.lastIndexOfFrom i x parts acc = acc.
Proof.
  induction parts as [|p rest IH]; intros i acc H; [reflexivity|].
  cbn [Js.lastIndexOfFrom]. rewrite IH by (intro; apply H; now right).
  destruct (String.eqb_spec p x) as [->|]; [|reflexivity].
  exfalso. apply H. now left.
Qed.

Lemma lastIndexOfFrom_last (x : string) (pre post : list string) :
  forall i acc, ~ In x post ->
  Js.lastIndexOfFrom i x (pre ++ x :: post) acc = Some (i + length pre).
Proof.
  induction pre as [|p pre IH]; intros i acc H.
  - cbn [app Js.lastIndexOfFrom length]. rewrite String.eqb_refl.
    rewrite lastIndexOfFrom_absent by assumption. now rewrite Nat.add_0_r.
  - cbn [app Js.lastIndexOfFrom length]. rewrite IH by assumption. f_equal. lia.
Qed.

(** [lastIndexOf] finds the occurrence that no other follows. *)
Lemma lastIndexOf_spec (x : string) (parts : list string) :
  (~ In x parts /\ Js.lastIndexOf parts x = None) \/
  (exists pre post, parts = pre ++ x :: post /\ ~ In x post /\
                    Js.lastIndexOf parts x = Some (length pre)).
Proof.
  unfold Js.lastIndexOf.
  induction parts as [|p rest IH] using rev_ind.
  - left. split; [intros [] | reflexivity].
  - destruct (String.eqb_spec p x) as [->|N].
    + right. exists rest, []. split; [reflexivity|]. split; [intros []|].
      now rewrite lastIndexOfFrom_last by (intros []).
    + destruct IH as [[A E]|(pre & post & -> & A & E)].
      * left. assert (A' : ~ In x (rest ++ [p])).
        { rewrite in_app_iff. intros [H|[H|[]]]; [now apply A | now apply N]. }
        split; [assumption|]. now apply lastIndexOfFrom_absent.
      * right. exists pre, (post ++ [p]). rewrite <- app_assoc. split; [reflexivity|].
        assert (A' : ~ In x (post ++ [p])).
        { rewrite in_app_iff. intros [H|[H|[]]]; [now apply A | now apply N]. }
        split; [assumption|].
        change ((x :: post) ++ [p]) with (x :: (post ++ [p])).
        now rewrite lastIndexOfFrom_last.
Qed.

Lemma nth_error_after (A : Type) (pre : list A) (x : A) (post : list A) :
  nth_error (pre ++ x :: post) (length pre + 1) = nth_error post 0.
Proof.
  induction pre as [|p pre IH]; [reflexivity|]. exact IH.
Qed.

Lemma featureOfFile_segments (filePath f : string) :
  CrossFeature.featureOfFile filePath = Some f <->
  exists pre post,
    Js.split Path.sep filePath = pre ++ "features" :: f :: post /\
    ~ In "features" (f :: post).
Proof.
  unfold CrossFeature.featureOfFile. cbv zeta. split.
  - destruct (lastIndexOf_spec "features" (Js.split Path.sep filePath))
      as [[_ E]|(pre & post & P & A & E)]; rewrite E; [discriminate|].
    rewrite P, nth_error_after. destruct post as [|g post]; [discriminate|].
    cbn [nth_error]. intro H. injection H as ->. now exists pre, post.
  - intros (pre & post & -> & A).
    unfold Js.lastIndexOf. rewrite lastIndexOfFrom_last by assumption.
    cbn [Nat.add]. now rewrite nth_error_after.
Qed.

Lemma featureOfFile_none (filePath : string) :
  CrossFeature.featureOfFile filePath = None <->
  ~ In "features" (Js.split Path.sep filePath) \/
  exists pre, Js.split Path.sep filePath = pre ++ ["features"].
Proof.
  unfold CrossFeature.featureOfFile. cbv zeta.
  destruct (lastIndexOf_spec "features" (Js.split Path.sep filePath))
    as [[A E]|(pre & post & P & A & E)]; rewrite E.
  - split; [now left | reflexivity].
  - rewrite P, nth_error_after. destruct post as [|g post]; cbn [nth_error].
    + split; [intros _; right; now exists pre | reflexivity].
    + split; [discriminate|]. intros [H|(pre' & H)].
      * exfalso. apply H. rewrite in_app_iff. right. now left.
      * exfalso. apply A.
        assert (R : rev (pre ++ "features" :: g :: post) = rev (pre' ++ ["features"]))
          by now rewrite H.
        rewrite !rev_app_distr in R. cbn [rev app] in R.
        rewrite <- !app_assoc in R. cbn [app] in R.
        destruct (rev post) as [|l rp] eqn:Rp.
        -- cbn [app] in R. injection R as R _. subst g. now left.
        -- cbn [app] in R. injection R as R _. subst l.
           right. apply in_rev. rewrite Rp. now left.
Qed.

(** X15.  [featureOfFile] gives the path segment that follows the last
    segment named [features]: it is some [f] exactly when the segments
    of the path read [... features f ...] with no [features] from [f]
    on, and nothing exactly when no segment is named [features] or the
    last such segment ends the path. *)
Theorem feature_of_file_spec (filePath : string) :
  (forall f,
     CrossFeature.featureOfFile filePath = Some f <->
     exists pre post,
       Js.split Path.sep filePath = pre ++ "features" :: f :: post /\
       ~ In "features" (f :: post)) /\
  (CrossFeature.featureOfFile filePath = None <->
   ~ In "features" (Js.split Path.sep filePath) \/
   exists pre, Js.split Path.sep filePath = pre ++ ["features"]).
Proof.
  split; [intro f; apply featureOfFile_segments | apply featureOfFile_none].
Qed.

(** ** Relative imports between feature folders *)

Section RelativeImports.

Lemma splitFrom_append (a b cur : string) :
  Js.splitFrom Path.sep cur (a +++ Path.sepString +++ b)
  = Js.splitFrom Path.sep cur a ++ Js.split Path.sep b.
Proof.
  revert cur. induction a as [|c a IH]; intro cur; [reflexivity|].
  cbn [String.append Js.splitFrom].
  destruct (Ascii.eqb c Path.sep); rewrite IH; reflexivity.
Qed.

Lemma split_join_noSeparator (seg : string) (segs : list string) :
  Forall (fun s => noSeparator s = true) (seg :: segs) ->
  Js.split Path.sep (Js.join Path.sepString (seg :: segs)) = seg :: segs.
Proof.
  unfold Js.split, Js.join. revert seg.
  induction segs as [|s segs IH]; intros seg H; inversion H as [|? ? Hs Hr]; subst.
  - simpl. now rewrite splitFrom_noSeparator.
  - cbn [String.concat]. rewrite splitFrom_segment by assumption.
    simpl String.append. f_equal. now apply IH.
Qed.

Lemma fold_pathOf (dir : list string) :
  Forall (fun s => simpleName s = true) dir ->
  fold_left (Path.normalizeStep false) (Js.split Path.sep (pathOf dir)) [] = rev dir.
Proof.
  intro H. destruct dir as [|seg segs]; [reflexivity|].
  pose proof (normalizeSegments_pathOf H) as N. unfold Path.normalizeSegments in N.
  apply (f_equal (@rev string)) in N. now rewrite rev_involutive in N.
Qed.

Lemma join_dot_head (s : string) (ss : list string) :
  s = "." \/ s = ".." -> exists rest, Js.join Path.sepString (s :: ss) = String "." rest.
Proof.
  intros [->| ->]; destruct ss; cbn; eauto.
Qed.

(** A relative specifier is resolved segment by segment from the
    directory it is taken against. *)
Lemma resolve_pathOf (cwd s : string) (dir ss : list string) :
  Forall (fun n => simpleName n = true) dir ->
  Forall (fun n => noSeparator n = true) (s :: ss) ->
  s = "." \/ s = ".." ->
  Path.resolve cwd [pathOf dir; Js.join Path.sepString (s :: ss)]
  = pathOf (rev (fold_left (Path.normalizeStep false) (s :: ss) (rev dir))).
Proof.
  intros D S Hs. unfold Path.resolve. cbn [rev app Path.resolveFrom].
  destruct (join_dot_head ss Hs) as [rest E].
  assert (E1 : String.eqb (Js.join Path.sepString (s :: ss)) "" = false)
    by now rewrite E.
  assert (E2 : Path.isAbsolute (Js.join Path.sepString (s :: ss)) = false)
    by now rewrite E.
  rewrite E1, E2.
  change (String.eqb (pathOf dir) "") with false.
  assert (E3 : Path.isAbsolute (pathOf dir) = true).
  { unfold Path.isAbsolute, Js.startsWith, pathOf. cbn.
    match goal with |- String.prefix "" ?x = true => now destruct x end. }
  rewrite E3. cbn [negb].
  unfold Path.normalizeString, Path.normalizeSegments, Js.split.
  rewrite splitFrom_append.
  change (Js.split Path.sep (?a +++ "/" +++ "")) with (Js.split Path.sep (a +++ Path.sepString +++ "")).
  unfold Js.split at 1. rewrite splitFrom_append.
  change (Js.splitFrom Path.sep "" ?x) with (Js.split Path.sep x).
  rewrite split_join_noSeparator by assumption.
  rewrite !fold_left_app, fold_pathOf by assumption.
  reflexivity.
Qed.

Lemma list_ascii_append (a b : string) :
  list_ascii_of_string (a +++ b) = list_ascii_of_string a ++ list_ascii_of_string b.
Proof. induction a as [|c a IH]; simpl; [reflexivity | now rewrite IH]. Qed.

Lemma dropWhile_all (f : ascii -> bool) (l r : list ascii) :
  Forall (fun c => f c = true) l -> Path.dropWhile f (l ++ r) = Path.dropWhile f r.
Proof.
  induction 1 as [|c l Hc _ IH]; [reflexivity|]. cbn [app Path.dropWhile]. now rewrite Hc.
Qed.

Lemma noSeparator_chars (s : string) :
  noSeparator s = true ->
  Forall (fun c => negb (Ascii.eqb c Path.sep) = true) (list_ascii_of_string s).
Proof.
  induction s as [|c s IH]; simpl; intro H; [constructor|].
  apply andb_true_iff in H as [Hc Hs]. constructor; auto.
Qed.

(** The directory of a file is the path of the folders above it. *)
Lemma dirname_pathOf (dir : list string) (file : string) :
  Forall (fun n => simpleName n = true) (dir ++ [file]) ->
  Path.dirname (pathOf (dir ++ [file])) = pathOf dir.
Proof.
  intro H. apply Forall_app in H as [D F]. inversion F as [|? ? Hf _]; subst.
  assert (Hne : file <> "") by (intros ->; discriminate Hf).
  apply simpleName_noSeparator in Hf. apply noSeparator_chars in Hf.
  assert (R : Forall (fun c => negb (Ascii.eqb c Path.sep) = true)
                     (rev (list_ascii_of_string file))).
  { apply Forall_forall. intros c Hc. apply in_rev in Hc.
    rewrite Forall_forall in Hf. auto. }
  assert (K : forall r, Path.dropWhile (fun c => Ascii.eqb c Path.sep)
                          (rev (list_ascii_of_string file) ++ r)
                        = rev (list_ascii_of_string file) ++ r).
  { intro r. destruct (rev (list_ascii_of_string file)) as [|c l] eqn:E.
    - exfalso. apply Hne. apply (f_equal (@rev ascii)) in E.
      rewrite rev_involutive in E. cbn in E.
      rewrite <- (string_of_list_ascii_of_string file), E. reflexivity.
    - inversion R as [|? ? Hc _]; subst. apply negb_true_iff in Hc.
      cbn [app Path.dropWhile]. now rewrite Hc. }
  destruct dir as [|seg segs].
  - unfold pathOf, Path.dirname. cbn [app Js.join String.concat].
    cbn [Path.sepString String.append list_ascii_of_string].
    rewrite <- (app_nil_r (rev (list_ascii_of_string file))), K.
    rewrite dropWhile_all by assumption. reflexivity.
  - unfold pathOf. rewrite join_snoc. unfold Path.dirname.
    cbn [Path.sepString String.append list_ascii_of_string].
    rewrite list_ascii_append. cbn [list_ascii_of_string].
    rewrite rev_app_distr. cbn [rev]. rewrite <- app_assoc. cbn [app].
    rewrite K, dropWhile_all by assumption.
    cbn [Path.dropWhile]. change (Ascii.eqb "/" Path.sep) with true. cbn [negb].
    inversion D as [|? ? Hseg _]; subst.
    assert (J : exists c rest,
               list_ascii_of_string (Js.join Path.sepString (seg :: segs)) = c :: rest).
    { destruct seg as [|c seg]; [discriminate Hseg|].
      unfold Js.join. destruct segs; cbn; eauto. }
    destruct J as (c & rest & J). rewrite rev_involutive.
    destruct (rev (list_ascii_of_string (Js.join Path.sepString (seg :: segs))))
      as [|x before] eqn:E.
    + rewrite J in E. apply (f_equal (@length ascii)) in E. rewrite length_rev in E.
      discriminate E.
    + cbn [string_of_list_ascii]. now rewrite string_of_list_ascii_of_string.
Qed.

Lemma climb (l acc rest : list string) :
  Forall (fun n => simpleName n = true) l ->
  fold_left (Path.normalizeStep false) (repeat ".." (length l) ++ rest) (rev l ++ acc)
  = fold_left (Path.normalizeStep false) rest acc.
Proof.
  induction l as [|x l IH] using rev_ind; intro H; [reflexivity|].
  apply Forall_app in H as [Hl Hx]. inversion Hx as [|? ? Sx _]; subst.
  rewrite length_app, Nat.add_comm, rev_app_distr. cbn [length Nat.add repeat rev app fold_left].
  rewrite <- IH by assumption. f_equal.
  unfold Path.normalizeStep. cbn [String.eqb Ascii.eqb Bool.eqb orb].
  unfold simpleName in Sx. apply andb_true_iff in Sx as [_ Sx].
  apply negb_true_iff in Sx. now rewrite Sx.
Qed.

Lemma includes_append (a p b : string) : Js.includes (a +++ p +++ b) p = true.
Proof.
  induction a as [|c a IH].
  - assert (P : String.prefix p (p +++ b) = true).
    { induction p as [|x p IHp]; [now destruct b|]. cbn.
      destruct (ascii_dec x x); [assumption | contradiction]. }
    cbn [String.append]. destruct (p +++ b); cbn [Js.includes]; now rewrite P.
  - cbn [String.append Js.includes]. rewrite IH. apply orb_true_r.
Qed.

Lemma join_features (pre tl : list string) (f : string) :
  exists a, Js.join Path.sepString (pre ++ "features" :: f :: tl)
            = a +++ "features/" +++ Js.join Path.sepString (f :: tl).
Proof.
  induction pre as [|p pre [a IH]].
  - exists "". reflexivity.
  - exists (p +++ "/" +++ a). unfold Js.join in *. cbn [app].
    destruct pre; cbn [app String.concat] in *; rewrite IH, ?append_assoc; reflexivity.
Qed.

Lemma includes_features (pre tl : list string) (f : string) :
  Js.includes (pathOf (pre ++ "features" :: f :: tl)) "features/" = true.
Proof.
  unfold pathOf. destruct (join_features pre tl f) as [a ->].
  rewrite <- append_assoc. apply includes_append.
Qed.

Lemma featureOfFile_pathOf (pre tl : list string) (f : string) :
  Forall (fun n => simpleName n = true) (pre ++ "features" :: f :: tl) ->
  ~ In "features" (f :: tl) ->
  CrossFeature.featureOfFile (pathOf (pre ++ "features" :: f :: tl)) = Some f.
Proof.
  intros S A. apply featureOfFile_segments. exists ("" :: pre), tl. split; [|assumption].
  unfold pathOf, Js.split.
  change (Path.sepString +++ ?x) with ("" +++ Path.sepString +++ x).
  rewrite splitFrom_segment by reflexivity. cbn [String.append app]. f_equal.
  change (Js.splitFrom Path.sep "" ?x) with (Js.split Path.sep x).
  destruct pre; cbn [app] in *; now rewrite split_join.
Qed.

End RelativeImports.

Section RelativeImportRules.
Import CrossFeature.
Variables (h : Host) (ctx : WorkspaceContext).

Lemma resolved_here (dir names : list string) (file : string) :
  Forall (fun n => simpleName n = true) (dir ++ [file]) ->
  Forall (fun n => simpleName n = true) names ->
  resolvedImport h (pathOf (dir ++ [file])) (specifierHere names) = pathOf (dir ++ names).
Proof.
  intros S N. unfold resolvedImport, specifierHere. rewrite dirname_pathOf by assumption.
  apply Forall_app in S as [D _].
  rewrite resolve_pathOf; [|assumption| |now left].
  - cbn [fold_left]. change (Path.normalizeStep false (rev dir) ".") with (rev dir).
    rewrite normalize_simple by assumption.
    now rewrite rev_app_distr, !rev_involutive.
  - constructor; [reflexivity|].
    eapply Forall_impl; [|exact N]. intros n. apply simpleName_noSeparator.
Qed.

Lemma resolved_up (dir above names : list string) (file : string) :
  Forall (fun n => simpleName n = true) ((dir ++ above) ++ [file]) ->
  Forall (fun n => simpleName n = true) names ->
  above <> [] ->
  resolvedImport h (pathOf ((dir ++ above) ++ [file])) (specifierUp (length above) names)
  = pathOf (dir ++ names).
Proof.
  intros S N Hne. unfold resolvedImport, specifierUp. rewrite dirname_pathOf by assumption.
  apply Forall_app in S as [D _]. pose proof D as D'. apply Forall_app in D' as [Dd Da].
  destruct above as [|x above]; [contradiction|].
  cbn [length repeat app].
  rewrite resolve_pathOf; [|assumption| |now right].
  - change (".." :: repeat ".." (length above) ++ names)
      with (repeat ".." (length (x :: above)) ++ names).
    rewrite rev_app_distr, climb by assumption.
    rewrite normalize_simple by assumption.
    now rewrite rev_app_distr, !rev_involutive.
  - change (".." :: repeat ".." (length above) ++ names)
      with (repeat ".." (S (length above)) ++ names).
    apply Forall_app. split.
    + apply Forall_forall. intros n Hn. apply repeat_spec in Hn. now subst.
    + eapply Forall_impl; [|exact N]. intros n. apply simpleName_noSeparator.
Qed.

Lemma startsWith_here (names : list string) : Js.startsWith (specifierHere names) "." = true.
Proof.
  unfold specifierHere. destruct (@join_dot_head "." names) as [rest ->]; [now left|].
  cbn. now destruct rest.
Qed.

Lemma startsWith_up (n : nat) (names : list string) :
  Js.startsWith (specifierUp (S n) names) "." = true.
Proof.
  unfold specifierUp. cbn [repeat app].
  destruct (@join_dot_head ".." (repeat ".." n ++ names)) as [rest ->]; [now right|].
  cbn. now destruct rest.
Qed.

Lemma feature_of_featureFile (pre dirs : list string) (a file : string) :
  Forall (fun n => simpleName n = true) (pre ++ "features" :: a :: dirs ++ [file]) ->
  ~ In "features" (a :: dirs ++ [file]) ->
  featureOfFile (featureFile pre a dirs file) = Some a.
Proof. intros S A. unfold featureFile. now apply featureOfFile_pathOf. Qed.

(** An import that stays below the folder of the importing file. *)
Lemma import_here (pre dirs names : list string) (a file : string) :
  Forall (fun n => simpleName n = true) (pre ++ "features" :: a :: dirs ++ [file]) ->
  Forall (fun n => simpleName n = true) names ->
  ~ In "features" (a :: dirs ++ names) ->
  resolvedImport h (featureFile pre a dirs file) (specifierHere names)
  = pathOf (pre ++ "features" :: a :: dirs ++ names) /\
  importViolation h ctx (featureFile pre a dirs file) a (specifierHere names) = None.
Proof.
  intros S N A.
  assert (E : pre ++ "features" :: a :: dirs ++ [file]
              = (pre ++ "features" :: a :: dirs) ++ [file])
    by now rewrite <- app_assoc.
  assert (R : resolvedImport h (featureFile pre a dirs file) (specifierHere names)
              = pathOf (pre ++ "features" :: a :: dirs ++ names)).
  { unfold featureFile. rewrite E. rewrite resolved_here; [|now rewrite <- E|assumption].
    now rewrite <- app_assoc. }
  split; [exact R|].
  unfold importViolation, resolveRelative. rewrite startsWith_here. cbn [negb].
  change (Path.resolve (cwd h) [Path.dirname (featureFile pre a dirs file); specifierHere names])
    with (resolvedImport h (featureFile pre a dirs file) (specifierHere names)).
  rewrite R. change (Path.join ["features"] +++ Path.sepString) with "features/".
  rewrite includes_features. cbn [negb].
  rewrite featureOfFile_pathOf; [|rewrite E in S|assumption].
  - now rewrite String.eqb_refl, andb_false_r.
  - apply Forall_app in S as [S _].
    change (pre ++ "features" :: a :: dirs ++ names)
      with (pre ++ ("features" :: a :: dirs) ++ names).
    rewrite app_assoc. apply Forall_app. split; assumption.
Qed.

(** An import that climbs out of the folder of the feature and enters
    the folder [b] beside it. *)
Lemma import_up (pre dirs names : list string) (a b file : string) :
  Forall (fun n => simpleName n = true) (pre ++ "features" :: a :: dirs ++ [file]) ->
  Forall (fun n => simpleName n = true) (b :: names) ->
  ~ In "features" (b :: names) ->
  resolvedImport h (featureFile pre a dirs file)
                 (specifierUp (S (length dirs)) (b :: names))
  = pathOf (pre ++ "features" :: b :: names) /\
  importViolation h ctx (featureFile pre a dirs file) a
                  (specifierUp (S (length dirs)) (b :: names))
  = if String.eqb b a then None
    else Some (crossFeatureMessage h ctx (featureFile pre a dirs file) a
                 (specifierUp (S (length dirs)) (b :: names)) b).
Proof.
  intros Hs N A.
  assert (E : pre ++ "features" :: a :: dirs ++ [file]
              = ((pre ++ ["features"]) ++ a :: dirs) ++ [file])
    by now rewrite <- !app_assoc.
  assert (R : resolvedImport h (featureFile pre a dirs file)
                             (specifierUp (S (length dirs)) (b :: names))
              = pathOf (pre ++ "features" :: b :: names)).
  { unfold featureFile. rewrite E.
    change (S (length dirs)) with (length (a :: dirs)).
    rewrite resolved_up; [|now rewrite <- E|assumption|discriminate].
    now rewrite <- app_assoc. }
  split; [exact R|].
  unfold importViolation, resolveRelative. rewrite startsWith_up. cbn [negb].
  change (Path.resolve (cwd h) [Path.dirname (featureFile pre a dirs file);
                                specifierUp (S (length dirs)) (b :: names)])
    with (resolvedImport h (featureFile pre a dirs file)
                         (specifierUp (S (length dirs)) (b :: names))).
  rewrite R. change (Path.join ["features"] +++ Path.sepString) with "features/".
  rewrite includes_features. cbn [negb].
  rewrite featureOfFile_pathOf; [| |assumption].
  - inversion N as [|? ? Sb _]; subst.
    assert (Hb : String.eqb b "" = false).
    { destruct b; [discriminate Sb | reflexivity]. }
    rewrite Hb. cbn [negb andb]. now destruct (String.eqb b a).
  - rewrite E in Hs. apply Forall_app in Hs as [Hs _]. apply Forall_app in Hs as [Hs _].
    change (pre ++ "features" :: b :: names) with (pre ++ ["features"] ++ b :: names).
    rewrite app_assoc. apply Forall_app. now split.
Qed.

End RelativeImportRules.

(** X16.  A file of the feature [a] that imports [./...] through
    folders and files none of which is named [features] stays inside
    its feature: the specifier resolves below the folder of the file and
    is not flagged. *)
Theorem import_below_own_folder (h : Host) (ctx : WorkspaceContext)
        (pre dirs names : list string) (a file : string) :
  Forall (fun n => simpleName n = true) (pre ++ "features" :: a :: dirs ++ [file]) ->
  Forall (fun n => simpleName n = true) names ->
  ~ In "features" (a :: dirs ++ [file]) ->
  ~ In "features" names ->
  CrossFeature.featureOfFile (featureFile pre a dirs file) = Some a /\
  resolvedImport h (featureFile pre a dirs file) (specifierHere names)
  = pathOf (pre ++ "features" :: a :: dirs ++ names) /\
  CrossFeature.importViolation h ctx (featureFile pre a dirs file) a (specifierHere names)
  = None.
Proof.
  intros S N A B. split; [now apply feature_of_featureFile|].
  apply import_here; try assumption.
  intros [H|H]; [apply A; now left|].
  apply in_app_iff in H as [H|H]; [|now apply B].
  apply A. right. apply in_app_iff. now left.
Qed.

Lemma import_below_own_folder_witness :
  Forall (fun n => simpleName n = true)
         (["ws"; "src"; "app"] ++ "features" :: "a" :: ["ui"] ++ ["a.page.ts"]) /\
  CrossFeature.importViolation Samples.shipped Samples.ctx
    (featureFile ["ws"; "src"; "app"] "a" ["ui"] "a.page.ts") "a"
    (specifierHere ["parts"; "a.models"]) = None.
Proof.
  assert (S : Forall (fun n => simpleName n = true)
                     (["ws"; "src"; "app"] ++ "features" :: "a" :: ["ui"] ++ ["a.page.ts"]))
    by (repeat constructor).
  assert (N : Forall (fun n => simpleName n = true) ["parts"; "a.models"])
    by (repeat constructor).
  assert (A : ~ In "features" ("a" :: ["ui"] ++ ["a.page.ts"]))
    by (simpl; intuition discriminate).
  assert (B : ~ In "features" ["parts"; "a.models"]) by (simpl; intuition discriminate).
  split; [exact S|].
  exact (proj2 (proj2 (@import_below_own_folder Samples.shipped Samples.ctx
                         ["ws"; "src"; "app"] ["ui"] ["parts"; "a.models"]
                         "a" "a.page.ts" S N A B))).
Defined.

(** X17.  A file of the feature [a] that climbs out of its feature
    folder with as many [..] as it takes and enters the folder [b]
    beside it is flagged exactly when [b] is another feature, and the
    violation names [b]. *)
Theorem import_of_sibling_folder (h : Host) (ctx : WorkspaceContext)
        (pre dirs names : list string) (a b file : string) :
  Forall (fun n => simpleName n = true) (pre ++ "features" :: a :: dirs ++ [file]) ->
  Forall (fun n => simpleName n = true) (b :: names) ->
  ~ In "features" (a :: dirs ++ [file]) ->
  ~ In "features" (b :: names) ->
  CrossFeature.featureOfFile (featureFile pre a dirs file) = Some a /\
  resolvedImport h (featureFile pre a dirs file)
                 (specifierUp (S (length dirs)) (b :: names))
  = pathOf (pre ++ "features" :: b :: names) /\
  CrossFeature.importViolation h ctx (featureFile pre a dirs file) a
                               (specifierUp (S (length dirs)) (b :: names))
  = if String.eqb b a then None
    else Some (CrossFeature.crossFeatureMessage h ctx (featureFile pre a dirs file) a
                 (specifierUp (S (length dirs)) (b :: names)) b).
Proof.
  intros S N A B. split; [now apply feature_of_featureFile|].
  now apply import_up.
Qed.

Lemma import_of_sibling_folder_witness :
  Forall (fun n => simpleName n = true)
         (["ws"; "src"; "app"] ++ "features" :: "a" :: ["ui"] ++ ["a.page.ts"]) /\
  specifierUp (S (length ["ui"])) ["b"; "b.data"] = "../../b/b.data" /\
  CrossFeature.importViolation Samples.shipped Samples.ctx
    (featureFile ["ws"; "src"; "app"] "a" ["ui"] "a.page.ts") "a"
    (specifierUp (S (length ["ui"])) ["b"; "b.data"])
  = Some (CrossFeature.crossFeatureMessage Samples.shipped Samples.ctx
            (featureFile ["ws"; "src"; "app"] "a" ["ui"] "a.page.ts") "a"
            (specifierUp (S (length ["ui"])) ["b"; "b.data"]) "b").
Proof.
  assert (S : Forall (fun n => simpleName n = true)
                     (["ws"; "src"; "app"] ++ "features" :: "a" :: ["ui"] ++ ["a.page.ts"]))
    by (repeat constructor).
  assert (N : Forall (fun n => simpleName n = true) ["b"; "b.data"])
    by (repeat constructor).
  assert (A : ~ In "features" ("a" :: ["ui"] ++ ["a.page.ts"]))
    by (simpl; intuition discriminate).
  assert (B : ~ In "features" ["b"; "b.data"]) by (simpl; intuition discriminate).
  split; [exact S|]. split; [reflexivity|].
  exact (proj2 (proj2 (@import_of_sibling_folder Samples.shipped Samples.ctx
                         ["ws"; "src"; "app"] ["ui"] ["b.data"]
                         "a" "b" "a.page.ts" S N A B))).
Defined.

(** ** A run of the Cross-Feature Import Checker *)

Lemma lookupSegments_simple (segs : list string) :
  forall e d, wellFormed e -> Fs.lookupSegments e segs = Some d ->
              Forall (fun s => simpleName s = true) segs.
Proof.
  induction segs as [|s segs IH]; intros e d W L; [constructor|].
  cbn [Fs.lookupSegments] in L. destruct e as [|entries|]; try discriminate L.
  destruct (Fs.assoc s entries) as [c|] eqn:A; [|discriminate L].
  apply wellFormed_directory in W as [_ W]. apply assoc_in in A.
  rewrite Forall_forall in W. destruct (W _ A) as [Sn Wc]. cbn [fst snd] in Sn, Wc.
  constructor; [assumption|]. now apply (IH c d).
Qed.

(** Every file the checker lists can be read and parsed. *)
Lemma listed_source_parsed (h : Host) (seg : string) (segs listed : list string)
      (fp : string) :
  wellFormed (root h) ->
  Forall (fun s => simpleName s = true) (seg :: segs) ->
  CrossFeature.listFilesRecursive h (pathOf (seg :: segs)) = Some listed ->
  In fp listed ->
  exists parsed, Fs.parseSource (root h) fp = Some parsed.
Proof.
  intros W Hs Hl Hin. unfold CrossFeature.listFilesRecursive in Hl.
  destruct (Fs.lookup (root h) (pathOf (seg :: segs))) as [[|entries|]|] eqn:L;
    try discriminate Hl.
  injection Hl as <-.
  unfold Fs.lookup in L. rewrite normalizeSegments_pathOf in L by assumption.
  pose proof (@wellFormed_lookupSegments _ _ _ W L) as Wd.
  change (In fp (CrossFeature.filesUnder (pathOf (seg :: segs)) (Fs.Directory entries) []))
    in Hin.
  apply sourcesUnder_spec in Hin; [|assumption|assumption].
  destruct Hin as [[]|(_ & names & file & parsed & -> & Lf & _)].
  exists parsed. unfold Fs.parseSource, Fs.lookup.
  assert (Hall : Forall (fun s => simpleName s = true) (seg :: (segs ++ names ++ [file]))).
  { change (seg :: (segs ++ names ++ [file])) with ((seg :: segs) ++ names ++ [file]).
    apply Forall_app. split; [assumption|]. exact (@lookupSegments_simple _ _ _ Wd Lf). }
  change ((seg :: segs) ++ names ++ [file]) with (seg :: (segs ++ names ++ [file])).
  rewrite normalizeSegments_pathOf by assumption.
  change (seg :: (segs ++ names ++ [file])) with ((seg :: segs) ++ names ++ [file]).
  now rewrite lookupSegments_app, L, Lf.
Qed.

(** X18.  On a well-formed file system where the features root, if
    there, is a directory, a run of the Cross-Feature Import Checker
    ends; it exits with status 1, writing to the error stream only,
    exactly when some listed file has a flagged import, and otherwise
    with status 0 and one line on the standard output. *)
Theorem cross_feature_run (h : Host) (ctx : WorkspaceContext)
        (seg : string) (segs : list string) :
  wellFormed (root h) ->
  Forall (fun s => simpleName s = true) (seg :: segs) ->
  featuresDir ctx = pathOf (seg :: segs) ->
  directoryIfThere h (featuresDir ctx) ->
  exists o,
    CrossFeature.main h ctx = Some o /\
    (exitCode o = 0 /\ length (stdout o) = 1 /\ stderr o = [] \/
     exitCode o = 1 /\ stdout o = [] /\ stderr o <> []) /\
    (exitCode o = 1 <->
     exists listed fp errors e,
       CrossFeature.listFilesRecursive h (featuresDir ctx) = Some listed /\
       In fp listed /\
       CrossFeature.fileViolations h ctx fp = Some errors /\
       In e errors).
Proof.
  intros W Hs Fd D. unfold CrossFeature.main, directoryIfThere, Fs.existsSync in *.
  destruct (Fs.lookup (root h) (featuresDir ctx)) as [[|entries|]|] eqn:L;
    try contradiction; cbn [negb].
  2:{ eexists. split; [reflexivity|]. cbn. split; [left; auto|].
      split; [discriminate|]. intros (listed & _ & _ & _ & Hl & _).
      unfold CrossFeature.listFilesRecursive in Hl. rewrite L in Hl. discriminate Hl. }
  assert (Hl : CrossFeature.listFilesRecursive h (featuresDir ctx)
               = Some (CrossFeature.filesUnder (featuresDir ctx) (Fs.Directory entries) [])).
  { unfold CrossFeature.listFilesRecursive. now rewrite L. }
  rewrite Hl. cbn [bindThrow].
  set (listed := CrossFeature.filesUnder (featuresDir ctx) (Fs.Directory entries) []) in *.
  assert (T : forall fp, In fp listed -> CrossFeature.fileViolations h ctx fp <> None).
  { intros fp Hin. rewrite Fd in Hl.
    destruct (@listed_source_parsed _ _ _ _ fp W Hs Hl Hin) as [parsed P].
    unfold CrossFeature.fileViolations. cbv zeta.
    destruct (CrossFeature.falsy _); [discriminate|].
    destruct (CrossFeature.featureOfFile fp); [|discriminate].
    rewrite P. discriminate. }
  destruct (pushEach_total (CrossFeature.fileViolations h ctx) listed [] T) as [errors P].
  rewrite P. cbn [bindThrow].
  pose proof (fun m => @pushEach_in _ _ _ m _ _ P) as I.
  destruct errors as [|e errors]; cbn [length Nat.eqb negb].
  - eexists. split; [reflexivity|]. cbn. split; [left; auto|].
    split; [discriminate|]. intros (listed' & fp & found & m & Hl' & Hin & F & Hm).
    injection Hl' as <-.
    assert (X : In m []) by (apply I; right; now exists fp, found).
    destruct X.
  - eexists. split; [reflexivity|]. cbn. split; [right; split; [|split]; [reflexivity..|discriminate]|].
    split; [|reflexivity]. intros _.
    destruct (proj1 (I e) (or_introl eq_refl)) as [[]|(fp & found & Hin & F & Hm)].
    now exists listed, fp, found, e.
Qed.

Lemma cross_feature_run_witness :
  wellFormed (root Samples.shipped) /\
  featuresDir Samples.ctx = pathOf ["ws"; "src"; "app"; "features"] /\
  directoryIfThere Samples.shipped (featuresDir Samples.ctx) /\
  exists o, CrossFeature.main Samples.shipped Samples.ctx = Some o /\ exitCode o <> 1.
Proof.
  assert (W : wellFormed (root Samples.shipped)).
  { simpl. repeat (split; try (repeat constructor; simpl; intuition discriminate)). }
  assert (S : Forall (fun s => simpleName s = true) ["ws"; "src"; "app"; "features"])
    by (repeat constructor).
  assert (F : featuresDir Samples.ctx = pathOf ["ws"; "src"; "app"; "features"])
    by reflexivity.
  assert (D : directoryIfThere Samples.shipped (featuresDir Samples.ctx)) by exact I.
  split; [exact W|]. split; [exact F|]. split; [exact D|].
  destruct (@cross_feature_run Samples.shipped Samples.ctx _ _ W S F D) as (o & M & _ & _).
  exists o. split; [exact M|].
  assert (M' : CrossFeature.main Samples.shipped Samples.ctx
               = Some (mkOutcome 0
                         ["OK: no cross-feature relative imports detected in src/app/features."]
                         [])) by reflexivity.
  rewrite M' in M. injection M as <-. discriminate.
Defined.

(** ** The Workspace Resolver *)

Section ResolverPaths.

Lemma isAbsolute_pathOf (segs : list string) : Path.isAbsolute (pathOf segs) = true.
Proof.
  unfold Path.isAbsolute, Js.startsWith, pathOf. cbn.
  match goal with |- String.prefix "" ?x = true => now destruct x end.
Qed.

Lemma join_head (x : string) (l : list string) :
  x <> "" -> exists c rest, Js.join Path.sepString (x :: l) = String c rest.
Proof.
  intro H. destruct x as [|c x]; [contradiction|].
  unfold Js.join. destruct l; cbn; eauto.
Qed.

Lemma simpleName_nonempty (x : string) : simpleName x = true -> x <> "".
Proof. intros H ->. discriminate H. Qed.

(** An absolute path of simple names resolves to itself. *)
Lemma resolve_absolute (c : string) (segs : list string) :
  Forall (fun n => simpleName n = true) segs ->
  Path.resolve c [pathOf segs] = pathOf segs.
Proof.
  intro H. unfold Path.resolve. cbn [rev app Path.resolveFrom].
  change (String.eqb (pathOf segs) "") with false.
  rewrite isAbsolute_pathOf. cbn [negb].
  unfold Path.normalizeString, Path.normalizeSegments, Js.split.
  change (pathOf segs +++ "/" +++ "") with (pathOf segs +++ Path.sepString +++ "").
  rewrite splitFrom_append.
  change (Js.splitFrom Path.sep "" ?x) with (Js.split Path.sep x).
  rewrite fold_left_app, fold_pathOf by assumption.
  cbn [Js.split Js.splitFrom fold_left].
  change (Path.normalizeStep false (rev segs) "") with (rev segs).
  now rewrite rev_involutive.
Qed.

Lemma last_after (A : Type) (l r : list A) (x d : A) :
  last (l ++ x :: r) d = last (x :: r) d.
Proof.
  induction l as [|y l IH]; [reflexivity|].
  cbn [app]. rewrite <- IH. cbn [last]. now destruct (l ++ x :: r) eqn:E; [destruct l|].
Qed.

Lemma last_split_sep (a : string) :
  last (Js.split Path.sep (a +++ Path.sepString)) "x" = "".
Proof.
  unfold Js.split.
  replace (a +++ Path.sepString) with (a +++ Path.sepString +++ "") by reflexivity.
  rewrite splitFrom_append. cbn [Js.split Js.splitFrom].
  now rewrite last_last.
Qed.

(** [path.join] of an absolute path and a relative one, both made of
    simple names. *)
Lemma join_relative (segs ss : list string) (s : string) :
  Forall (fun n => simpleName n = true) segs ->
  Forall (fun n => simpleName n = true) (s :: ss) ->
  Path.join [pathOf segs; Js.join Path.sepString (s :: ss)] = pathOf (segs ++ s :: ss).
Proof.
  intros H Hs. pose proof Hs as Hs'. inversion Hs' as [|? ? S0 _]; subst.
  destruct (join_head ss (simpleName_nonempty S0)) as (c & rest & E).
  set (rel := Js.join Path.sepString (s :: ss)) in *.
  assert (Hrel : String.eqb rel "" = false) by now rewrite E.
  unfold Path.join. cbn [filter].
  change (negb (String.eqb (pathOf segs) "")) with true. cbv iota.
  rewrite Hrel. cbn [negb].
  change (Js.join Path.sepString [pathOf segs; rel])
    with (pathOf segs +++ Path.sepString +++ rel).
  assert (Sp : Js.split Path.sep (pathOf segs +++ Path.sepString +++ rel)
               = Js.split Path.sep (pathOf segs) ++ s :: ss).
  { unfold Js.split at 1. rewrite splitFrom_append. f_equal.
    unfold rel. apply split_join_noSeparator.
    eapply Forall_impl; [|exact Hs]. intro n. apply simpleName_noSeparator. }
  assert (Hall : Forall (fun n => simpleName n = true) (segs ++ s :: ss))
    by (apply Forall_app; now split).
  unfold Path.normalize. cbv zeta.
  change (String.eqb (pathOf segs +++ Path.sepString +++ rel) "") with false. cbv iota.
  assert (Ab : Path.isAbsolute (pathOf segs +++ Path.sepString +++ rel) = true).
  { unfold Path.isAbsolute, Js.startsWith, pathOf. cbn.
    match goal with |- String.prefix "" ?x = true => now destruct x end. }
  rewrite Ab. cbn [negb].
  assert (Tr : Js.endsWith (pathOf segs +++ Path.sepString +++ rel) Path.sepString = false).
  { destruct (Js.endsWith _ Path.sepString) eqn:T; [|reflexivity].
    apply endsWith_spec in T as [a T].
    pose proof (last_split_sep a) as La. rewrite <- T, Sp in La.
    rewrite last_after in La.
    assert (Hl : In (last (s :: ss) "x") (s :: ss)).
    { destruct (exists_last (l := s :: ss)) as (l' & y & Ey); [discriminate|].
      rewrite Ey, last_last, in_app_iff. right. now left. }
    rewrite Forall_forall in Hs. apply Hs in Hl. rewrite La in Hl. discriminate Hl. }
  rewrite Tr.
  unfold Path.normalizeString, Path.normalizeSegments. rewrite Sp.
  rewrite fold_left_app, fold_pathOf by assumption.
  rewrite normalize_simple by assumption.
  rewrite <- rev_app_distr, rev_involutive.
  assert (Ne : exists c' rest', Js.join Path.sepString (segs ++ s :: ss) = String c' rest').
  { destruct segs as [|x segs]; cbn [app].
    - apply join_head. now apply simpleName_nonempty.
    - apply join_head. inversion H; subst. now apply simpleName_nonempty. }
  destruct Ne as (c' & rest' & E').
  assert (Ne : String.eqb (Js.join Path.sepString (segs ++ s :: ss)) "" = false)
    by now rewrite E'.
  rewrite Ne. unfold pathOf. now rewrite append_empty_r.
Qed.

Lemma join_name (segs : list string) (name : string) :
  Forall (fun n => simpleName n = true) segs ->
  simpleName name = true ->
  Path.join [pathOf segs; name] = pathOf (segs ++ [name]).
Proof.
  intros H Hn. change name with (Js.join Path.sepString [name]) at 1.
  apply join_relative; [assumption | now constructor].
Qed.

Lemma pathOf_snoc_length (segs : list string) (x : string) :
  x <> "" -> String.length (pathOf segs) < String.length (pathOf (segs ++ [x])).
Proof.
  intro H. unfold pathOf. destruct segs as [|seg segs].
  - destruct x; [contradiction | cbn; lia].
  - rewrite join_snoc, !length_append. cbn [Path.sepString String.length]. lia.
Qed.

Lemma pathOf_snoc_neq (segs : list string) (x : string) :
  x <> "" -> String.eqb (pathOf segs) (pathOf (segs ++ [x])) = false.
Proof.
  intro H. apply String.eqb_neq. intro E.
  pose proof (pathOf_snoc_length segs H) as L. rewrite <- E in L. lia.
Qed.

End ResolverPaths.

Section WalkUp.
Variable h : Host.

Lemma walkUp_step (fuel : nat) (segs : list string) (x : string) :
  Forall (fun n => simpleName n = true) (segs ++ [x]) ->
  manifestIn h (segs ++ [x]) = false ->
  Workspace.walkUp (S fuel) h (pathOf (segs ++ [x])) = Workspace.walkUp fuel h (pathOf segs).
Proof.
  intros H M. cbn [Workspace.walkUp]. cbv zeta.
  rewrite join_name by (assumption || reflexivity).
  unfold Workspace.fileExists. unfold manifestIn in M. rewrite M.
  rewrite dirname_pathOf by assumption.
  apply Forall_app in H as [_ Hx]. inversion Hx as [|? ? Sx _]; subst.
  now rewrite pathOf_snoc_neq by now apply simpleName_nonempty.
Qed.

Lemma walkUp_here (fuel : nat) (segs : list string) :
  Forall (fun n => simpleName n = true) segs ->
  manifestIn h segs = true ->
  Workspace.walkUp (S fuel) h (pathOf segs) = Some (Some (pathOf segs)).
Proof.
  intros H M. cbn [Workspace.walkUp]. cbv zeta.
  rewrite join_name by (assumption || reflexivity).
  unfold Workspace.fileExists. unfold manifestIn in M. now rewrite M.
Qed.

(** The walk stops at the nearest directory that holds the manifest. *)
Lemma walkUp_found (ws below : list string) :
  forall fuel,
    Forall (fun n => simpleName n = true) (ws ++ below) ->
    length below < fuel ->
    manifestIn h ws = true ->
    (forall pre post, below = pre ++ post -> pre <> [] -> manifestIn h (ws ++ pre) = false) ->
    Workspace.walkUp fuel h (pathOf (ws ++ below)) = Some (Some (pathOf ws)).
Proof.
  induction below as [|x below IH] using rev_ind; intros fuel H L M N.
  - destruct fuel as [|fuel]; [cbn in L; lia|]. rewrite app_nil_r in *.
    now apply walkUp_here.
  - destruct fuel as [|fuel]; [lia|]. rewrite length_app in L. cbn [length] in L.
    rewrite app_assoc in *. rewrite walkUp_step; [|assumption|].
    + apply IH; [now apply Forall_app in H as [H _] | lia | assumption|].
      intros pre post E Hne. apply (N pre (post ++ [x])); [|assumption].
      now rewrite E, <- app_assoc.
    + rewrite <- app_assoc. apply (N (below ++ [x]) []); [now rewrite app_nil_r|].
      now destruct below.
Qed.

(** Without a manifest in any directory above, the walk ends at the
    root. *)
Lemma walkUp_none (segs : list string) :
  forall fuel,
    Forall (fun n => simpleName n = true) segs ->
    length segs < fuel ->
    (forall pre post, segs = pre ++ post -> manifestIn h pre = false) ->
    Workspace.walkUp fuel h (pathOf segs) = Some None.
Proof.
  induction segs as [|x segs IH] using rev_ind; intros fuel H L N.
  - destruct fuel as [|fuel]; [cbn in L; lia|].
    cbn [Workspace.walkUp]. cbv zeta.
    rewrite join_name by (assumption || reflexivity).
    unfold Workspace.fileExists.
    pose proof (N [] [] eq_refl) as M. unfold manifestIn in M. rewrite M.
    reflexivity.
  - destruct fuel as [|fuel]; [lia|]. rewrite length_app in L. cbn [length] in L.
    rewrite walkUp_step; [|assumption|].
    + apply IH; [now apply Forall_app in H as [H _] | lia|].
      intros pre post E. apply (N pre (post ++ [x])). now rewrite E, <- app_assoc.
    + apply (N (segs ++ [x]) []). now rewrite app_nil_r.
Qed.

End WalkUp.

(** X19.  [findWorkspaceRoot], started in a directory given by its
    segments and with a turn for each of them and one more, ends: it
    returns the nearest directory, from the start upwards, that holds
    [angular.json], and dies naming the start when no directory up to
    the root holds one. *)
Theorem find_workspace_root (h : Host) (fuel : nat) (ws below : list string) :
  Forall (fun n => simpleName n = true) (ws ++ below) ->
  length (ws ++ below) < fuel ->
  (manifestIn h ws = true ->
   (forall pre post, below = pre ++ post -> pre <> [] -> manifestIn h (ws ++ pre) = false) ->
   Workspace.findWorkspaceRoot fuel h (pathOf (ws ++ below))
   = Some (Workspace.Done (pathOf ws))) /\
  ((forall pre post, ws ++ below = pre ++ post -> manifestIn h pre = false) ->
   Workspace.findWorkspaceRoot fuel h (pathOf (ws ++ below))
   = Some (Workspace.Died ("Unable to locate angular.json by walking up from: "
                           +++ pathOf (ws ++ below)))).
Proof.
  intros H L. unfold Workspace.findWorkspaceRoot. cbv zeta.
  rewrite resolve_absolute by assumption. split.
  - intros M N. rewrite walkUp_found; try assumption; [reflexivity|].
    rewrite length_app in L. lia.
  - intro N. now rewrite walkUp_none.
Qed.

Lemma find_workspace_root_witness :
  Forall (fun n => simpleName n = true) (["ws"] ++ ["src"; "app"]) /\
  length (["ws"] ++ ["src"; "app"]) < 4 /\
  manifestIn Samples.shipped ["ws"] = true /\
  Workspace.findWorkspaceRoot 4 Samples.shipped (pathOf (["ws"] ++ ["src"; "app"]))
  = Some (Workspace.Done (pathOf ["ws"])).
Proof.
  assert (H : Forall (fun n => simpleName n = true) (["ws"] ++ ["src"; "app"]))
    by (repeat constructor).
  assert (L : length (["ws"] ++ ["src"; "app"]) < 4) by (simpl; lia).
  assert (M : manifestIn Samples.shipped ["ws"] = true) by reflexivity.
  assert (N : forall pre post, ["src"; "app"] = pre ++ post -> pre <> [] ->
                               manifestIn Samples.shipped (["ws"] ++ pre) = false).
  { intros [|a [|b [|c pre]]] post E Hne; [contradiction| | |].
    - injection E as <- _. reflexivity.
    - injection E as <- <- _. reflexivity.
    - destruct pre; discriminate E. }
  split; [exact H|]. split; [exact L|]. split; [exact M|].
  exact (proj1 (@find_workspace_root Samples.shipped 4 ["ws"] ["src"; "app"] H L) M N).
Defined.

Section DefaultProject.
Import Workspace.
Variable json : AngularJson.

Lemma isApplicationProject_spec (p : Project) :
  isApplicationProject p = true <-> projectType p = Some "application".
Proof.
  unfold isApplicationProject, Js.isString. destruct (projectType p) as [t|].
  - rewrite String.eqb_eq. split; [now intros -> | now intros [= ->]].
  - split; discriminate.
Qed.

Lemma member_in (name : string) (p : Project) (l : list (string * Project)) :
  member name l = Some p -> In (name, p) l.
Proof.
  induction l as [|[n q] l IH]; cbn [member]; [discriminate|].
  destruct (String.eqb_spec n name) as [->|_].
  - intros [= ->]. now left.
  - intro H. right. now apply IH.
Qed.

Lemma in_member (name : string) (p : Project) (l : list (string * Project)) :
  In (name, p) l -> exists q, member name l = Some q.
Proof.
  induction l as [|[n q] l IH]; intros Hin; [destruct Hin|].
  cbn [member]. destruct (String.eqb_spec n name) as [->|Hn]; [eauto|].
  destruct Hin as [[= E _]|Hin]; [contradiction | now apply IH].
Qed.

Lemma in_member_unique (name : string) (p : Project) (l : list (string * Project)) :
  NoDup (map fst l) -> In (name, p) l -> member name l = Some p.
Proof.
  induction l as [|[n q] l IH]; intros N Hin; [destruct Hin|].
  cbn [map fst] in N. inversion N as [|? ? Hn N']; subst.
  cbn [member]. destruct Hin as [[= -> ->]|Hin].
  - now rewrite String.eqb_refl.
  - destruct (String.eqb_spec n name) as [->|_]; [|now apply IH].
    exfalso. apply Hn. apply in_map_iff. now exists (name, p).
Qed.

(** The first application in the order of [Object.entries]. *)
Lemma find_first (l : list (string * Project)) :
  match find (fun np => isApplicationProject (snd np)) l with
  | Some (name, p) =>
      exists pre post, l = pre ++ (name, p) :: post /\
                       isApplicationProject p = true /\
                       Forall (fun np => isApplicationProject (snd np) = false) pre
  | None => Forall (fun np => isApplicationProject (snd np) = false) l
  end.
Proof.
  induction l as [|[n q] l IH]; cbn [find snd]; [constructor|].
  destruct (isApplicationProject q) eqn:A.
  - exists [], l. now repeat split.
  - destruct (find _ l) as [[name p]|].
    + destruct IH as (pre & post & -> & Ap & Fp).
      exists ((n, q) :: pre), post. repeat split; [assumption|]. now constructor.
    + now constructor.
Qed.

Lemma find_at (pre post : list (string * Project)) (name : string) (p : Project) :
  Forall (fun np => isApplicationProject (snd np) = false) pre ->
  isApplicationProject p = true ->
  find (fun np => isApplicationProject (snd np)) (pre ++ (name, p) :: post)
  = Some (name, p).
Proof.
  induction 1 as [|[n q] pre Hq _ IH]; intro A; cbn [app find snd].
  - now rewrite A.
  - cbn [snd] in Hq. rewrite Hq. now apply IH.
Qed.

Lemma default_chosen (d : string) :
  defaultProject json = Some d -> d <> "" -> applicationNamed json d ->
  getDefaultAppProjectName json = Done d.
Proof.
  intros D Hne (p & M & T). unfold getDefaultAppProjectName. cbv zeta. rewrite D, M.
  apply String.eqb_neq in Hne. rewrite Hne.
  apply isApplicationProject_spec in T. now rewrite T.
Qed.

Lemma first_chosen (pre post : list (string * Project)) (name : string) (p : Project) :
  projects json = pre ++ (name, p) :: post ->
  Forall (fun np => projectType (snd np) <> Some "application") pre ->
  projectType p = Some "application" ->
  (forall d, defaultProject json = Some d -> d = "" \/ ~ applicationNamed json d) ->
  getDefaultAppProjectName json = Done name.
Proof.
  intros E Fp T D. unfold getDefaultAppProjectName. cbv zeta.
  assert (F : find (fun np => isApplicationProject (snd np)) (projects json)
              = Some (name, p)).
  { rewrite E. apply find_at; [|now apply isApplicationProject_spec].
    eapply Forall_impl; [|exact Fp]. intros np Hnp.
    destruct (isApplicationProject (snd np)) eqn:A; [|reflexivity].
    now apply isApplicationProject_spec in A. }
  rewrite F. destruct (defaultProject json) as [d|]; [|reflexivity].
  destruct (D d eq_refl) as [->|Hn]; [reflexivity|].
  destruct (member d (projects json)) as [q|] eqn:M; [|now rewrite andb_false_r].
  destruct (isApplicationProject q) eqn:A; [|now rewrite andb_false_r].
  exfalso. apply Hn. exists q. split; [assumption|]. now apply isApplicationProject_spec.
Qed.

Lemma chosen_is_application (name : string) :
  NoDup (map fst (projects json)) ->
  getDefaultAppProjectName json = Done name ->
  applicationNamed json name.
Proof.
  intros N. unfold getDefaultAppProjectName. cbv zeta.
  assert (G : match find (fun np => isApplicationProject (snd np)) (projects json) with
              | Some (n, _) => Done n
              | None => Died "No application project found in angular.json"
              end = Done name -> applicationNamed json name).
  { pose proof (find_first (projects json)) as F.
    destruct (find _ (projects json)) as [[n p]|]; [|discriminate].
    intros [= ->]. destruct F as (pre & post & E & A & _).
    exists p. split; [|now apply isApplicationProject_spec].
    apply in_member_unique; [assumption|]. rewrite E, in_app_iff. right. now left. }
  destruct (defaultProject json) as [d|]; [|exact G].
  destruct (negb (String.eqb d "")) eqn:Hd; cbn [andb]; [|exact G].
  destruct (member d (projects json)) as [q|] eqn:M; [|exact G].
  destruct (isApplicationProject q) eqn:A; [|exact G].
  intros [= <-]. exists q. split; [assumption|]. now apply isApplicationProject_spec.
Qed.

Lemma chosen_is_member (name : string) :
  getDefaultAppProjectName json = Done name ->
  exists p, member name (projects json) = Some p.
Proof.
  unfold getDefaultAppProjectName. cbv zeta.
  assert (G : match find (fun np => isApplicationProject (snd np)) (projects json) with
              | Some (n, _) => Done n
              | None => Died "No application project found in angular.json"
              end = Done name -> exists p, member name (projects json) = Some p).
  { pose proof (find_first (projects json)) as F.
    destruct (find _ (projects json)) as [[n p]|]; [|discriminate].
    intros [= ->]. destruct F as (pre & post & E & _).
    apply in_member with (p := p). rewrite E, in_app_iff. right. now left. }
  destruct (defaultProject json) as [d|]; [|exact G].
  destruct (negb (String.eqb d "")) eqn:Hd; cbn [andb]; [|exact G].
  destruct (member d (projects json)) as [q|] eqn:M; [|exact G].
  destruct (isApplicationProject q) eqn:A; [|exact G].
  intros [= <-]. eauto.
Qed.

Lemma none_chosen :
  (exists msg, getDefaultAppProjectName json = Died msg) <->
  Forall (fun np => projectType (snd np) <> Some "application") (projects json).
Proof.
  unfold getDefaultAppProjectName. cbv zeta.
  pose proof (find_first (projects json)) as F.
  assert (Fa : Forall (fun np => isApplicationProject (snd np) = false) (projects json) <->
               Forall (fun np => projectType (snd np) <> Some "application") (projects json)).
  { rewrite !Forall_forall. split; intros H np Hnp.
    - intro T. apply isApplicationProject_spec in T. rewrite (H np Hnp) in T. discriminate T.
    - destruct (isApplicationProject (snd np)) eqn:A; [|reflexivity].
      apply isApplicationProject_spec in A. now destruct (H np Hnp). }
  assert (Fm : forall d q, member d (projects json) = Some q ->
                           isApplicationProject q = true ->
                           ~ Forall (fun np => isApplicationProject (snd np) = false)
                               (projects json)).
  { intros d q M A H. apply member_in in M. rewrite Forall_forall in H.
    apply H in M. cbn [snd] in M. congruence. }
  rewrite <- Fa.
  destruct (find _ (projects json)) as [[n p]|] eqn:E.
  - assert (X : ~ Forall (fun np => isApplicationProject (snd np) = false) (projects json)).
    { destruct F as (pre & post & Ep & A & _). intro H. rewrite Forall_forall in H.
      assert (Hin : In (n, p) (projects json)) by (rewrite Ep, in_app_iff; right; now left).
      apply H in Hin. cbn [snd] in Hin. congruence. }
    split; [|contradiction]. intros [msg H]. exfalso.
    destruct (defaultProject json) as [d|]; [|discriminate H].
    destruct (negb (String.eqb d "") && _); discriminate H.
  - split; [intros _; exact F|]. intros _.
    destruct (defaultProject json) as [d|]; [|eauto].
    destruct (member d (projects json)) as [q|] eqn:M; [|rewrite andb_false_r; eauto].
    destruct (isApplicationProject q) eqn:A; [|rewrite andb_false_r; eauto].
    now destruct (Fm d q M A).
Qed.

End DefaultProject.

(** X20.  [getDefaultAppProjectName] never throws.  The name it
    returns is that of a project of type [application], which
    [getProject] then finds; a non-empty [defaultProject] that names an
    application is returned; failing that, the first application in the
    order of the [projects] object; and it dies exactly when no project
    is an application. *)
Theorem default_app_project (json : Workspace.AngularJson) :
  NoDup (map fst (Workspace.projects json)) ->
  Workspace.getDefaultAppProjectName json <> Workspace.Thrown /\
  (forall name,
     Workspace.getDefaultAppProjectName json = Workspace.Done name ->
     exists p, Workspace.getProject json name = Workspace.Done p /\
               Workspace.projectType p = Some "application") /\
  (forall d,
     Workspace.defaultProject json = Some d -> d <> "" -> applicationNamed json d ->
     Workspace.getDefaultAppProjectName json = Workspace.Done d) /\
  (forall pre post name p,
     Workspace.projects json = pre ++ (name, p) :: post ->
     Forall (fun np => Workspace.projectType (snd np) <> Some "application") pre ->
     Workspace.projectType p = Some "application" ->
     (forall d, Workspace.defaultProject json = Some d ->
                d = "" \/ ~ applicationNamed json d) ->
     Workspace.getDefaultAppProjectName json = Workspace.Done name) /\
  ((exists msg, Workspace.getDefaultAppProjectName json = Workspace.Died msg) <->
   Forall (fun np => Workspace.projectType (snd np) <> Some "application")
          (Workspace.projects json)).
Proof.
  intro N. split; [|split; [|split; [|split]]].
  - unfold Workspace.getDefaultAppProjectName. cbv zeta.
    destruct (Workspace.defaultProject json) as [d|];
      [destruct (negb (String.eqb d "") && _); [discriminate|]|];
      now destruct (find _ (Workspace.projects json)) as [[n p]|].
  - intros name H. destruct (@chosen_is_application json name N H) as (p & M & T).
    exists p. unfold Workspace.getProject. now rewrite M.
  - intros d. apply default_chosen.
  - intros pre post name p. apply first_chosen.
  - apply none_chosen.
Qed.

Lemma default_app_project_witness :
  NoDup (map fst (Workspace.projects
                    (Workspace.mkAngularJson (Some "docs")
                       [("lib", Workspace.mkProject (Some "library") None);
                        ("demo", Workspace.mkProject (Some "application") None);
                        ("docs", Workspace.mkProject (Some "application") (Some "docs/src"))]))) /\
  Workspace.getDefaultAppProjectName
    (Workspace.mkAngularJson (Some "docs")
       [("lib", Workspace.mkProject (Some "library") None);
        ("demo", Workspace.mkProject (Some "application") None);
        ("docs", Workspace.mkProject (Some "application") (Some "docs/src"))])
  = Workspace.Done "docs".
Proof.
  assert (N : NoDup (map fst (Workspace.projects
                    (Workspace.mkAngularJson (Some "docs")
                       [("lib", Workspace.mkProject (Some "library") None);
                        ("demo", Workspace.mkProject (Some "application") None);
                        ("docs", Workspace.mkProject (Some "application") (Some "docs/src"))])))).
  { simpl. repeat constructor; simpl; intuition discriminate. }
  split; [exact N|].
  refine (proj1 (proj2 (proj2 (@default_app_project _ N))) "docs" eq_refl _ _).
  - discriminate.
  - eexists. split; reflexivity.
Defined.

Section ResolvedContext.
Import Workspace.
Variables (h : Host) (readJson : string -> Parsed) (fuel : nat).
Variables (ws below : list string).
Hypothesis simple_segments : Forall (fun n => simpleName n = true) (ws ++ below).
Hypothesis enough_fuel : length (ws ++ below) < fuel.
Hypothesis started_below : cwd h = pathOf (ws ++ below).

Lemma root_found :
  manifestIn h ws = true ->
  (forall pre post, below = pre ++ post -> pre <> [] -> manifestIn h (ws ++ pre) = false) ->
  findWorkspaceRoot fuel h (cwd h) = Some (Done (pathOf ws)).
Proof.
  intros M N. unfold findWorkspaceRoot. cbv zeta. rewrite started_below.
  rewrite resolve_absolute by assumption.
  rewrite walkUp_found; try assumption; [reflexivity|].
  pose proof enough_fuel as L. rewrite length_app in L. lia.
Qed.

Lemma root_missing :
  (forall pre post, ws ++ below = pre ++ post -> manifestIn h pre = false) ->
  findWorkspaceRoot fuel h (cwd h)
  = Some (Died ("Unable to locate angular.json by walking up from: " +++ cwd h)).
Proof.
  intro N. unfold findWorkspaceRoot. cbv zeta. rewrite started_below.
  rewrite resolve_absolute by assumption.
  rewrite walkUp_none; try assumption. reflexivity.
Qed.

Lemma manifest_read :
  manifestIn h ws = true ->
  readAngularJson h readJson (pathOf ws)
  = match readJson (pathOf (ws ++ ["angular.json"])) with
    | Manifest json => Done json
    | Malformed message => Died ("Invalid JSON in angular.json: " +++ message)
    | Unreadable => Thrown
    end.
Proof.
  intro M. unfold readAngularJson. cbv zeta.
  pose proof simple_segments as S. apply Forall_app in S as [S _].
  rewrite join_name by (assumption || reflexivity).
  unfold fileExists. unfold manifestIn in M. now rewrite M.
Qed.

Lemma context_paths (s : string) (ss : list string) :
  Forall (fun n => simpleName n = true) (s :: ss) ->
  Path.join [Path.join [pathOf ws; Js.join Path.sepString (s :: ss)]; "app"]
  = pathOf (ws ++ (s :: ss) ++ ["app"]) /\
  Path.join [pathOf (ws ++ (s :: ss) ++ ["app"]); "features"]
  = pathOf (ws ++ (s :: ss) ++ ["app"; "features"]) /\
  Path.join [pathOf (ws ++ (s :: ss) ++ ["app"]); "app.routes.ts"]
  = pathOf (ws ++ (s :: ss) ++ ["app"; "app.routes.ts"]).
Proof.
  intro Hs. pose proof simple_segments as S. apply Forall_app in S as [S _].
  assert (A : Forall (fun n => simpleName n = true) (ws ++ s :: ss))
    by (apply Forall_app; now split).
  assert (B : Forall (fun n => simpleName n = true) (ws ++ (s :: ss) ++ ["app"])).
  { rewrite app_assoc. apply Forall_app. split; [assumption | now constructor]. }
  split; [|split].
  - rewrite join_relative by assumption.
    rewrite join_name by (assumption || reflexivity). now rewrite <- app_assoc.
  - rewrite join_name by (assumption || reflexivity). now rewrite <- !app_assoc.
  - rewrite join_name by (assumption || reflexivity). now rewrite <- !app_assoc.
Qed.

End ResolvedContext.

(** X21.  Started in a directory below the nearest one that holds a
    readable [angular.json], [getWorkspaceContext] ends and returns the
    canonical layout: the workspace root is that directory, and the
    application root, the features directory and the route file are
    [app], [app/features] and [app/app.routes.ts] under the source root
    of the default application project, [src] when the project names
    none. *)
Theorem workspace_context_layout (h : Host) (readJson : string -> Workspace.Parsed)
        (fuel : nat) (ws below : list string) (json : Workspace.AngularJson)
        (name : string) (project : Workspace.Project) (s : string) (ss : list string) :
  Forall (fun n => simpleName n = true) (ws ++ below) ->
  length (ws ++ below) < fuel ->
  cwd h = pathOf (ws ++ below) ->
  manifestIn h ws = true ->
  (forall pre post, below = pre ++ post -> pre <> [] -> manifestIn h (ws ++ pre) = false) ->
  readJson (pathOf (ws ++ ["angular.json"])) = Workspace.Manifest json ->
  Workspace.getDefaultAppProjectName json = Workspace.Done name ->
  Workspace.member name (Workspace.projects json) = Some project ->
  Forall (fun n => simpleName n = true) (s :: ss) ->
  match Workspace.sourceRoot project with
  | Some r => r
  | None => "src"
  end = Js.join Path.sepString (s :: ss) ->
  Workspace.getWorkspaceContext fuel h readJson
  = Some (Workspace.Done
            (mkContext (pathOf ws)
                       (pathOf (ws ++ (s :: ss) ++ ["app"]))
                       (pathOf (ws ++ (s :: ss) ++ ["app"; "features"]))
                       (pathOf (ws ++ (s :: ss) ++ ["app"; "app.routes.ts"])))).
Proof.
  intros Hs L C M N R D G Hr E. unfold Workspace.getWorkspaceContext.
  rewrite (@root_found h fuel ws below Hs L C M N). cbn [Workspace.bind].
  rewrite (@manifest_read h readJson ws below Hs M), R. cbn [Workspace.bind].
  rewrite D. cbn [Workspace.bind]. unfold Workspace.getProject. rewrite G.
  cbn [Workspace.bind]. cbv zeta. rewrite E.
  destruct (@context_paths ws below Hs s ss Hr) as (P1 & P2 & P3).
  now rewrite P1, P2, P3.
Qed.

(** X22.  The ways [getWorkspaceContext] dies: without [angular.json]
    in any directory from the working directory up to the root, with an
    [angular.json] that is not JSON, and with one that declares no
    application project. *)
Theorem workspace_context_dies (h : Host) (readJson : string -> Workspace.Parsed)
        (fuel : nat) (ws below : list string) :
  Forall (fun n => simpleName n = true) (ws ++ below) ->
  length (ws ++ below) < fuel ->
  cwd h = pathOf (ws ++ below) ->
  ((forall pre post, ws ++ below = pre ++ post -> manifestIn h pre = false) ->
   Workspace.getWorkspaceContext fuel h readJson
   = Some (Workspace.Died ("Unable to locate angular.json by walking up from: " +++ cwd h))) /\
  (manifestIn h ws = true ->
   (forall pre post, below = pre ++ post -> pre <> [] -> manifestIn h (ws ++ pre) = false) ->
   (forall message,
      readJson (pathOf (ws ++ ["angular.json"])) = Workspace.Malformed message ->
      Workspace.getWorkspaceContext fuel h readJson
      = Some (Workspace.Died ("Invalid JSON in angular.json: " +++ message))) /\
   (forall json,
      readJson (pathOf (ws ++ ["angular.json"])) = Workspace.Manifest json ->
      Forall (fun np => Workspace.projectType (snd np) <> Some "application")
             (Workspace.projects json) ->
      Workspace.getWorkspaceContext fuel h readJson
      = Some (Workspace.Died "No application project found in angular.json"))).
Proof.
  intros Hs L C. unfold Workspace.getWorkspaceContext. split.
  - intro N. now rewrite (@root_missing h fuel ws below Hs L C N).
  - intros M N. rewrite (@root_found h fuel ws below Hs L C M N). cbn [Workspace.bind].
    rewrite (@manifest_read h readJson ws below Hs M). split.
    + intros message R. now rewrite R.
    + intros json R F. rewrite R. cbn [Workspace.bind].
      apply none_chosen in F as [msg F].
      assert (F' : Workspace.getDefaultAppProjectName json
                   = Workspace.Died "No application project found in angular.json").
      { revert F. unfold Workspace.getDefaultAppProjectName. cbv zeta.
        destruct (Workspace.defaultProject json) as [d|];
          [destruct (negb (String.eqb d "") && _); [discriminate|]|];
          now destruct (find _ (Workspace.projects json)) as [[n p]|]. }
      now rewrite F'.
Qed.

Lemma workspace_context_layout_witness :
  Forall (fun n => simpleName n = true) (["ws"] ++ []) /\
  cwd Samples.shipped = pathOf (["ws"] ++ []) /\
  manifestIn Samples.shipped ["ws"] = true /\
  Workspace.getDefaultAppProjectName ManifestSamples.manifest = Workspace.Done "shop" /\
  Workspace.getWorkspaceContext 2 Samples.shipped ManifestSamples.readManifest
  = Some (Workspace.Done Samples.ctx).
Proof.
  assert (Hs : Forall (fun n => simpleName n = true) (["ws"] ++ []))
    by (repeat constructor).
  assert (L : length (["ws"] ++ @nil string) < 2) by (simpl; lia).
  assert (C : cwd Samples.shipped = pathOf (["ws"] ++ [])) by reflexivity.
  assert (M : manifestIn Samples.shipped ["ws"] = true) by reflexivity.
  assert (N : forall pre post, @nil string = pre ++ post -> pre <> [] ->
                               manifestIn Samples.shipped (["ws"] ++ pre) = false).
  { intros [|a pre] post E Hne; [contradiction | discriminate E]. }
  assert (R : ManifestSamples.readManifest (pathOf (["ws"] ++ ["angular.json"]))
              = Workspace.Manifest ManifestSamples.manifest) by reflexivity.
  assert (D : Workspace.getDefaultAppProjectName ManifestSamples.manifest
              = Workspace.Done "shop") by reflexivity.
  assert (G : Workspace.member "shop" (Workspace.projects ManifestSamples.manifest)
              = Some (Workspace.mkProject (Some "application") None)) by reflexivity.
  assert (Hr : Forall (fun n => simpleName n = true) ["src"]) by (repeat constructor).
  assert (E : match Workspace.sourceRoot (Workspace.mkProject (Some "application") None) with
              | Some r => r
              | None => "src"
              end = Js.join Path.sepString ["src"]) by reflexivity.
  split; [exact Hs|]. split; [exact C|]. split; [exact M|]. split; [exact D|].
  exact (@workspace_context_layout Samples.shipped ManifestSamples.readManifest 2
           ["ws"] [] ManifestSamples.manifest "shop"
           (Workspace.mkProject (Some "application") None) "src" []
           Hs L C M N R D G Hr E).
Defined.

Lemma workspace_context_dies_witness :
  Forall (fun n => simpleName n = true) (["ws"] ++ []) /\
  cwd ManifestSamples.bare = pathOf (["ws"] ++ []) /\
  Workspace.getWorkspaceContext 2 ManifestSamples.bare ManifestSamples.readManifest
  = Some (Workspace.Died "Unable to locate angular.json by walking up from: /ws").
Proof.
  assert (Hs : Forall (fun n => simpleName n = true) (["ws"] ++ []))
    by (repeat constructor).
  assert (L : length (["ws"] ++ @nil string) < 2) by (simpl; lia).
  assert (C : cwd ManifestSamples.bare = pathOf (["ws"] ++ [])) by reflexivity.
  assert (N : forall pre post, ["ws"] ++ [] = pre ++ post ->
                               manifestIn ManifestSamples.bare pre = false).
  { intros [|a [|b pre]] post E; [reflexivity| |].
    - injection E as <- _. reflexivity.
    - destruct pre; discriminate E. }
  split; [exact Hs|]. split; [exact C|].
  exact (proj1 (@workspace_context_dies ManifestSamples.bare ManifestSamples.readManifest 2
                  ["ws"] [] Hs L C) N).
Defined.

(** ** Route registration by the feature generator *)

Section Registration.
Import Generator.

Lemma indexOf_found (p : string) :
  forall s n, indexOf s p = Some n ->
              n <= String.length s /\ String.prefix p (sliceFrom s n) = true.
Proof.
  unfold sliceFrom. induction s as [|c s IH]; intros n H; cbn [indexOf] in H.
  - destruct (String.prefix p "") eqn:P; [|discriminate H].
    injection H as <-. now split.
  - destruct (String.prefix p (String c s)) eqn:P.
    + injection H as <-. split; [lia|]. now rewrite Nat.sub_0_r, substring_all.
    + destruct (indexOf s p) as [m|]; [|discriminate H]. injection H as <-.
      destruct (IH m eq_refl) as [L Q]. split; [cbn; lia | exact Q].
Qed.

Lemma lastIndexOf_found (p : string) :
  forall s n, lastIndexOf s p = Some n ->
              n <= String.length s /\ String.prefix p (sliceFrom s n) = true.
Proof.
  unfold sliceFrom. induction s as [|c s IH]; intros n H; cbn [lastIndexOf] in H.
  - destruct (String.prefix p "") eqn:P; [|discriminate H].
    injection H as <-. now split.
  - destruct (lastIndexOf s p) as [m|].
    + injection H as <-. destruct (IH m eq_refl) as [L Q]. split; [cbn; lia | exact Q].
    + destruct (String.prefix p (String c s)) eqn:P; [|discriminate H].
      injection H as <-. split; [lia|]. now rewrite Nat.sub_0_r, substring_all.
Qed.

Lemma slice_split (s : string) (n : nat) :
  n <= String.length s -> s = sliceTo s n +++ sliceFrom s n.
Proof. apply substring_split. Qed.

Lemma indexOf_absent (p : string) :
  forall s, indexOf s p = None <-> Js.includes s p = false.
Proof.
  induction s as [|c s IH]; cbn [indexOf Js.includes].
  - destruct (String.prefix p ""); cbn; split; (discriminate || reflexivity).
  - destruct (String.prefix p (String c s)); cbn [orb]; [split; discriminate|].
    rewrite <- IH. destruct (indexOf s p); cbn; split; (discriminate || reflexivity).
Qed.

Lemma lastIndexOf_absent (p : string) :
  forall s, lastIndexOf s p = None <-> Js.includes s p = false.
Proof.
  induction s as [|c s IH]; cbn [lastIndexOf Js.includes].
  - destruct (String.prefix p ""); cbn; split; (discriminate || reflexivity).
  - destruct (lastIndexOf s p) as [m|].
    + assert (E : Js.includes s p = true).
      { destruct (Js.includes s p); [reflexivity|]. discriminate (proj2 IH eq_refl). }
      rewrite E, orb_true_r. split; discriminate.
    + rewrite (proj1 IH eq_refl), orb_false_r.
      destruct (String.prefix p (String c s)); split; (discriminate || reflexivity).
Qed.

Lemma insertion_needle (routePath featureKebab featureConst : string) :
  exists pre post,
    insertion routePath featureKebab featureConst = pre +++ needle routePath +++ post.
Proof.
  exists ("  {" +++ Js.nl +++ "    ").
  exists ("," +++ Js.nl
          +++ "    loadChildren: () =>" +++ Js.nl
          +++ "      import('./features/" +++ featureKebab +++ "/" +++ featureKebab
          +++ ".routes').then((m) => m." +++ featureConst +++ "_ROUTES)," +++ Js.nl
          +++ "  }," +++ Js.nl).
  unfold insertion, needle. rewrite !append_assoc. reflexivity.
Qed.

Variables (appRoutesFile routePath featureKebab featureConst : string).

(** What is written is the text read, with the new entry put in. *)
Lemma wrote_spec (src content : string) :
  addRouteToAppRoutes appRoutesFile (Text src) routePath featureKebab featureConst
  = Wrote content ->
  Js.includes src (needle routePath) = false /\
  exists a b,
    src = a +++ b /\
    content = a +++ insertion routePath featureKebab featureConst +++ b /\
    (forall w, indexOf src "path: '**'" = Some w ->
               exists mid, a +++ mid = sliceTo src w /\
                           b = mid +++ sliceFrom src w /\
                           String.prefix "path: '**'" (sliceFrom src w) = true /\
                           (mid = "" \/ String.prefix "  {" mid = true)) /\
    (indexOf src "path: '**'" = None -> String.prefix "];" b = true).
Proof.
  unfold addRouteToAppRoutes.
  destruct (Js.includes src (needle routePath)) eqn:I; [discriminate|].
  cbv zeta. intro H. split; [reflexivity|].
  destruct (indexOf src "path: '**'") as [w|] eqn:W.
  - destruct (indexOf_found _ _ W) as [Lw Pw].
    destruct (lastIndexOf (sliceTo src w) "  {") as [i|] eqn:B; injection H as <-.
    + destruct (lastIndexOf_found _ _ B) as [Li Pi].
      exists (sliceTo (sliceTo src w) i), (sliceFrom (sliceTo src w) i +++ sliceFrom src w).
      split; [|split; [|split]].
      * rewrite <- append_assoc, <- slice_split by assumption. now apply slice_split.
      * reflexivity.
      * intros w' [= <-]. exists (sliceFrom (sliceTo src w) i).
        split; [symmetry; now apply slice_split|]. split; [reflexivity|].
        split; [assumption | now right].
      * discriminate.
    + exists (sliceTo src w), (sliceFrom src w).
      split; [now apply slice_split|]. split; [reflexivity|]. split; [|discriminate].
      intros w' [= <-]. exists "". rewrite append_empty_r.
      split; [reflexivity|]. split; [reflexivity|]. split; [assumption | now left].
  - destruct (lastIndexOf src "];") as [closing|] eqn:C; [|discriminate H].
    injection H as <-. destruct (lastIndexOf_found _ _ C) as [Lc Pc].
    exists (sliceTo src closing), (sliceFrom src closing).
    split; [now apply slice_split|]. split; [reflexivity|]. split; [discriminate|].
    intros _. exact Pc.
Qed.

Lemma wrote_includes (src content : string) :
  addRouteToAppRoutes appRoutesFile (Text src) routePath featureKebab featureConst
  = Wrote content ->
  Js.includes content (needle routePath) = true.
Proof.
  intro H. apply wrote_spec in H as (_ & a & b & _ & -> & _).
  destruct (insertion_needle routePath featureKebab featureConst) as (pre & post & ->).
  rewrite !append_assoc, <- (append_assoc a pre). apply includes_append.
Qed.

End Registration.


(** X24.  Registration is idempotent: run again on the text it wrote,
    [addRouteToAppRoutes] finds the route and writes nothing. *)
Theorem registration_idempotent (appRoutesFile routePath featureKebab featureConst : string)
        (src content : string) :
  Generator.addRouteToAppRoutes appRoutesFile (Generator.Text src)
                                routePath featureKebab featureConst
  = Generator.Wrote content ->
  exists log,
    Generator.addRouteToAppRoutes appRoutesFile (Generator.Text content)
                                  routePath featureKebab featureConst
    = Generator.Skipped log.
Proof.
  intro H. apply wrote_includes in H. unfold Generator.addRouteToAppRoutes.
  rewrite H. eauto.
Qed.

(** X25.  On a text, [addRouteToAppRoutes] never throws; it skips the
    insertion exactly when the text holds [path: '<route>'], and dies
    exactly when the text holds neither that, nor [path: '**'], nor
    [];]. *)
Theorem registration_outcomes (appRoutesFile routePath featureKebab featureConst : string)
        (src : string) :
  Generator.addRouteToAppRoutes appRoutesFile (Generator.Text src)
                                routePath featureKebab featureConst
  <> Generator.Thrown /\
  ((exists log,
      Generator.addRouteToAppRoutes appRoutesFile (Generator.Text src)
                                    routePath featureKebab featureConst
      = Generator.Skipped log) <->
   Js.includes src (Generator.needle routePath) = true) /\
  ((exists msg,
      Generator.addRouteToAppRoutes appRoutesFile (Generator.Text src)
                                    routePath featureKebab featureConst
      = Generator.Died msg) <->
   Js.includes src (Generator.needle routePath) = false /\
   Js.includes src "path: '**'" = false /\
   Js.includes src "];" = false).
Proof.
  unfold Generator.addRouteToAppRoutes.
  destruct (Js.includes src (Generator.needle routePath)) eqn:I.
  - split; [discriminate|]. split; [split; eauto|].
    split; [intros [msg H]; discriminate H | intros [H _]; discriminate H].
  - cbv zeta. destruct (Generator.indexOf src "path: '**'") as [w|] eqn:W.
    + assert (Iw : Js.includes src "path: '**'" = true).
      { destruct (Js.includes src "path: '**'") eqn:E; [reflexivity|].
        apply indexOf_absent in E. congruence. }
      destruct (Generator.lastIndexOf (Generator.sliceTo src w) "  {");
        (split; [discriminate|]);
        (split; [split; [intros [l H]; discriminate H | discriminate]|]);
        (split; [intros [m H]; discriminate H | intros (_ & H & _); congruence]).
    + apply indexOf_absent in W.
      destruct (Generator.lastIndexOf src "];") as [c|] eqn:C.
      * assert (Ic : Js.includes src "];" = true).
        { destruct (Js.includes src "];") eqn:E; [reflexivity|].
          apply lastIndexOf_absent in E. congruence. }
        split; [discriminate|].
        split; [split; [intros [l H]; discriminate H | discriminate]|].
        split; [intros [m H]; discriminate H | intros (_ & _ & H); congruence].
      * apply lastIndexOf_absent in C.
        split; [discriminate|].
        split; [split; [intros [l H]; discriminate H | discriminate]|].
        split; [auto | eauto].
Qed.


Lemma registration_idempotent_witness :
  Generator.addRouteToAppRoutes "app.routes.ts" (Generator.Text TextSamples.routesText)
                                "settings" "settings" "SETTINGS"
  = Generator.Wrote TextSamples.registeredText /\
  exists log,
    Generator.addRouteToAppRoutes "app.routes.ts" (Generator.Text TextSamples.registeredText)
                                  "settings" "settings" "SETTINGS"
    = Generator.Skipped log.
Proof.
  assert (H : Generator.addRouteToAppRoutes "app.routes.ts"
                (Generator.Text TextSamples.routesText) "settings" "settings" "SETTINGS"
              = Generator.Wrote TextSamples.registeredText) by (vm_compute; reflexivity).
  split; [exact H|].
  exact (@registration_idempotent "app.routes.ts" "settings" "settings" "SETTINGS"
           TextSamples.routesText TextSamples.registeredText H).
Defined.

(** ** The file rules on a sample feature *)


